(** * Davis WeatherLink Live / AirLink to InfluxDB line protocol

    A shallow embedding of the two Node-RED function nodes of the
    repository (the WeatherLink Live converter and [airlink.js]) and the
    theorems that settle the claims of the specification against them.

    JavaScript values are embedded as an inductive type over IEEE-754
    binary64 numbers (Rocq's primitive floats), strings hold the UTF-8
    bytes of their text, objects are association lists in property order,
    and the effects of a function node ([node.warn], [node.error],
    [node.status], the returned message, a thrown exception) are explicit
    in the result type.  A conversion that JavaScript leaves to the value
    (ToString, ToNumber) is a computation that may throw.

    The values are those of JSON, with [undefined] and the Numbers NaN and
    the infinities, which a payload parsed upstream may hold.  Property
    order is insertion order, the order JavaScript gives to keys that are
    not array indices, as the keys of the schemas, of the tags and of the
    device's JSON are. *)

From Stdlib Require Import ZArith List String Ascii Bool Lia.
From Stdlib Require Import PrimFloat FloatOps SpecFloat.
From Stdlib Require Import DecimalString.
From Stdlib Require Import Sorted Permutation.
Import ListNotations.

Set Warnings "-register-all,-inexact-float".

Local Open Scope string_scope.
Local Open Scope Z_scope.

(** ** Numbers: the parts of ECMAScript's Number type the scripts use *)

Module JSNumber.

(** The binary64 value nearest to [p / q] (ties to even), with the sign
    [neg]; [p >= 0] and [q > 0].  This is the rounding of ECMAScript's
    "Number value for" a mathematical value. *)
Definition round_ratio (neg : bool) (p q : Z) : float :=
  match p with
  | Z0 => if neg then neg_zero else zero
  | Zpos _ =>
      let '(mz, ez, lz) := SFdiv_core_binary prec emax p 0 q 0 in
      SF2Prim (binary_round_aux prec emax neg mz ez lz)
  | Zneg _ => nan
  end.

(** The Number value for [m * 10^e], [m >= 0]. *)
Definition of_decimal (neg : bool) (m e : Z) : float :=
  if 0 <=? e then round_ratio neg (m * 10 ^ e) 1
  else round_ratio neg m (10 ^ (- e)).

(** A finite number as an exact fraction [(negative, p, q)], value
    [p / q]; [None] for NaN and the infinities. *)
Definition to_ratio (x : float) : option (bool * Z * Z) :=
  match Prim2SF x with
  | S754_zero s => Some (s, 0, 1)
  | S754_finite s m e =>
      if 0 <=? e then Some (s, Zpos m * 2 ^ e, 1)
      else Some (s, Zpos m, 2 ^ (- e))
  | _ => None
  end.

Definition of_Z (n : Z) : float :=
  round_ratio (n <? 0) (Z.abs n) 1.

(** [Math.floor]. *)
Definition Math_floor (x : float) : float :=
  match to_ratio x with
  | Some (s, p, q) =>
      if q =? 1 then x
      else
        let n := (if s then - p else p) / q in
        if n =? 0 then zero else of_Z n
  | None => x
  end.

(** [Math.trunc], the truncation toward zero the specification names. *)
Definition Math_trunc (x : float) : float :=
  match to_ratio x with
  | Some (s, p, q) =>
      if q =? 1 then x
      else
        let n := p / q in
        if n =? 0 then (if s then neg_zero else zero)
        else of_Z (if s then - n else n)
  | None => x
  end.

Definition string_of_nat_Z (n : Z) : string :=
  NilZero.string_of_uint (N.to_uint (Z.to_N n)).

Fixpoint repeat_char (c : ascii) (n : nat) : string :=
  match n with
  | O => EmptyString
  | S n' => String c (repeat_char c n')
  end.

Definition zeros (n : Z) : string := repeat_char "0"%char (Z.to_nat n).

(** Left-pad with zeros to at least [w] characters. *)
Definition pad_left (w : Z) (s : string) : string :=
  zeros (w - Z.of_nat (String.length s)) ++ s.

(** The [k] decimal digits of [s], where [10^(k-1) <= s < 10^k]. *)
Definition digits_of (k s : Z) : string := pad_left k (string_of_nat_Z s).

(** *** Number::toString, radix 10 *)

(** [p / q < 10 ^ n] on exact fractions, [q > 0]. *)
Definition lt_pow10 (p q n : Z) : bool :=
  if 0 <=? n then p <? 10 ^ n * q else p * 10 ^ (- n) <? q.

(** The [n] with [10^(n-1) <= p/q < 10^n], searched upward from a lower
    estimate. *)
Fixpoint search_n (fuel : nat) (p q n : Z) : Z :=
  match fuel with
  | O => n
  | S fuel' => if lt_pow10 p q n then n else search_n fuel' p q (n + 1)
  end.

Definition decimal_exponent (p q : Z) : Z :=
  let d2 := Z.log2 p - Z.log2 q in
  search_n 8 p q ((d2 - 1) * 30103 / 100000 - 1).

(** [p/q / 10^(n-k)] as a fraction. *)
Definition scaled (p q n k : Z) : Z * Z :=
  if 0 <=? n - k then (p, q * 10 ^ (n - k)) else (p * 10 ^ (k - n), q).

(** The candidates with [k] digits: the two neighbours of [x] among the
    multiples of [10^(n-k)], each kept when it reads back as [x]; the
    nearer one wins, the even one on a tie. *)
Definition candidate (x : float) (p q n k : Z) : option Z :=
  let '(P, Q) := scaled p q n k in
  let lo := P / Q in
  let hi := lo + 1 in
  let ok s := PrimFloat.eqb (of_decimal false s (n - k)) x in
  match ok lo, ok hi with
  | true, true =>
      match (2 * P - 2 * lo * Q) ?= Q with
      | Lt => Some lo
      | Gt => Some hi
      | Eq => Some (if Z.even lo then lo else hi)
      end
  | true, false => Some lo
  | false, true => Some hi
  | false, false => None
  end.

(** The least [k] with a candidate, as [(n, k, s)]. *)
Fixpoint shortest (fuel : nat) (x : float) (p q n k : Z) : Z * Z * Z :=
  match fuel with
  | O => (n, k, fst (scaled p q n k) / snd (scaled p q n k))
  | S fuel' =>
      match candidate x p q n k with
      | Some s => if s =? 10 ^ k then (n + 1, 1, 1) else (n, k, s)
      | None => shortest fuel' x p q n (k + 1)
      end
  end.

Definition exponent_part (n : Z) : string :=
  let e := n - 1 in
  "e" ++ (if e <? 0 then "-" else "+") ++ string_of_nat_Z (Z.abs e).

Definition format_digits (n k s : Z) : string :=
  let ds := digits_of k s in
  if (k <=? n) && (n <=? 21) then ds ++ zeros (n - k)
  else if (0 <? n) && (n <=? 21) then
    substring 0 (Z.to_nat n) ds ++ "." ++
    substring (Z.to_nat n) (Z.to_nat (k - n)) ds
  else if (-6 <? n) && (n <=? 0) then "0." ++ zeros (- n) ++ ds
  else if k =? 1 then ds ++ exponent_part n
  else substring 0 1 ds ++ "." ++ substring 1 (Z.to_nat (k - 1)) ds
       ++ exponent_part n.

Definition toString (x : float) : string :=
  if is_nan x then "NaN"
  else match to_ratio x with
       | None => if get_sign x then "-Infinity" else "Infinity"
       | Some (s, p, q) =>
           if p =? 0 then "0"
           else
             let ax := abs x in
             let '(n, k, d) := shortest 17 ax p q (decimal_exponent p q) 1 in
             (if s then "-" else "") ++ format_digits n k d
       end.

(** *** Number.prototype.toFixed *)

(** [toFixed] for [fractionDigits = f] in range ([0 <= f <= 100]):
    the integer [n] with [n / 10^f] nearest to [|x|], the larger on a
    tie, printed with [f] decimals. *)
Definition toFixed_digits (x : float) (f : Z) : string :=
  if is_nan x then "NaN"
  else match to_ratio x with
       | None => toString x
       | Some (s, p, q) =>
           if 10 ^ 21 * q <=? p then toString x
           else
             let n := (2 * p * 10 ^ f + q) / (2 * q) in
             let m := pad_left (f + 1) (string_of_nat_Z n) in
             let k := Z.of_nat (String.length m) in
             (if s && negb (p =? 0) then "-" else "") ++
             (if f =? 0 then m
              else substring 0 (Z.to_nat (k - f)) m ++ "." ++
                   substring (Z.to_nat (k - f)) (Z.to_nat f) m)
       end.

End JSNumber.

(** ** Strings: String.prototype.replace with a global one-character
    pattern, Array.prototype.join, and StringToNumber *)

Module JSString.

(** [s.replace(/c/g, r)] for a pattern that is the single character [c]
    and a replacement [r] without [$] patterns. *)
Fixpoint replace_all (c : ascii) (r : string) (s : string) : string :=
  match s with
  | EmptyString => EmptyString
  | String a s' =>
      if Ascii.eqb a c then r ++ replace_all c r s'
      else String a (replace_all c r s')
  end.

(** [parts.join(sep)] on an array of strings. *)
Fixpoint join (sep : string) (parts : list string) : string :=
  match parts with
  | [] => EmptyString
  | [p] => p
  | p :: rest => p ++ sep ++ join sep rest
  end.

(** WhiteSpace and LineTerminator.  A string holds the UTF-8 bytes of its
    text: the ASCII ones are TAB, LF, VT, FF, CR and the space; NBSP is
    two bytes; U+1680, U+2000 to U+200A, U+2028, U+2029, U+202F, U+205F,
    U+3000 and U+FEFF are three. *)
Definition is_white (c : ascii) : bool :=
  let n := N_of_ascii c in
  ((9 <=? n) && (n <=? 13) || (n =? 32))%N.

Definition is_white2 (a b : ascii) : bool :=
  ((N_of_ascii a =? 194) && (N_of_ascii b =? 160))%N.

Definition is_white3 (a b c : ascii) : bool :=
  let '(x, y, z) := (N_of_ascii a, N_of_ascii b, N_of_ascii c) in
  ((x =? 225) && (y =? 154) && (z =? 128)
   || (x =? 226) && (y =? 128)
      && ((128 <=? z) && (z <=? 138) || (z =? 168) || (z =? 169)
          || (z =? 175))
   || (x =? 226) && (y =? 129) && (z =? 159)
   || (x =? 227) && (y =? 128) && (z =? 128)
   || (x =? 239) && (y =? 187) && (z =? 191))%N.

(** The string without the white space it starts with; [backwards] when
    the bytes of [s] are in reverse order. *)
Fixpoint trim_left (backwards : bool) (s : string) : string :=
  match s with
  | String a s1 =>
      if is_white a then trim_left backwards s1
      else
        match s1 with
        | String b s2 =>
            if (if backwards then is_white2 b a else is_white2 a b) then
              trim_left backwards s2
            else
              match s2 with
              | String c s3 =>
                  if (if backwards then is_white3 c b a
                      else is_white3 a b c) then
                    trim_left backwards s3
                  else s
              | EmptyString => s
              end
        | EmptyString => s
        end
  | EmptyString => s
  end.

Fixpoint rev_string (s acc : string) : string :=
  match s with
  | EmptyString => acc
  | String c s' => rev_string s' (String c acc)
  end.

Definition trim (s : string) : string :=
  rev_string (trim_left true (rev_string (trim_left false s) "")) "".

(** The code units of a string, each as the text it is alone.  A
    character of one to three bytes is one code unit; a character of four
    bytes is a surrogate pair, two code units, each written here in three
    bytes as a character of its own. *)
Definition is_continuation (c : ascii) : bool :=
  let n := N_of_ascii c in ((128 <=? n) && (n <? 192))%N.

Definition byte (n : N) : ascii := ascii_of_N (n mod 256).

Definition surrogate (u : N) : string :=
  String (byte (224 + u / 4096))
    (String (byte (128 + (u / 64) mod 64))
       (String (byte (128 + u mod 64)) EmptyString)).

Definition units_of_char (lead : ascii) (cont : string) : list string :=
  match cont with
  | String b1 (String b2 (String b3 EmptyString)) =>
      if (240 <=? N_of_ascii lead)%N then
        let cp := ((N_of_ascii lead mod 8) * 262144
                   + (N_of_ascii b1 mod 64) * 4096
                   + (N_of_ascii b2 mod 64) * 64
                   + N_of_ascii b3 mod 64)%N in
        let v := (cp - 65536)%N in
        [surrogate (55296 + v / 1024); surrogate (56320 + v mod 1024)]
      else [String lead cont]
  | _ => [String lead cont]
  end.

(** The continuation bytes [s] starts with, and the code units of what
    follows them. *)
Fixpoint code_units_from (s : string) : string * list string :=
  match s with
  | EmptyString => (EmptyString, [])
  | String c s' =>
      let '(cont, us) := code_units_from s' in
      if is_continuation c then (String c cont, us)
      else (EmptyString, (units_of_char c cont ++ us)%list)
  end.

Definition code_units (s : string) : list string :=
  let '(cont, us) := code_units_from s in
  match cont with
  | EmptyString => us
  | _ => cont :: us
  end.

Definition digit_value (base : N) (c : ascii) : option Z :=
  let n := N_of_ascii c in
  let v := (if (48 <=? n) && (n <=? 57) then Some (n - 48)
            else if (97 <=? n) && (n <=? 122) then Some (n - 87)
            else if (65 <=? n) && (n <=? 90) then Some (n - 55)
            else None)%N in
  match v with
  | Some d => if (d <? base)%N then Some (Z.of_N d) else None
  | None => None
  end.

(** The longest prefix of digits in [base], most significant first, and
    what follows it. *)
Fixpoint take_digits (base : N) (s : string) : list Z * string :=
  match s with
  | String c s' =>
      match digit_value base c with
      | Some d => let '(ds, r) := take_digits base s' in (d :: ds, r)
      | None => ([], s)
      end
  | EmptyString => ([], s)
  end.

Definition digits_value (base : Z) (ds : list Z) : Z :=
  fold_left (fun acc d => acc * base + d) ds 0.

Definition len {A} (l : list A) : Z := Z.of_nat (List.length l).

(** The Number value of the digits [ds] scaled by [10^e]. *)
Definition decimal_value (neg : bool) (ds : list Z) (e : Z) : float :=
  let d := digits_value 10 ds in
  if d =? 0 then (if neg then neg_zero else zero)
  else if 400 <? e then (if neg then neg_infinity else infinity)
  else if e + len ds <? -400 then (if neg then neg_zero else zero)
  else JSNumber.of_decimal neg d e.

(** ExponentPart after its [e]: an optional sign and at least one digit,
    up to the end of the string. *)
Definition parse_exponent (s : string) : option Z :=
  let '(neg, r) :=
    match s with
    | String "-" r => (true, r)
    | String "+" r => (false, r)
    | _ => (false, s)
    end in
  match take_digits 10 r with
  | ((_ :: _) as ds, EmptyString) =>
      Some (if neg then - digits_value 10 ds else digits_value 10 ds)
  | _ => None
  end.

(** StrUnsignedDecimalLiteral. *)
Definition parse_unsigned (neg : bool) (s : string) : float :=
  if String.eqb s "Infinity" then (if neg then neg_infinity else infinity)
  else
    let '(ip, r1) := take_digits 10 s in
    let '(fp, r2) :=
      match r1 with
      | String "." r => take_digits 10 r
      | _ => ([], r1)
      end in
    match (ip ++ fp)%list with
    | [] => nan
    | ds =>
        match r2 with
        | EmptyString => decimal_value neg ds (- len fp)
        | String c r3 =>
            if Ascii.eqb c "e" || Ascii.eqb c "E" then
              match parse_exponent r3 with
              | Some ex => decimal_value neg ds (ex - len fp)
              | None => nan
              end
            else nan
        end
    end.

(** NonDecimalIntegerLiteral after its two-character prefix. *)
Definition parse_radix (base : N) (s : string) : float :=
  match take_digits base s with
  | ((_ :: _) as ds, EmptyString) =>
      JSNumber.round_ratio false (digits_value (Z.of_N base) ds) 1
  | _ => nan
  end.

(** StringToNumber: white space is trimmed, the empty string is [+0],
    anything outside StrNumericLiteral is NaN. *)
Definition StringToNumber (str : string) : float :=
  match trim str with
  | EmptyString => zero
  | String "0" (String p r) as s =>
      if Ascii.eqb p "x" || Ascii.eqb p "X" then parse_radix 16 r
      else if Ascii.eqb p "o" || Ascii.eqb p "O" then parse_radix 8 r
      else if Ascii.eqb p "b" || Ascii.eqb p "B" then parse_radix 2 r
      else parse_unsigned false s
  | String "-" r => parse_unsigned true r
  | String "+" r => parse_unsigned false r
  | s => parse_unsigned false s
  end.

End JSString.

(** ** Values, completions and the operations on values *)

Inductive value : Type :=
| Undefined
| Null
| Bool (b : bool)
| Number (x : float)
| Str (s : string)
| Array (elems : list value)
| Object (props : list (string * value)).

Inductive error : Type :=
| TypeError (message : string)
| RangeError (message : string)
| SyntaxError (message : string).

(** The completion of an evaluation: a value, or a thrown exception. *)
Inductive completion (A : Type) : Type :=
| Normal (a : A)
| Throw (e : error).

Arguments Normal {A} a.
Arguments Throw {A} e.

Definition bind {A B} (c : completion A) (k : A -> completion B)
  : completion B :=
  match c with
  | Normal a => k a
  | Throw e => Throw e
  end.

Notation "x <- c ;; k" := (bind c (fun x => k))
  (at level 61, c at next level, right associativity).

Module JS.

(** [v == null]: true of [null] and [undefined] only. *)
Definition is_nullish (v : value) : bool :=
  match v with
  | Undefined | Null => true
  | _ => false
  end.

Definition ToBoolean (v : value) : bool :=
  match v with
  | Undefined | Null => false
  | Bool b => b
  | Number x => negb (is_zero x || is_nan x)
  | Str s => negb (String.eqb s "")
  | Array _ | Object _ => true
  end.

(** Own properties of an object, in property order. *)
Fixpoint lookup {A} (key : string) (props : list (string * A)) : option A :=
  match props with
  | [] => None
  | (k, v) :: rest => if String.eqb k key then Some v else lookup key rest
  end.

(** What ToPrimitive throws when neither [toString] nor [valueOf] gives a
    primitive. *)
Definition cannot_convert : error :=
  TypeError "Cannot convert object to primitive value".

(** ToString.  An array joins its elements with commas, [null] and
    [undefined] elements as the empty string.  An object goes through
    ToPrimitive: the inherited [toString] gives ["[object Object]"] and
    the inherited [valueOf] gives the object back; an own [toString]
    property hides the inherited one and, as no value of the payload is a
    function, leaves no method that gives a primitive, which is a
    TypeError. *)
Fixpoint ToString (v : value) : completion string :=
  match v with
  | Undefined => Normal "undefined"
  | Null => Normal "null"
  | Bool true => Normal "true"
  | Bool false => Normal "false"
  | Number x => Normal (JSNumber.toString x)
  | Str s => Normal s
  | Array elems =>
      parts <- (fix each (l : list value) : completion (list string) :=
                  match l with
                  | [] => Normal []
                  | e :: l' =>
                      s <- (if is_nullish e then Normal "" else ToString e) ;;
                      rest <- each l' ;;
                      Normal (s :: rest)
                  end) elems ;;
      Normal (JSString.join "," parts)
  | Object props =>
      match lookup "toString" props with
      | Some _ => Throw cannot_convert
      | None => Normal "[object Object]"
      end
  end.

(** ToNumber; arrays and objects go through ToPrimitive, which gives
    their string or throws as ToString does. *)
Definition ToNumber (v : value) : completion float :=
  match v with
  | Undefined => Normal nan
  | Null => Normal zero
  | Bool true => Normal one
  | Bool false => Normal zero
  | Number x => Normal x
  | Str s => Normal (JSString.StringToNumber s)
  | Array _ | Object _ =>
      s <- ToString v ;; Normal (JSString.StringToNumber s)
  end.

(** [Number.isNaN(v)]: no coercion, only the Number NaN. *)
Definition Number_isNaN (v : value) : bool :=
  match v with
  | Number x => is_nan x
  | _ => false
  end.

(** [v === n] for a Number [n]. *)
Definition strict_eq_number (v : value) (n : float) : bool :=
  match v with
  | Number x => PrimFloat.eqb x n
  | _ => false
  end.

(** [a || b]. *)
Definition or_else (a b : value) : value :=
  if ToBoolean a then a else b.

(** [obj[key] = v]: an existing property keeps its place, a new one is
    added last. *)
Fixpoint assign {A} (key : string) (v : A) (props : list (string * A))
  : list (string * A) :=
  match props with
  | [] => [(key, v)]
  | (k, w) :: rest =>
      if String.eqb k key then (k, v) :: rest
      else (k, w) :: assign key v rest
  end.

(** A canonical array index: decimal digits without a leading zero. *)
Definition index_of_key (key : string) : option nat :=
  match key with
  | EmptyString => None
  | String "0" EmptyString => Some O
  | String "0" _ => None
  | _ =>
      match JSString.take_digits 10 key with
      | (ds, EmptyString) => Some (Z.to_nat (JSString.digits_value 10 ds))
      | _ => None
      end
  end.

(** [v[key]] for a [v] that is neither [null] nor [undefined].  Only own
    properties are modelled: the scripts read the keys of the device's
    JSON and of their schemas, none of which names a member of a built-in
    prototype. *)
Definition get (v : value) (key : string) : value :=
  match v with
  | Object props =>
      match lookup key props with
      | Some w => w
      | None => Undefined
      end
  | Array elems =>
      if String.eqb key "length" then
        Number (JSNumber.of_Z (JSString.len elems))
      else
        match index_of_key key with
        | Some i => nth i elems Undefined
        | None => Undefined
        end
  | Str s =>
      if String.eqb key "length" then
        Number (JSNumber.of_Z (JSString.len (JSString.code_units s)))
      else
        match index_of_key key with
        | Some i =>
            match nth_error (JSString.code_units s) i with
            | Some c => Str c
            | None => Undefined
            end
        | None => Undefined
        end
  | _ => Undefined
  end.

(** [v.key]: a TypeError on [null] and [undefined]. *)
Definition get_prop (v : value) (key : string) : completion value :=
  if is_nullish v then
    Throw (TypeError ("Cannot read properties of " ++
                      match v with
                      | Null => "null"
                      | _ => "undefined"
                      end))
  else Normal (get v key).

(** [v?.key]. *)
Definition get_opt (v : value) (key : string) : value :=
  if is_nullish v then Undefined else get v key.

(** [x.toFixed(f)]. *)
Definition toFixed (x : float) (f : Z) : completion string :=
  if (f <? 0) || (100 <? f) then
    Throw (RangeError "toFixed() digits argument must be between 0 and 100")
  else Normal (JSNumber.toFixed_digits x f).

(** [arr.find(pred)]: the first element that satisfies [pred], or
    [undefined]; a TypeError when [arr] is not an array (no other JSON
    value has a callable [find]). *)
Fixpoint find_first (pred : value -> completion bool) (l : list value)
  : completion value :=
  match l with
  | [] => Normal Undefined
  | c :: rest =>
      b <- pred c ;;
      if b then Normal c else find_first pred rest
  end.

Definition Array_find (arr : value) (pred : value -> completion bool)
  : completion value :=
  match arr with
  | Array elems => find_first pred elems
  | _ => Throw (TypeError "find is not a function")
  end.

(** [arr.map(f)] for an [f] that may throw: the elements in order, up to
    the first exception. *)
Fixpoint Array_map {A B} (f : A -> completion B) (l : list A)
  : completion (list B) :=
  match l with
  | [] => Normal []
  | x :: rest =>
      y <- f x ;;
      ys <- Array_map f rest ;;
      Normal (y :: ys)
  end.

(** [arr.sort(cmp)]: the stable sort by a comparator; [a] stays before
    [b] when [cmp a b <= 0]. *)
Fixpoint insert_sorted {A} (cmp : A -> A -> Z) (x : A) (l : list A)
  : list A :=
  match l with
  | [] => [x]
  | y :: rest =>
      if cmp x y <=? 0 then x :: l else y :: insert_sorted cmp x rest
  end.

Definition Array_sort {A} (cmp : A -> A -> Z) (l : list A) : list A :=
  fold_right (insert_sorted cmp) [] l.

End JS.

(** ** String.prototype.localeCompare

    The comparison is the host's collation.  Node.js compares with ICU;
    this is its root collation (the one of the English locales) on ASCII:
    control characters are ignored, white space sorts before punctuation,
    punctuation before digits, digits before letters, letters
    alphabetically without regard to case; strings with equal letters are
    then told apart by case, lower case first.  The keys the scripts sort
    are the keys of their configured tags and [sensor_id], all of them
    ASCII; text outside ASCII, and a host whose default locale tailors
    the order of ASCII letters, are outside this model. *)

Module Collation.

(** Codes of the ASCII white space, punctuation and symbols in collation
    order. *)
Definition before_digits : list N :=
  [9; 10; 11; 12; 13; 32; 95; 45; 44; 59; 58; 33; 63; 46; 39; 34; 40; 41;
   91; 93; 123; 125; 64; 42; 47; 92; 38; 35; 37; 96; 94; 43; 60; 61; 62;
   124; 126; 36]%N.

Fixpoint position (n : N) (l : list N) (i : N) : option N :=
  match l with
  | [] => None
  | m :: rest => if (m =? n)%N then Some i else position n rest (i + 1)%N
  end.

(** Primary weight, [None] for an ignored character.  Bytes outside ASCII
    are outside the model and are placed after the letters. *)
Definition primary (c : ascii) : option N :=
  let n := N_of_ascii c in
  (if (48 <=? n) && (n <=? 57) then Some (100 + (n - 48))
   else if (97 <=? n) && (n <=? 122) then Some (200 + (n - 97))
   else if (65 <=? n) && (n <=? 90) then Some (200 + (n - 65))
   else if 128 <=? n then Some (300 + n)
   else position n before_digits 0)%N.

(** Case weight: [1] for an upper-case letter. *)
Definition tertiary (c : ascii) : N :=
  let n := N_of_ascii c in
  (if (65 <=? n) && (n <=? 90) then 1 else 0)%N.

Fixpoint weights (s : string) : list (N * N) :=
  match s with
  | EmptyString => []
  | String c s' =>
      match primary c with
      | Some p => (p, tertiary c) :: weights s'
      | None => weights s'
      end
  end.

Fixpoint lex (l1 l2 : list N) : comparison :=
  match l1, l2 with
  | [], [] => Eq
  | [], _ :: _ => Lt
  | _ :: _, [] => Gt
  | a :: r1, b :: r2 =>
      match (a ?= b)%N with
      | Eq => lex r1 r2
      | c => c
      end
  end.

Definition compare (a b : string) : comparison :=
  let wa := weights a in
  let wb := weights b in
  match lex (map fst wa) (map fst wb) with
  | Eq => lex (map snd wa) (map snd wb)
  | c => c
  end.

(** [a.localeCompare(b)]. *)
Definition localeCompare (a b : string) : Z :=
  match compare a b with
  | Lt => -1
  | Eq => 0
  | Gt => 1
  end.

End Collation.

(** ** The function node's environment *)

(** What a run reports through [node]: a warning, an error, a status. *)
Inductive event : Type :=
| Warn (message : string)
| Error (message : string)
| Status (fill shape text : string).

(** The result of a run: the events in order, and the payload of the
    returned message, [None] when the script returns [null]. *)
Record outcome : Type := {
  events : list event;
  returned : option value
}.

Definition newline : string := String (ascii_of_nat 10) EmptyString.

(** ** The code both scripts declare, word for word the same *)

Module Common.
Import JS.

(** A schema entry's [type]: ['float'] or ['int']. *)
Inductive field_type : Type := TFloat | TInt.

(** [{ type, source?, convert? }]. *)
Record field_config : Type := {
  type : field_type;
  source : option string;
  convert : option (value -> completion value)
}.

Definition schema : Type := list (string * field_config).

(** The [fields] object: [{ value, type }] per field name. *)
Definition field_set : Type := list (string * (value * field_type)).

Definition Float_ (c : option (value -> completion value)) : field_config :=
  {| type := TFloat; source := None; convert := c |}.

Definition Int_ : field_config :=
  {| type := TInt; source := None; convert := None |}.

(** [+s] on a string. *)
Definition unary_plus (s : string) : value :=
  Number (JSString.StringToNumber s).

Definition fahrenheitToCelsius (f : value) : completion value :=
  if negb (is_nullish f) then
    x <- ToNumber f ;;
    s <- toFixed ((x - 32) * 5 / 9)%float 1 ;;
    Normal (unary_plus s)
  else Normal Null.

Definition escapeTagValue (v : value) : completion string :=
  s <- ToString v ;;
  Normal (JSString.replace_all " " "\ "
            (JSString.replace_all "=" "\="
               (JSString.replace_all "," "\,"
                  (JSString.replace_all "\" "\\" s)))).

(** [config.source || fieldName]. *)
Definition source_key (fieldName : string) (config : field_config)
  : string :=
  match source config with
  | Some s => if String.eqb s "" then fieldName else s
  | None => fieldName
  end.

(** The body of the loop of [buildFields], over the entries that remain. *)
Fixpoint buildFields_loop (src : value) (entries : schema)
  (fields : field_set) : completion field_set :=
  match entries with
  | [] => Normal fields
  | (fieldName, config) :: rest =>
      v <- get_prop src (source_key fieldName config) ;;
      if is_nullish v then buildFields_loop src rest fields
      else
        v' <- match convert config with
              | Some f => f v
              | None => Normal v
              end ;;
        if is_nullish v' || Number_isNaN v' then
          buildFields_loop src rest fields
        else
          buildFields_loop src rest
            (assign fieldName (v', type config) fields)
  end.

Definition buildFields (src : value) (sch : schema)
  : completion field_set :=
  buildFields_loop src sch [].

(** [([k, v]) => `${k}=${escapeTagValue(v)}`]. *)
Definition tag_pair (kv : string * value) : completion string :=
  e <- escapeTagValue (snd kv) ;;
  Normal (fst kv ++ "=" ++ e).

(** The callback of the field section: [`${k}=${Math.floor(value)}i`] for
    an ['int'], [`${k}=${value}`] otherwise. *)
Definition field_pair (kf : string * (value * field_type))
  : completion string :=
  let '(k, (v, t)) := kf in
  match t with
  | TInt =>
      x <- ToNumber v ;;
      Normal (k ++ "=" ++ JSNumber.toString (JSNumber.Math_floor x) ++ "i")
  | TFloat =>
      s <- ToString v ;;
      Normal (k ++ "=" ++ s)
  end.

Definition tag_string (tags : list (string * value)) : completion string :=
  parts <- Array_map tag_pair
             (Array_sort
                (fun a b => Collation.localeCompare (fst a) (fst b))
                (filter (fun kv => negb (is_nullish (snd kv))) tags)) ;;
  Normal (JSString.join "," parts).

Definition field_string (fields : field_set) : completion string :=
  parts <- Array_map field_pair fields ;;
  Normal (JSString.join "," parts).

(** [toLineProtocol]; [None] is its [null].  Both sections are built
    before the field section is tested. *)
Definition toLineProtocol (measurement : string)
  (tags : list (string * value)) (fields : field_set) (ts : float)
  : completion (option string) :=
  tagStr <- tag_string tags ;;
  fieldStr <- field_string fields ;;
  if String.eqb fieldStr "" then Normal None
  else Normal (Some (measurement ++ "," ++ tagStr ++ " " ++ fieldStr ++ " "
                     ++ JSNumber.toString ts)).

Definition warn_null (message : string) : outcome :=
  {| events := [Warn message]; returned := None |}.

End Common.

(** ** The WeatherLink Live script *)

Module WeatherLink.
Import JS Common.

Record category : Type := {
  measurement : string;
  tags : list (string * value)
}.

Record config : Type := {
  rainCupSizeMm : float;
  outdoor : category;
  indoor : category;
  barometer : category
}.

Definition CONFIG : config := {|
  rainCupSizeMm := 0.2;
  outdoor := {|
    measurement := "outdoor_conditions";
    tags := [("source", Str "davis"); ("location", Str "outside");
             ("friendly_name", Str "Davis Outdoor ISS")] |};
  indoor := {|
    measurement := "indoor_conditions";
    tags := [("source", Str "davis"); ("location", Str "indoor");
             ("friendly_name", Str "Davis Indoor Console")] |};
  barometer := {|
    measurement := "barometer";
    tags := [("source", Str "davis"); ("location", Str "indoor");
             ("friendly_name", Str "Davis Barometer")] |}
|}.

Definition fahrenheitToCelsius := Common.fahrenheitToCelsius.

Definition inHgToHPa (inHg : value) : completion value :=
  if negb (is_nullish inHg) then
    x <- ToNumber inHg ;;
    s <- toFixed (x * 33.8639)%float 1 ;;
    Normal (unary_plus s)
  else Normal Null.

Definition inHgToHPaTrend (inHg : value) : completion value :=
  if negb (is_nullish inHg) then
    x <- ToNumber inHg ;;
    s <- toFixed (x * 33.8639)%float 3 ;;
    Normal (unary_plus s)
  else Normal Null.

Definition mphToMs (mph : value) : completion value :=
  if negb (is_nullish mph) then
    x <- ToNumber mph ;;
    s <- toFixed (x * 0.44704)%float 2 ;;
    Normal (unary_plus s)
  else Normal Null.

Definition tipsToMm (tips : value) : completion value :=
  if negb (is_nullish tips) then
    x <- ToNumber tips ;;
    s <- toFixed (x * rainCupSizeMm CONFIG)%float 1 ;;
    Normal (unary_plus s)
  else Normal Null.

Definition OUTDOOR_SCHEMA : schema := [
  ("temp", Float_ (Some fahrenheitToCelsius));
  ("hum", Float_ None);
  ("dew_point", Float_ (Some fahrenheitToCelsius));
  ("wet_bulb", Float_ (Some fahrenheitToCelsius));
  ("heat_index", Float_ (Some fahrenheitToCelsius));
  ("wind_chill", Float_ (Some fahrenheitToCelsius));
  ("thw_index", Float_ (Some fahrenheitToCelsius));
  ("thsw_index", Float_ (Some fahrenheitToCelsius));
  ("wind_speed_last", Float_ (Some mphToMs));
  ("wind_speed_avg_last_1_min", Float_ (Some mphToMs));
  ("wind_speed_avg_last_2_min", Float_ (Some mphToMs));
  ("wind_speed_hi_last_2_min", Float_ (Some mphToMs));
  ("wind_speed_avg_last_10_min", Float_ (Some mphToMs));
  ("wind_speed_hi_last_10_min", Float_ (Some mphToMs));
  ("wind_dir_last", Int_);
  ("wind_dir_scalar_avg_last_1_min", Int_);
  ("wind_dir_scalar_avg_last_2_min", Int_);
  ("wind_dir_at_hi_speed_last_2_min", Int_);
  ("wind_dir_scalar_avg_last_10_min", Int_);
  ("wind_dir_at_hi_speed_last_10_min", Int_);
  ("rain_rate_last", Float_ (Some tipsToMm));
  ("rain_rate_hi", Float_ (Some tipsToMm));
  ("rainfall_last_15_min", Float_ (Some tipsToMm));
  ("rain_rate_hi_last_15_min", Float_ (Some tipsToMm));
  ("rainfall_last_60_min", Float_ (Some tipsToMm));
  ("rainfall_last_24_hr", Float_ (Some tipsToMm));
  ("rainfall_daily", Float_ (Some tipsToMm));
  ("rainfall_monthly", Float_ (Some tipsToMm));
  ("rainfall_year", Float_ (Some tipsToMm));
  ("rain_storm", Float_ (Some tipsToMm));
  ("rain_storm_last", Float_ (Some tipsToMm));
  ("solar_rad", Int_);
  ("uv_index", Float_ None)
].

Definition INDOOR_SCHEMA : schema := [
  ("temp_in", Float_ (Some fahrenheitToCelsius));
  ("hum_in", Float_ None);
  ("dew_point_in", Float_ (Some fahrenheitToCelsius));
  ("heat_index_in", Float_ (Some fahrenheitToCelsius))
].

Definition BAROMETER_SCHEMA : schema := [
  ("bar_sea_level", Float_ (Some inHgToHPa));
  ("bar_absolute", Float_ (Some inHgToHPa));
  ("bar_trend", Float_ (Some inHgToHPaTrend))
].

(** [c => c.data_structure_type === 1 && c.txid === 1]. *)
Definition is_outdoor (c : value) : completion bool :=
  t <- get_prop c "data_structure_type" ;;
  if strict_eq_number t 1 then
    x <- get_prop c "txid" ;; Normal (strict_eq_number x 1)
  else Normal false.

(** [c => c.data_structure_type === n]. *)
Definition has_type (n : float) (c : value) : completion bool :=
  t <- get_prop c "data_structure_type" ;; Normal (strict_eq_number t n).

(** [if (line) lines.push(line)]. *)
Definition push_line (line : option string) (lines : list string)
  : list string :=
  match line with
  | Some l => if String.eqb l "" then lines else (lines ++ [l])%list
  | None => lines
  end.

(** The tags of the outdoor record:
    [{ ...CONFIG.outdoor.tags, sensor_id: data.did || 'unknown' }]. *)
Definition outdoor_tags (data : value) : list (string * value) :=
  assign "sensor_id" (or_else (get data "did") (Str "unknown"))
    (tags (outdoor CONFIG)).

(** One block of the dispatch: [if (block) { ... lines.push(line) }]. *)
Definition emit (block : value) (sch : schema) (m : string)
  (tg : list (string * value)) (timestamp : float) (lines : list string)
  : completion (list string) :=
  if ToBoolean block then
    fields <- buildFields block sch ;;
    line <- toLineProtocol m tg fields timestamp ;;
    Normal (push_line line lines)
  else Normal lines.

(** The script from [const payload = msg.payload] on. *)
Definition main (payload : value) : completion outcome :=
  if negb (ToBoolean (get_opt (get_opt payload "data") "ts"))
     || negb (ToBoolean (get_opt (get_opt payload "data") "conditions"))
  then Normal (warn_null "Invalid payload structure")
  else
    data <- get_prop payload "data" ;;
    ts <- get_prop data "ts" ;;
    t <- ToNumber ts ;;
    let timestamp := (t * 1000000000)%float in
    conditions <- get_prop data "conditions" ;;
    outdoor_block <- Array_find conditions is_outdoor ;;
    indoor_block <- Array_find conditions (has_type 4) ;;
    bar <- Array_find conditions (has_type 3) ;;
    lines <- emit outdoor_block OUTDOOR_SCHEMA (measurement (outdoor CONFIG))
               (outdoor_tags data) timestamp [] ;;
    lines <- emit indoor_block INDOOR_SCHEMA (measurement (indoor CONFIG))
               (tags (indoor CONFIG)) timestamp lines ;;
    lines <- emit bar BAROMETER_SCHEMA (measurement (barometer CONFIG))
               (tags (barometer CONFIG)) timestamp lines ;;
    if (JSString.len lines =? 0)%Z then
      Normal (warn_null "No valid data points")
    else
      Normal {|
        events := [Status "green" "dot"
                     (JSNumber.toString (JSNumber.of_Z (JSString.len lines))
                      ++ " points")];
        returned := Some (Str (JSString.join newline lines)) |}.

(** The whole script; [JSON_parse] is the host's [JSON.parse]. *)
Definition script (JSON_parse : string -> completion value)
  (msg_payload : value) : completion outcome :=
  match msg_payload with
  | Str text =>
      match JSON_parse text with
      | Normal parsed => main parsed
      | Throw e =>
          Normal {| events := [Error ("JSON parsing error: " ++
                                      match e with
                                      | TypeError m | RangeError m
                                      | SyntaxError m => m
                                      end)];
                    returned := None |}
      end
  | _ => main msg_payload
  end.

End WeatherLink.

(** ** The AirLink script, [airlink.js] *)

Module AirLink.
Import JS Common.

Record config : Type := {
  measurement : string;
  tags : list (string * value)
}.

Definition CONFIG : config := {|
  measurement := "air_quality";
  tags := [("source", Str "davis_airlink"); ("location", Str "outside");
           ("friendly_name", Str "Davis AirLink")]
|}.

Definition fahrenheitToCelsius := Common.fahrenheitToCelsius.

Definition FIELD_SCHEMA : schema := [
  ("temp", Float_ (Some fahrenheitToCelsius));
  ("hum", Float_ None);
  ("dew_point", Float_ (Some fahrenheitToCelsius));
  ("heat_index", Float_ (Some fahrenheitToCelsius));
  ("wet_bulb", Float_ (Some fahrenheitToCelsius));
  ("pm_1", Float_ None);
  ("pm_2p5", Float_ None);
  ("pm_2p5_last_1_hour", Float_ None);
  ("pm_2p5_last_3_hours", Float_ None);
  ("pm_2p5_last_24_hours", Float_ None);
  ("pm_2p5_nowcast", Float_ None);
  ("pm_10", Float_ None);
  ("pm_10_last_1_hour", Float_ None);
  ("pm_10_last_3_hours", Float_ None);
  ("pm_10_last_24_hours", Float_ None);
  ("pm_10_nowcast", Float_ None);
  ("pm_1_last", Int_);
  ("pm_2p5_last", Int_);
  ("pm_10_last", Int_);
  ("pct_pm_data_last_1_hour", Int_);
  ("pct_pm_data_last_3_hours", Int_);
  ("pct_pm_data_last_24_hours", Int_);
  ("pct_pm_data_nowcast", Int_)
].

(** [!payload?.data?.ts || !payload?.data?.conditions?.[0] ||
    payload.data.conditions[0].data_structure_type !== 6], the last
    disjunct evaluated only when the first two are false. *)
Definition invalid (payload : value) : completion bool :=
  if negb (ToBoolean (get_opt (get_opt payload "data") "ts")) then
    Normal true
  else if negb (ToBoolean
                  (get_opt (get_opt (get_opt payload "data") "conditions")
                     "0")) then
    Normal true
  else
    d <- get_prop payload "data" ;;
    c <- get_prop d "conditions" ;;
    c0 <- get_prop c "0" ;;
    t <- get_prop c0 "data_structure_type" ;;
    Normal (negb (strict_eq_number t 6)).

(** [{ ...CONFIG.tags, sensor_id: data.did || 'unknown' }]. *)
Definition build_tags (data : value) : list (string * value) :=
  assign "sensor_id" (or_else (get data "did") (Str "unknown"))
    (tags CONFIG).

(** The script from [const payload = msg.payload] on. *)
Definition main (payload : value) : completion outcome :=
  bad <- invalid payload ;;
  if bad then Normal (warn_null "Invalid AirLink JSON structure - skipped")
  else
    data <- get_prop payload "data" ;;
    conditions <- get_prop data "conditions" ;;
    air <- get_prop conditions "0" ;;
    ts <- get_prop data "ts" ;;
    t <- ToNumber ts ;;
    let timestamp := (t * 1000000000)%float in
    let tg := build_tags data in
    fields <- buildFields air FIELD_SCHEMA ;;
    if (JSString.len fields =? 0)%Z then
      Normal {| events := [Warn "No valid data to write";
                           Status "red" "ring" "No data"];
                returned := None |}
    else
      line <- toLineProtocol (measurement CONFIG) tg fields timestamp ;;
      Normal {|
        events := [Status "green" "dot" "AirLink OK"];
        returned :=
          Some match line with
               | Some l => Str l
               | None => Null
               end |}.

(** The whole script; [JSON_parse] is the host's [JSON.parse]. *)
Definition script (JSON_parse : string -> completion value)
  (msg_payload : value) : completion outcome :=
  match msg_payload with
  | Str text =>
      match JSON_parse text with
      | Normal parsed => main parsed
      | Throw e =>
          Normal {| events := [Error ("JSON parsing error: " ++
                                      match e with
                                      | TypeError m | RangeError m
                                      | SyntaxError m => m
                                      end)];
                    returned := None |}
      end
  | _ => main msg_payload
  end.

End AirLink.

(** ** Definitions the statements below use *)

Module Props.
Import JS Common.

(** The five converters of the WeatherLink script and the one of
    [airlink.js]. *)
Definition converters : list (value -> completion value) :=
  [WeatherLink.fahrenheitToCelsius; WeatherLink.inHgToHPa;
   WeatherLink.inHgToHPaTrend; WeatherLink.mphToMs; WeatherLink.tipsToMm;
   AirLink.fahrenheitToCelsius].

(** A value that converts to a primitive: any value but an object with
    an own [toString] property, and but an array that holds, its null and
    undefined elements apart, a value that does not convert. *)
Fixpoint convertible (v : value) : bool :=
  match v with
  | Array elems =>
      forallb (fun e => is_nullish e || convertible e) elems
  | Object props =>
      match lookup "toString" props with
      | Some _ => false
      | None => true
      end
  | _ => true
  end.

(** The string an array joins for an element. *)
Definition element_text (e : value) : completion string :=
  if is_nullish e then Normal "" else ToString e.

(** A converter that returns on every value that converts to a
    primitive. *)
Definition returns_on_convertible (f : value -> completion value) : Prop :=
  forall v, convertible v = true -> exists r, f v = Normal r.

(** A converter that raises the TypeError of the conversion on every
    other value. *)
Definition raises_on_unconvertible (f : value -> completion value) : Prop :=
  forall v, convertible v = false -> f v = Throw cannot_convert.

(** [null] in and absent in give [null] out; any other value that
    converts to a primitive gives a Number. *)
Definition propagates_null (f : value -> completion value) : Prop :=
  f Null = Normal Null /\ f Undefined = Normal Null /\
  forall v, is_nullish v = false -> convertible v = true ->
            exists x, f v = Normal (Number x).

(** An object that does not convert to a primitive, and an array that
    holds one. *)
Definition unconvertible_object : value :=
  Object [("toString", Number 1)].

Definition unconvertible_array : value :=
  Array [Number 1; Object [("toString", Null)]].

(** The value a schema entry is given: the source value, through the
    entry's converter when it has one. *)
Definition converted (src : value) (fieldName : string)
  (config : field_config) : completion value :=
  let v := get src (source_key fieldName config) in
  match convert config with
  | Some f => f v
  | None => Normal v
  end.

(** The three reasons to leave a field out: the source value is absent or
    null, the converter's output is null, the resulting value is NaN. *)
Definition omitted (src : value) (fieldName : string)
  (config : field_config) : Prop :=
  is_nullish (get src (source_key fieldName config)) = true
  \/ exists v', converted src fieldName config = Normal v'
                /\ (is_nullish v' = true \/ Number_isNaN v' = true).

(** The converters of a schema return on the values that convert to a
    primitive. *)
Definition converters_return (sch : schema) : Prop :=
  Forall (fun entry =>
            match convert (snd entry) with
            | Some f => returns_on_convertible f
            | None => True
            end) sch.

(** The values a sub-report holds for the entries of a schema that have a
    converter convert to a primitive. *)
Definition convertible_sources (src : value) (sch : schema) : Prop :=
  Forall (fun entry =>
            match convert (snd entry) with
            | Some _ =>
                convertible (get src (source_key (fst entry) (snd entry)))
                = true
            | None => True
            end) sch.

(** A sub-report whose temperature is an object that does not convert to
    a primitive. *)
Definition sample_unconvertible : value :=
  Object [("temp", unconvertible_object); ("hum", Number 50)].

(** The names the field section of a line is written from, in order. *)
Definition encoded_names (fields : field_set) : list string :=
  map fst fields.

Fixpoint mem (s : string) (l : list string) : bool :=
  match l with
  | [] => false
  | x :: rest => String.eqb x s || mem s rest
  end.

Fixpoint distinct (l : list string) : bool :=
  match l with
  | [] => true
  | x :: rest => negb (mem x rest) && distinct rest
  end.

(** An outdoor sub-report with a null, a malformed and an absent field. *)
Definition sample_outdoor : value :=
  Object [("data_structure_type", Number 1); ("txid", Number 1);
          ("temp", Number 32); ("hum", Number 50); ("dew_point", Null);
          ("wet_bulb", Str "n/a"); ("wind_dir_last", Number 180.9)].

(** The escape of one character of a tag value: a backslash before a
    backslash, a comma, an equals sign and a space. *)
Definition escape_char (c : ascii) : string :=
  if Ascii.eqb c "\" || Ascii.eqb c "," || Ascii.eqb c "=" || Ascii.eqb c " "
  then String "\" (String c EmptyString)
  else String c EmptyString.

Fixpoint escape_chars (s : string) : string :=
  match s with
  | EmptyString => EmptyString
  | String c s' => escape_char c ++ escape_chars s'
  end.

(** The order of the tags in a line: [a] may stand before [b]. *)
Definition by_locale (a b : string * value) : Prop :=
  Collation.localeCompare (fst a) (fst b) <= 0.

(** A key of lower-case letters and underscores only, as the keys of the
    configured tags are. *)
Fixpoint plain_key (s : string) : bool :=
  match s with
  | EmptyString => true
  | String c s' =>
      let n := N_of_ascii c in
      ((n =? 95) || (97 <=? n) && (n <=? 122))%N && plain_key s'
  end.

(** The sign of a number: set for the negative numbers and for [-0]. *)
Definition sign_bit (x : float) : bool :=
  match JSNumber.to_ratio x with
  | Some (s, _, _) => s
  | None => get_sign x
  end.

(** The value of the [sensor_id] tag the scripts build from [data.did]. *)
Definition sensor_id_of (did : value) : value :=
  if ToBoolean did then did else Str "unknown".

(** The parts of the payload the scripts read. *)
Definition ts_of (payload : value) : value :=
  get_opt (get_opt payload "data") "ts".

Definition conditions_of (payload : value) : value :=
  get_opt (get_opt payload "data") "conditions".

Definition first_condition (payload : value) : value :=
  get_opt (conditions_of payload) "0".

(** A value that is missing, or present and falsy. *)
Definition falsy (v : value) : Prop := ToBoolean v = false.

(** The block found for a category adds no line: no block is found, or
    its extraction is empty and its tag section is built. *)
Definition contributes_nothing (found : completion value) (sch : schema)
  (tg : list (string * value)) : Prop :=
  exists block,
    found = Normal block
    /\ (ToBoolean block = false
        \/ (buildFields block sch = Normal []
            /\ exists t, tag_string tg = Normal t)).

(** Every property of a value converts to a primitive: the properties of
    an object, the elements of an array. *)
Definition convertible_properties (v : value) : bool :=
  match v with
  | Object props => forallb (fun kv => convertible (snd kv)) props
  | Array elems => forallb convertible elems
  | _ => true
  end.

(** The converters of a schema are converters of the scripts. *)
Definition known_converters (sch : schema) : Prop :=
  Forall (fun entry =>
            match convert (snd entry) with
            | Some f => In f converters
            | None => True
            end) sch.

(** The message of a run of the AirLink script that writes [line]. *)
Definition airlink_ok (line : string) : outcome :=
  {| events := [Status "green" "dot" "AirLink OK"];
     returned := Some (Str line) |}.

(** The message of a run of the WeatherLink script that writes
    [lines]. *)
Definition weatherlink_ok (lines : list string) : outcome :=
  {| events := [Status "green" "dot"
                  (JSNumber.toString (JSNumber.of_Z (JSString.len lines))
                   ++ " points")];
     returned := Some (Str (JSString.join newline lines)) |}.

(** The outcomes of the scripts that report a problem. *)
Definition invalid_payload : outcome :=
  warn_null "Invalid payload structure".

Definition invalid_airlink : outcome :=
  warn_null "Invalid AirLink JSON structure - skipped".

Definition no_valid_data_points : outcome :=
  warn_null "No valid data points".

Definition no_valid_data_to_write : outcome :=
  {| events := [Warn "No valid data to write";
                Status "red" "ring" "No data"];
     returned := None |}.

(** A reading at the epoch with one outdoor sub-report. *)
Definition sample_epoch_payload : value :=
  Object [("data", Object [("did", Str "001D0A714F02"); ("ts", Number 0);
                            ("conditions", Array [sample_outdoor])])].

(** An AirLink reading whose device id is the empty string. *)
Definition sample_airlink_payload : value :=
  Object [("data",
           Object [("did", Str ""); ("ts", Number 1700000000);
                   ("conditions",
                    Array [Object [("data_structure_type", Number 6);
                                   ("hum", Number 50)]])])].

(** A reading whose only sub-report is of another transmitter. *)
Definition sample_no_match_payload : value :=
  Object [("data",
           Object [("did", Str "001D0A714F02"); ("ts", Number 1700000000);
                   ("conditions",
                    Array [Object [("data_structure_type", Number 1);
                                   ("txid", Number 2);
                                   ("temp", Number 32)]])])].

(** An AirLink reading whose sub-report has no value for any field. *)
Definition sample_airlink_empty : value :=
  Object [("data",
           Object [("ts", Number 1700000000);
                   ("conditions",
                    Array [Object [("data_structure_type", Number 6);
                                   ("temp", Null)]])])].

(** What the loop adds for the entries it is given: nothing for an omitted
    entry, the converted value under the entry's name for any other. *)
Definition resolved (src : value) (kept : field_set)
  (entry : string * field_config) : Prop :=
  let '(name, config) := entry in
  (omitted src name config /\ ~ In name (map fst kept))
  \/ (exists v', converted src name config = Normal v'
                 /\ ~ omitted src name config
                 /\ In (name, (v', type config)) kept).

(** The reading behind the outdoor line of the README's output example. *)
Definition readme_payload : value :=
  Object [("data",
           Object [("did", Str "001D0A714F02"); ("ts", Number 1767276499);
                   ("conditions",
                    Array [Object [("lsid", Number 48308);
                                   ("data_structure_type", Number 1);
                                   ("txid", Number 1);
                                   ("temp", Number 32.9);
                                   ("hum", Number 75.5);
                                   ("dew_point", Number 26.1);
                                   ("wet_bulb", Null);
                                   ("wind_speed_last", Number 6);
                                   ("wind_dir_last", Number 180);
                                   ("solar_rad", Number 46);
                                   ("uv_index", Number 0.3)]])])].

(** A reading with an indoor sub-report and no outdoor one. *)
Definition sample_indoor_only : value :=
  Object [("data",
           Object [("ts", Number 1700000000);
                   ("conditions",
                    Array [Object [("data_structure_type", Number 4);
                                   ("temp_in", Number 72.3)]])])].

End Props.

(** ** Further definitions: what the remaining statements use *)

Module More.
Import JS Common Props.

(** [l1] is [l2] with some elements left out, the others in their order. *)
Inductive in_order {A : Type} : list A -> list A -> Prop :=
| in_order_nil : in_order [] []
| in_order_skip (x : A) (l1 l2 : list A) :
    in_order l1 l2 -> in_order l1 (x :: l2)
| in_order_take (x : A) (l1 l2 : list A) :
    in_order l1 l2 -> in_order (x :: l1) (x :: l2).

(** Two sub-reports that read the same under every source key of a
    schema. *)
Definition agree_on (sch : schema) (src1 src2 : value) : Prop :=
  forall name config,
    In (name, config) sch ->
    get src1 (source_key name config) = get src2 (source_key name config).

(** The line [toLineProtocol] assembles. *)
Definition line_of (m : string) (tg : list (string * value))
  (fields : field_set) (ts : float) : completion string :=
  t <- tag_string tg ;;
  f <- field_string fields ;;
  Normal (m ++ "," ++ t ++ " " ++ f ++ " " ++ JSNumber.toString ts).

(** The characters that end a tag value in a line: comma, equals sign and
    space. *)
Definition is_separator (c : ascii) : bool :=
  Ascii.eqb c "," || Ascii.eqb c "=" || Ascii.eqb c " ".

(** Reading an escaped tag value back: a backslash gives way to the
    character it stands before. *)
Fixpoint unescape (s : string) : string :=
  match s with
  | EmptyString => EmptyString
  | String c s' =>
      if Ascii.eqb c "\" then
        match s' with
        | String d s'' => String d (unescape s'')
        | EmptyString => String c EmptyString
        end
      else String c (unescape s')
  end.

(** No separator stands bare in [s]: each follows a backslash, and each
    backslash stands before a backslash or a separator. *)
Fixpoint separators_escaped (s : string) : bool :=
  match s with
  | EmptyString => true
  | String c s' =>
      if Ascii.eqb c "\" then
        match s' with
        | String d s'' =>
            (Ascii.eqb d "\" || is_separator d) && separators_escaped s''
        | EmptyString => false
        end
      else negb (is_separator c) && separators_escaped s'
  end.

(** The message of an exception. *)
Definition message_of (e : error) : string :=
  match e with
  | TypeError m | RangeError m | SyntaxError m => m
  end.

(** The outcome of a payload that is no JSON. *)
Definition parse_failure (e : error) : outcome :=
  {| events := [Error ("JSON parsing error: " ++ message_of e)];
     returned := None |}.

Definition is_array (v : value) : bool :=
  match v with
  | Array _ => true
  | _ => false
  end.

(** A search with [pred] meets a null or undefined element before any
    element that matches. *)
Definition stops_at_null (pred : value -> completion bool)
  (elems : list value) : Prop :=
  exists l1 c l2,
    elems = (l1 ++ c :: l2)%list
    /\ is_nullish c = true
    /\ Forall (fun x => pred x = Normal false) l1.

(** What a category writes: nothing, or the one line of the block found
    for it. *)
Definition written (found : completion value) (sch : schema) (m : string)
  (tg : list (string * value)) (ts : float) (l : list string) : Prop :=
  l = []
  \/ exists block fields line,
       found = Normal block /\ ToBoolean block = true
       /\ buildFields block sch = Normal fields /\ fields <> []
       /\ line_of m tg fields ts = Normal line
       /\ l = [line].

(** Two AirLink readings that differ in their second sub-report only. *)
Definition airlink_one : value :=
  Object [("data",
           Object [("did", Str "001D0A100805"); ("ts", Number 1700000000);
                   ("conditions",
                    Array [Object [("data_structure_type", Number 6);
                                   ("hum", Number 50)]])])].

Definition airlink_two : value :=
  Object [("data",
           Object [("did", Str "001D0A100805"); ("ts", Number 1700000000);
                   ("conditions",
                    Array [Object [("data_structure_type", Number 6);
                                   ("hum", Number 50)];
                           Object [("data_structure_type", Number 6);
                                   ("hum", Number 90)]])])].

(** A predicate that reads a property of the element: it raises on null
    and undefined and on nothing else. *)
Definition reads_element (pred : value -> completion bool) : Prop :=
  forall c,
    if is_nullish c then exists e, pred c = Throw e
    else exists b, pred c = Normal b.

End More.

(** ** Conversion to a primitive *)

Section Coercions.
Import JS Common Props.

Lemma value_nested_ind (P : value -> Prop) :
  P Undefined -> P Null -> (forall b, P (Bool b)) ->
  (forall x, P (Number x)) -> (forall s, P (Str s)) ->
  (forall elems, Forall P elems -> P (Array elems)) ->
  (forall props, P (Object props)) ->
  forall v, P v.
Proof.
  intros HU HN HB HX HS HA HO. fix IH 1.
  intros [| |b|x|s|elems|props];
    [exact HU | exact HN | apply HB | apply HX | apply HS | | apply HO].
  apply HA. induction elems as [|e l IHl]; constructor;
    [apply IH | exact IHl].
Qed.

Lemma ToString_Array (elems : list value) :
  ToString (Array elems) =
  (parts <- Array_map element_text elems ;;
   Normal (JSString.join "," parts)).
Proof.
  cbn [ToString]. f_equal.
  induction elems as [|e l IH]; [reflexivity|].
  cbn [Array_map]. unfold element_text at 1. now rewrite IH.
Qed.

Lemma ToString_cases (v : value) :
  if convertible v then exists s, ToString v = Normal s
  else ToString v = Throw cannot_convert.
Proof.
  induction v as [| |b|x|s|elems IH|props] using value_nested_ind;
    cbn [convertible]; try (eexists; reflexivity).
  - destruct b; eexists; reflexivity.
  - rewrite ToString_Array.
    assert (H : if forallb (fun e => is_nullish e || convertible e) elems
                then exists parts, Array_map element_text elems = Normal parts
                else Array_map element_text elems = Throw cannot_convert).
    { induction IH as [|e l He _ IHl]; [simpl; eauto|].
      cbn [forallb Array_map]. unfold element_text at 1 3.
      destruct (is_nullish e); cbn [orb andb bind].
      - destruct (forallb _ l).
        + destruct IHl as [parts ->]. cbn [bind]. eauto.
        + rewrite IHl. reflexivity.
      - destruct (convertible e); cbn [andb].
        + destruct He as [t ->]. cbn [bind]. destruct (forallb _ l).
          * destruct IHl as [parts ->]. cbn [bind]. eauto.
          * rewrite IHl. reflexivity.
        + rewrite He. reflexivity. }
    destruct (forallb _ elems).
    + destruct H as [parts ->]. cbn [bind]. eauto.
    + rewrite H. reflexivity.
  - cbn [ToString]. destruct (lookup "toString" props); eauto.
Qed.

Lemma ToNumber_cases (v : value) :
  if convertible v then exists x, ToNumber v = Normal x
  else ToNumber v = Throw cannot_convert.
Proof.
  pose proof (ToString_cases v) as H.
  destruct v as [| |b|x|s|elems|props]; cbn [convertible ToNumber] in *;
    eauto.
  - destruct b; eauto.
  - destruct (forallb _ elems).
    + destruct H as [t ->]. cbn [bind]. eauto.
    + rewrite H. reflexivity.
  - destruct (lookup "toString" props).
    + rewrite H. reflexivity.
    + destruct H as [t ->]. cbn [bind]. eauto.
Qed.

Lemma ToString_returns (v : value) :
  convertible v = true -> exists s, ToString v = Normal s.
Proof.
  intros H. pose proof (ToString_cases v) as Hc. now rewrite H in Hc.
Qed.

Lemma ToNumber_returns (v : value) :
  convertible v = true -> exists x, ToNumber v = Normal x.
Proof.
  intros H. pose proof (ToNumber_cases v) as Hc. now rewrite H in Hc.
Qed.

Lemma ToString_raises (v : value) :
  convertible v = false -> ToString v = Throw cannot_convert.
Proof.
  intros H. pose proof (ToString_cases v) as Hc. now rewrite H in Hc.
Qed.

Lemma ToNumber_raises (v : value) :
  convertible v = false -> ToNumber v = Throw cannot_convert.
Proof.
  intros H. pose proof (ToNumber_cases v) as Hc. now rewrite H in Hc.
Qed.

Lemma ToString_Normal_convertible (v : value) (s : string) :
  ToString v = Normal s -> convertible v = true.
Proof.
  intros H. pose proof (ToString_cases v) as Hc.
  destruct (convertible v); [reflexivity | congruence].
Qed.

Lemma ToNumber_Normal_convertible (v : value) (x : float) :
  ToNumber v = Normal x -> convertible v = true.
Proof.
  intros H. pose proof (ToNumber_cases v) as Hc.
  destruct (convertible v); [reflexivity | congruence].
Qed.

Lemma unconvertible_not_nullish (v : value) :
  convertible v = false -> is_nullish v = false.
Proof.
  destruct v; simpl; congruence.
Qed.

End Coercions.

(** ** The unit converters *)

Section Converters.
Import JS Common Props.

Lemma toFixed_in_range (x : float) (f : Z) :
  0 <= f <= 100 -> toFixed x f = Normal (JSNumber.toFixed_digits x f).
Proof.
  intros [Hlo Hhi]. unfold toFixed.
  destruct (f <? 0) eqn:E1; [apply Z.ltb_lt in E1; lia|].
  destruct (100 <? f) eqn:E2; [apply Z.ltb_lt in E2; lia|].
  reflexivity.
Qed.

(** Every converter has one shape: [null] for [null] and [undefined],
    otherwise a Number computed from the Number the input converts to. *)
Lemma converter_shape (f : value -> completion value) :
  In f converters ->
  exists g : float -> float,
    forall v,
      f v = if is_nullish v then Normal Null
            else x <- ToNumber v ;; Normal (Number (g x)).
Proof.
  unfold converters. cbn [In].
  intros [<-|[<-|[<-|[<-|[<-|[<-|[]]]]]]];
    unfold WeatherLink.fahrenheitToCelsius, AirLink.fahrenheitToCelsius,
      Common.fahrenheitToCelsius, WeatherLink.inHgToHPa,
      WeatherLink.inHgToHPaTrend, WeatherLink.mphToMs, WeatherLink.tipsToMm;
    eexists (fun x => _); intros v;
    (destruct (is_nullish v); cbn [negb]; [reflexivity|]);
    (destruct (ToNumber v) as [x|e]; cbn [bind]; [|reflexivity]);
    rewrite toFixed_in_range by lia; cbn [bind]; unfold unary_plus;
    reflexivity.
Qed.

Lemma converter_of_number (f : value -> completion value) (v : value) :
  In f converters ->
  is_nullish v = false -> convertible v = true ->
  exists x, f v = Normal (Number x).
Proof.
  intros Hf Hv Hc. destruct (converter_shape f Hf) as [g Hg].
  rewrite Hg, Hv. destruct (ToNumber_returns v Hc) as [x ->]. cbn [bind].
  eauto.
Qed.

Lemma converters_propagate_null :
  Forall propagates_null converters.
Proof.
  apply Forall_forall. intros f Hf. unfold propagates_null.
  destruct (converter_shape f Hf) as [g Hg].
  split; [now rewrite Hg|]. split; [now rewrite Hg|].
  intros v Hv Hc. now apply converter_of_number.
Qed.

Lemma converter_returns (f : value -> completion value) :
  In f converters -> returns_on_convertible f.
Proof.
  intros Hf v Hc. destruct (is_nullish v) eqn:Hv.
  - destruct (converter_shape f Hf) as [g Hg]. rewrite Hg, Hv. eauto.
  - destruct (converter_of_number f v Hf Hv Hc) as [x Hx]. eauto.
Qed.

Lemma converter_raises (f : value -> completion value) :
  In f converters -> raises_on_unconvertible f.
Proof.
  intros Hf v Hc. destruct (converter_shape f Hf) as [g Hg].
  rewrite Hg, (unconvertible_not_nullish v Hc), (ToNumber_raises v Hc).
  reflexivity.
Qed.

(** C6. Each of the unit converters (fahrenheitToCelsius, inHgToHPa,
    inHgToHPaTrend, mphToMs, tipsToMm, and the fahrenheitToCelsius of
    the AirLink script) returns null for a null input and for an absent
    (undefined) input, and a Number for every other input that converts
    to a primitive: it completes normally on every such input.  On an
    input that does not convert it raises the TypeError of the
    conversion.  The inputs that convert, those ToNumber and ToString
    return for, are null, undefined, the booleans, the Numbers, the
    strings, the objects without an own toString property, and the arrays
    whose elements, null and undefined apart, convert. *)
Theorem converters_null_in_null_out :
  Forall (fun f => propagates_null f /\ returns_on_convertible f
                   /\ raises_on_unconvertible f) converters
  /\ (forall v, convertible v = true <-> exists x, ToNumber v = Normal x)
  /\ (forall v, convertible v = true <-> exists s, ToString v = Normal s)
  /\ convertible Undefined = true /\ convertible Null = true
  /\ (forall b, convertible (Bool b) = true)
  /\ (forall x, convertible (Number x) = true)
  /\ (forall s, convertible (Str s) = true)
  /\ (forall props,
        convertible (Object props) = true
        <-> lookup "toString" props = None)
  /\ (forall elems,
        convertible (Array elems) = true
        <-> Forall (fun e => is_nullish e = true \/ convertible e = true)
              elems).
Proof.
  split.
  { apply Forall_forall. intros f Hf. split; [|split].
    - exact (proj1 (Forall_forall _ _) converters_propagate_null f Hf).
    - now apply converter_returns.
    - now apply converter_raises. }
  split.
  { intros v. split; [apply ToNumber_returns|].
    intros [x Hx]. eapply ToNumber_Normal_convertible, Hx. }
  split.
  { intros v. split; [apply ToString_returns|].
    intros [t Ht]. eapply ToString_Normal_convertible, Ht. }
  split; [reflexivity|]. split; [reflexivity|].
  split; [reflexivity|]. split; [reflexivity|]. split; [reflexivity|].
  split.
  - intros props. cbn [convertible].
    destruct (lookup "toString" props); split; congruence.
  - intros elems. cbn [convertible]. rewrite forallb_forall, Forall_forall.
    split; intros H e He; specialize (H e He).
    + now apply Bool.orb_true_iff.
    + now apply Bool.orb_true_iff.
Qed.

(** C6 at the string 50, which converts to a number. *)
Lemma converters_null_in_null_out_witness :
  is_nullish (Str "50") = false
  /\ convertible (Str "50") = true
  /\ exists x, WeatherLink.fahrenheitToCelsius (Str "50") = Normal (Number x).
Proof.
  split; [reflexivity|]. split; [reflexivity|].
  destruct (proj1 (Forall_forall _ _) (proj1 converters_null_in_null_out)
              WeatherLink.fahrenheitToCelsius (or_introl eq_refl))
    as [(_ & _ & Hn) _].
  exact (Hn (Str "50") eq_refl eq_refl).
Defined.

(** The converters at an object with an own toString property, and at an
    array that holds one: a TypeError. *)
Lemma converter_raises_on_object :
  Common.fahrenheitToCelsius unconvertible_object = Throw cannot_convert
  /\ WeatherLink.inHgToHPa unconvertible_object = Throw cannot_convert
  /\ WeatherLink.inHgToHPaTrend unconvertible_object = Throw cannot_convert
  /\ WeatherLink.mphToMs unconvertible_array = Throw cannot_convert
  /\ WeatherLink.tipsToMm unconvertible_array = Throw cannot_convert.
Proof.
  repeat split; vm_compute; reflexivity.
Qed.

(** C7. The rounded values of the converters: fahrenheitToCelsius(32) is
    0 (from the text 0.0), mphToMs(10) is 4.47, tipsToMm(1) is 0.2 with
    the default cup size 0.2, inHgToHPa(29.92) is 1013.2 (one decimal),
    and inHgToHPaTrend(29.92) is 1013.208 (three decimals: the product
    1013.207888 is printed by toFixed(3) as 1013.208). *)
Theorem converters_rounded_values :
  WeatherLink.fahrenheitToCelsius (Number 32) = Normal (Number 0)
  /\ toFixed ((32 - 32) * 5 / 9)%float 1 = Normal "0.0"
  /\ AirLink.fahrenheitToCelsius (Number 32) = Normal (Number 0)
  /\ WeatherLink.mphToMs (Number 10) = Normal (Number 4.47)
  /\ WeatherLink.rainCupSizeMm WeatherLink.CONFIG = 0.2%float
  /\ WeatherLink.tipsToMm (Number 1) = Normal (Number 0.2)
  /\ WeatherLink.inHgToHPa (Number 29.92) = Normal (Number 1013.2)
  /\ toFixed (29.92 * 33.8639)%float 1 = Normal "1013.2"
  /\ WeatherLink.inHgToHPaTrend (Number 29.92) = Normal (Number 1013.208)
  /\ toFixed (29.92 * 33.8639)%float 3 = Normal "1013.208".
Proof.
  repeat split; vm_compute; reflexivity.
Qed.

End Converters.

(** ** The field extractor *)

Section Extractor.
Import JS Common Props More.

Lemma mem_In (s : string) (l : list string) : mem s l = true <-> In s l.
Proof.
  induction l as [|x l IH]; simpl.
  - split; [discriminate | tauto].
  - rewrite Bool.orb_true_iff, String.eqb_eq, IH. tauto.
Qed.

Lemma distinct_NoDup (l : list string) : distinct l = true -> NoDup l.
Proof.
  induction l as [|x l IH]; simpl; intros H; constructor.
  - apply andb_prop in H as [H _]. intros Hin. apply mem_In in Hin.
    rewrite Hin in H. discriminate.
  - apply IH. now apply andb_prop in H as [_ H].
Qed.

Lemma lookup_None {A} (key : string) (props : list (string * A)) :
  lookup key props = None <-> ~ In key (map fst props).
Proof.
  induction props as [|[k v] rest IH]; simpl.
  - tauto.
  - destruct (String.eqb k key) eqn:E.
    + apply String.eqb_eq in E. split; [discriminate | tauto].
    + apply String.eqb_neq in E. rewrite IH. tauto.
Qed.

Lemma assign_fresh {A} (key : string) (v : A) (props : list (string * A)) :
  ~ In key (map fst props) -> assign key v props = (props ++ [(key, v)])%list.
Proof.
  induction props as [|[k w] rest IH]; simpl; intros H.
  - reflexivity.
  - destruct (String.eqb k key) eqn:E.
    + apply String.eqb_eq in E. tauto.
    + rewrite IH by tauto. reflexivity.
Qed.

Lemma in_order_refl {A} (l : list A) : in_order l l.
Proof.
  induction l; constructor; assumption.
Qed.

Lemma in_order_In {A} (l1 l2 : list A) (x : A) :
  in_order l1 l2 -> In x l1 -> In x l2.
Proof.
  induction 1; simpl; intuition.
Qed.

Lemma in_order_NoDup {A} (l1 l2 : list A) :
  in_order l1 l2 -> NoDup l2 -> NoDup l1.
Proof.
  induction 1 as [|x l1 l2 H IH|x l1 l2 H IH]; intros Hnd.
  - constructor.
  - apply IH. now inversion Hnd.
  - inversion Hnd as [|? ? Hx Hnd']; subst. constructor; [|auto].
    intros Hin. apply Hx. eapply in_order_In; eassumption.
Qed.

Lemma in_order_length {A} (l1 l2 : list A) :
  in_order l1 l2 -> (List.length l1 <= List.length l2)%nat.
Proof.
  induction 1; simpl; lia.
Qed.

(** The accumulator only stands in front: with fresh names the loop adds
    to [acc] what it adds to the empty field set. *)
Lemma buildFields_loop_acc (src : value) (entries : schema) :
  NoDup (map fst entries) ->
  forall acc,
    (forall n, In n (map fst entries) -> ~ In n (map fst acc)) ->
    buildFields_loop src entries acc =
    (kept <- buildFields_loop src entries [] ;; Normal (acc ++ kept)%list).
Proof.
  induction entries as [|[name config] rest IH]; intros Hnd acc Hfresh.
  - simpl. now rewrite app_nil_r.
  - simpl in Hnd. apply NoDup_cons_iff in Hnd as [Hnotin Hnd].
    assert (Hrest : forall n, In n (map fst rest) -> ~ In n (map fst acc)).
    { intros n Hn. apply Hfresh. simpl. auto. }
    cbn [buildFields_loop].
    destruct (get_prop src (source_key name config)) as [v|e]; cbn [bind];
      [|reflexivity].
    destruct (is_nullish v); [now apply IH|].
    destruct (match convert config with
              | Some f => f v
              | None => Normal v
              end) as [v'|e]; cbn [bind]; [|reflexivity].
    destruct (is_nullish v' || Number_isNaN v'); [now apply IH|].
    rewrite assign_fresh by (apply Hfresh; simpl; auto).
    cbn [assign].
    rewrite (IH Hnd (acc ++ [(name, (v', type config))])%list).
    + rewrite (IH Hnd [(name, (v', type config))]).
      * destruct (buildFields_loop src rest []) as [kept|e]; cbn [bind];
          [|reflexivity].
        now rewrite <- app_assoc.
      * intros n Hn [Heq|[]]. simpl in Heq. subst n. contradiction.
    + intros n Hn. rewrite map_app, in_app_iff. simpl.
      intros [Hin|[Heq|[]]]; [now apply (Hrest n)|]. subst n. contradiction.
Qed.

(** The field set of a schema, entry by entry. *)
Lemma buildFields_cons (src : value) (name : string) (config : field_config)
  (rest : schema) (fields : field_set) :
  NoDup (map fst ((name, config) :: rest)) ->
  buildFields src ((name, config) :: rest) = Normal fields ->
  exists tail,
    buildFields src rest = Normal tail
    /\ ((omitted src name config /\ fields = tail)
        \/ exists v', converted src name config = Normal v'
                      /\ ~ omitted src name config
                      /\ fields = (name, (v', type config)) :: tail).
Proof.
  intros Hnd. simpl in Hnd. apply NoDup_cons_iff in Hnd as [Hnotin Hnd].
  unfold buildFields, omitted, converted. cbn [buildFields_loop].
  unfold get_prop. destruct (is_nullish src) eqn:Hsrc; cbn [bind];
    [discriminate|].
  set (v := get src (source_key name config)).
  destruct (is_nullish v) eqn:Hv.
  - intros H. exists fields. split; [exact H|]. left. auto.
  - destruct (match convert config with
              | Some f => f v
              | None => Normal v
              end) as [v'|e] eqn:Hc; cbn [bind]; [|discriminate].
    destruct (is_nullish v' || Number_isNaN v') eqn:Hbad.
    + intros H. exists fields. split; [exact H|]. left. split; [|auto].
      right. exists v'. split; [reflexivity|].
      now apply Bool.orb_true_iff.
    + cbn [assign]. rewrite buildFields_loop_acc; [|exact Hnd|].
      * destruct (buildFields_loop src rest []) as [tail|e]; cbn [bind];
          [|discriminate].
        intros [= <-]. exists tail. split; [reflexivity|]. right.
        exists v'. split; [reflexivity|]. split; [|reflexivity].
        apply Bool.orb_false_iff in Hbad as [Hn Hnan].
        intros [Hom|(w & [= <-] & Hom)]; [congruence|].
        destruct Hom; congruence.
      * intros n Hn [Heq|[]]. simpl in Heq. subst n. contradiction.
Qed.

Lemma buildFields_nil (src : value) : buildFields src [] = Normal [].
Proof.
  reflexivity.
Qed.

Lemma buildFields_names_in_order (src : value) (sch : schema) :
  NoDup (map fst sch) ->
  forall fields,
    buildFields src sch = Normal fields ->
    in_order (map fst fields) (map fst sch).
Proof.
  induction sch as [|[name config] rest IH]; intros Hnd fields H.
  - injection H as <-. constructor.
  - destruct (buildFields_cons _ _ _ _ _ Hnd H)
      as (tail & Ht & [[_ ->]|(v' & _ & _ & ->)]);
      simpl in Hnd; apply NoDup_cons_iff in Hnd as [_ Hnd];
      simpl; constructor; now apply IH.
Qed.

Lemma buildFields_names (src : value) (sch : schema) (fields : field_set) :
  NoDup (map fst sch) ->
  buildFields src sch = Normal fields ->
  forall n, In n (map fst fields) -> In n (map fst sch).
Proof.
  intros Hnd H n. apply in_order_In.
  exact (buildFields_names_in_order src sch Hnd fields H).
Qed.

Lemma buildFields_resolved (src : value) (sch : schema) :
  NoDup (map fst sch) ->
  forall fields,
    buildFields src sch = Normal fields ->
    Forall (resolved src fields) sch.
Proof.
  induction sch as [|[name config] rest IH]; intros Hnd fields H;
    [constructor|].
  destruct (buildFields_cons _ _ _ _ _ Hnd H) as (tail & Ht & Hcase).
  simpl in Hnd. apply NoDup_cons_iff in Hnd as [Hnotin Hnd].
  pose proof (buildFields_names src rest tail Hnd Ht) as Hsub.
  specialize (IH Hnd tail Ht).
  destruct Hcase as [[Hom ->]|(v' & Hc & Hno & ->)].
  - constructor; [|exact IH]. left. split; [exact Hom|].
    intros Hin. apply Hnotin. now apply Hsub.
  - constructor.
    + right. exists v'. simpl. auto.
    + apply Forall_forall. intros [n c] Hin.
      assert (Hne : name <> n).
      { intros ->. apply Hnotin. apply in_map_iff. exists (n, c). auto. }
      pose proof (proj1 (Forall_forall _ _) IH (n, c) Hin) as Hr.
      unfold resolved in *.
      destruct Hr as [[Hom Hni]|(w & Hw & Hno' & Hw')].
      * left. split; [exact Hom|]. simpl. tauto.
      * right. exists w. simpl. auto.
Qed.


(** The loop returns when the converters return on the values they are
    given. *)
Lemma buildFields_loop_returns (src : value) (entries : schema) :
  is_nullish src = false ->
  converters_return entries ->
  convertible_sources src entries ->
  forall acc, exists out, buildFields_loop src entries acc = Normal out.
Proof.
  intros Hsrc. induction entries as [|[name config] rest IH];
    intros Hret Hcs acc; [simpl; eauto|].
  inversion Hret as [|? ? Hconv Hret']; subst.
  inversion Hcs as [|? ? Hval Hcs']; subst. cbn [fst snd] in Hconv, Hval.
  cbn [buildFields_loop]. unfold get_prop. rewrite Hsrc. cbn [bind].
  destruct (is_nullish (get src (source_key name config))); [now apply IH|].
  destruct (convert config) as [f|].
  - destruct (Hconv _ Hval) as [r ->]. cbn [bind].
    destruct (is_nullish r || Number_isNaN r); now apply IH.
  - cbn [bind].
    destruct (is_nullish _ || Number_isNaN _); now apply IH.
Qed.

(** The loop raises when a field with a converter holds a value that
    does not convert to a primitive. *)
Lemma buildFields_loop_raises (src : value) (entries : schema)
  (name : string) (config : field_config)
  (f : value -> completion value) :
  is_nullish src = false ->
  known_converters entries ->
  In (name, config) entries ->
  convert config = Some f ->
  convertible (get src (source_key name config)) = false ->
  forall acc, buildFields_loop src entries acc = Throw cannot_convert.
Proof.
  intros Hsrc Hk Hin Hc Hv.
  induction entries as [|[n c] rest IH]; [destruct Hin|]. intros acc.
  inversion Hk as [|? ? Hf Hk']; subst. cbn [snd] in Hf.
  cbn [buildFields_loop]. unfold get_prop. rewrite Hsrc. cbn [bind].
  destruct Hin as [[= -> ->]|Hin].
  - rewrite (unconvertible_not_nullish _ Hv), Hc. rewrite Hc in Hf.
    now rewrite (converter_raises f Hf _ Hv).
  - specialize (IH Hk' Hin).
    destruct (is_nullish (get src (source_key n c))) eqn:Hn; [apply IH|].
    destruct (convert c) as [g|]; cbn [bind].
    + destruct (converter_shape g Hf) as [h Hh]. rewrite Hh, Hn.
      pose proof (ToNumber_cases (get src (source_key n c))) as Hcase.
      destruct (convertible (get src (source_key n c))).
      * destruct Hcase as [x ->]. cbn [bind].
        destruct (is_nullish _ || Number_isNaN _); apply IH.
      * now rewrite Hcase.
    + destruct (is_nullish _ || Number_isNaN _); apply IH.
Qed.

Lemma converters_known_return (sch : schema) :
  known_converters sch ->
  converters_return sch.
Proof.
  apply Forall_impl. intros [name config]. cbn [snd].
  destruct (convert config); [apply converter_returns | auto].
Qed.

Ltac schema_known :=
  unfold known_converters;
  repeat (apply Forall_cons;
          [cbn [snd convert Float_ Int_];
           first [exact I | unfold converters; cbn [In]; auto 10]
          |]);
  apply Forall_nil.

Lemma OUTDOOR_SCHEMA_known :
  known_converters WeatherLink.OUTDOOR_SCHEMA.
Proof. unfold WeatherLink.OUTDOOR_SCHEMA. schema_known. Qed.

Lemma INDOOR_SCHEMA_known :
  known_converters WeatherLink.INDOOR_SCHEMA.
Proof. unfold WeatherLink.INDOOR_SCHEMA. schema_known. Qed.

Lemma BAROMETER_SCHEMA_known :
  known_converters WeatherLink.BAROMETER_SCHEMA.
Proof. unfold WeatherLink.BAROMETER_SCHEMA. schema_known. Qed.

Lemma FIELD_SCHEMA_known :
  known_converters AirLink.FIELD_SCHEMA.
Proof. unfold AirLink.FIELD_SCHEMA. schema_known. Qed.

Lemma OUTDOOR_SCHEMA_returns : converters_return WeatherLink.OUTDOOR_SCHEMA.
Proof. exact (converters_known_return _ OUTDOOR_SCHEMA_known). Qed.

Lemma INDOOR_SCHEMA_returns : converters_return WeatherLink.INDOOR_SCHEMA.
Proof. exact (converters_known_return _ INDOOR_SCHEMA_known). Qed.

Lemma BAROMETER_SCHEMA_returns :
  converters_return WeatherLink.BAROMETER_SCHEMA.
Proof. exact (converters_known_return _ BAROMETER_SCHEMA_known). Qed.

Lemma FIELD_SCHEMA_returns : converters_return AirLink.FIELD_SCHEMA.
Proof. exact (converters_known_return _ FIELD_SCHEMA_known). Qed.

Lemma toLineProtocol_Normal (m : string) (tags : list (string * value))
  (fields : field_set) (ts : float) (line : option string) :
  toLineProtocol m tags fields ts = Normal line ->
  exists t f,
    tag_string tags = Normal t /\ field_string fields = Normal f
    /\ line = if String.eqb f "" then None
              else Some (m ++ "," ++ t ++ " " ++ f ++ " "
                         ++ JSNumber.toString ts).
Proof.
  unfold toLineProtocol.
  destruct (tag_string tags) as [t|e]; cbn [bind]; [|discriminate].
  destruct (field_string fields) as [f|e]; cbn [bind]; [|discriminate].
  intros H. exists t, f. split; [reflexivity|]. split; [reflexivity|].
  destruct (String.eqb f ""); congruence.
Qed.

(** C1. For every sub-report (any value but null and undefined) and every
    schema with distinct field names: in the field set buildFields
    returns, a schema field is missing exactly when its source value is
    absent or null, or its converter's output is null, or the resulting
    value is NaN; the encoder writes its field section from the names of
    that field set, so an omitted field is not written (no zero, no
    placeholder), and a field that is not omitted is recorded with its
    converted value and its declared type.  buildFields returns such a
    field set, without an exception, when the converters return on the
    values that convert to a primitive, as the converters of the scripts
    do, and the sub-report holds such a value for every field that has a
    converter; with the converters of the scripts it raises the TypeError
    of the conversion when a field that has a converter holds a value
    that does not convert. *)
Theorem buildFields_omits_exactly (src : value) (sch : schema) :
  is_nullish src = false ->
  NoDup (map fst sch) ->
  (converters_return sch -> convertible_sources src sch ->
   exists fields, buildFields src sch = Normal fields)
  /\ (known_converters sch ->
      forall name config f,
        In (name, config) sch ->
        convert config = Some f ->
        convertible (get src (source_key name config)) = false ->
        buildFields src sch = Throw cannot_convert)
  /\ forall fields,
       buildFields src sch = Normal fields ->
       (forall name config, In (name, config) sch ->
          (lookup name fields = None <-> omitted src name config))
       /\ (forall name config, In (name, config) sch ->
             omitted src name config -> ~ In name (encoded_names fields))
       /\ (forall name config, In (name, config) sch ->
             ~ omitted src name config ->
             exists v', converted src name config = Normal v'
                        /\ In (name, (v', type config)) fields)
       /\ (forall name, In name (encoded_names fields) ->
                        In name (map fst sch))
       /\ (forall m tags ts line,
             toLineProtocol m tags fields ts = Normal (Some line) ->
             exists t parts,
               tag_string tags = Normal t
               /\ Array_map field_pair fields = Normal parts
               /\ line = m ++ "," ++ t ++ " " ++ JSString.join "," parts
                         ++ " " ++ JSNumber.toString ts).
Proof.
  intros Hsrc Hnd. split.
  { intros Hret Hcs.
    exact (buildFields_loop_returns src sch Hsrc Hret Hcs []). }
  split.
  { intros Hk name config f Hin Hc Hv.
    exact (buildFields_loop_raises src sch name config f Hsrc Hk Hin Hc Hv
             []). }
  intros fields Hb. unfold encoded_names.
  pose proof (buildFields_resolved src sch Hnd fields Hb) as Hres.
  assert (Hcase : forall name config, In (name, config) sch ->
            resolved src fields (name, config)).
  { intros name config Hin.
    exact (proj1 (Forall_forall _ _) Hres (name, config) Hin). }
  split; [|split; [|split; [|split]]].
  - intros name config H. split.
    + intros Hnone. apply lookup_None in Hnone.
      destruct (Hcase name config H) as [[Hom _]|(v' & _ & _ & Hin)];
        [exact Hom|].
      exfalso. apply Hnone. apply in_map_iff.
      exists (name, (v', type config)). auto.
    + intros Hom. apply lookup_None.
      destruct (Hcase name config H) as [[_ Hni]|(v' & _ & Hno & _)];
        [exact Hni | contradiction].
  - intros name config Hin Hom.
    destruct (Hcase name config Hin) as [[_ Hni]|(v' & _ & Hno & _)];
      [exact Hni | contradiction].
  - intros name config Hin Hno.
    destruct (Hcase name config Hin) as [[Hom _]|(v' & Hv & _ & Hk)];
      [contradiction|]. exists v'. auto.
  - exact (buildFields_names src sch fields Hnd Hb).
  - intros m tags ts line Hline.
    destruct (toLineProtocol_Normal _ _ _ _ _ Hline) as (t & f & Ht & Hf & Hl).
    unfold field_string in Hf.
    destruct (Array_map field_pair fields) as [parts|e]; cbn [bind] in Hf;
      [|discriminate].
    injection Hf as <-. exists t, parts.
    split; [exact Ht|]. split; [reflexivity|].
    destruct (String.eqb (JSString.join "," parts) ""); congruence.
Qed.

(** C1 at the sample outdoor sub-report, whose dew point is null. *)
Lemma buildFields_omits_exactly_witness :
  is_nullish sample_outdoor = false
  /\ NoDup (map fst WeatherLink.OUTDOOR_SCHEMA)
  /\ converters_return WeatherLink.OUTDOOR_SCHEMA
  /\ convertible_sources sample_outdoor WeatherLink.OUTDOOR_SCHEMA
  /\ exists fields,
       buildFields sample_outdoor WeatherLink.OUTDOOR_SCHEMA = Normal fields
       /\ (lookup "dew_point" fields = None
           <-> omitted sample_outdoor "dew_point"
                 (Float_ (Some WeatherLink.fahrenheitToCelsius))).
Proof.
  assert (Hnd : NoDup (map fst WeatherLink.OUTDOOR_SCHEMA))
    by (apply distinct_NoDup; vm_compute; reflexivity).
  assert (Hcs : convertible_sources sample_outdoor
                  WeatherLink.OUTDOOR_SCHEMA).
  { unfold convertible_sources, WeatherLink.OUTDOOR_SCHEMA.
    repeat (apply Forall_cons; [cbn [snd convert Float_ Int_]; auto|]).
    apply Forall_nil. }
  split; [reflexivity|]. split; [exact Hnd|].
  split; [exact OUTDOOR_SCHEMA_returns|]. split; [exact Hcs|].
  destruct (buildFields_omits_exactly sample_outdoor
              WeatherLink.OUTDOOR_SCHEMA eq_refl Hnd)
    as (Hret & _ & Hspec).
  destruct (Hret OUTDOOR_SCHEMA_returns Hcs) as (fields & Hb).
  exists fields. split; [exact Hb|].
  destruct (Hspec fields Hb) as (Hiff & _).
  apply Hiff. simpl. tauto.
Defined.

(** A sub-report whose temperature is an object with an own toString
    property: buildFields raises. *)
Lemma buildFields_raises_on_object :
  is_nullish sample_unconvertible = false
  /\ distinct (map fst WeatherLink.OUTDOOR_SCHEMA) = true
  /\ buildFields sample_unconvertible WeatherLink.OUTDOOR_SCHEMA
     = Throw cannot_convert
  /\ buildFields sample_unconvertible AirLink.FIELD_SCHEMA
     = Throw cannot_convert.
Proof.
  repeat split; vm_compute; reflexivity.
Qed.

End Extractor.

(** ** The line protocol encoder *)

Section Encoder.
Import JS Common Props.

Lemma append_nonempty_r (a b : string) : b <> "" -> a ++ b <> "".
Proof.
  destruct a; simpl; [auto | discriminate].
Qed.

Lemma field_pair_nonempty (kf : string * (value * field_type)) (s : string) :
  field_pair kf = Normal s -> s <> "".
Proof.
  destruct kf as [k [v t]]. unfold field_pair.
  destruct t.
  - destruct (ToString v); cbn [bind]; [|discriminate].
    intros [= <-]. apply append_nonempty_r. discriminate.
  - destruct (ToNumber v); cbn [bind]; [|discriminate].
    intros [= <-]. apply append_nonempty_r. discriminate.
Qed.

Lemma tag_pair_nonempty (kv : string * value) (s : string) :
  tag_pair kv = Normal s -> s <> "".
Proof.
  unfold tag_pair. destruct (escapeTagValue (snd kv)); cbn [bind];
    [|discriminate].
  intros [= <-]. apply append_nonempty_r. discriminate.
Qed.

Lemma join_nonempty (sep p : string) (rest : list string) :
  p <> "" -> JSString.join sep (p :: rest) <> "".
Proof.
  intros Hp. destruct rest as [|q rest]; simpl; [exact Hp|].
  destruct p; [contradiction | discriminate].
Qed.

(** What [map] gives when no call throws. *)
Lemma Array_map_Normal {A B} (f : A -> completion B) (l : list A)
  (out : list B) :
  Array_map f l = Normal out -> Forall2 (fun x y => f x = Normal y) l out.
Proof.
  revert out. induction l as [|x l IH]; intros out; cbn [Array_map].
  - intros [= <-]. constructor.
  - destruct (f x) as [y|e] eqn:Hy; cbn [bind]; [|discriminate].
    destruct (Array_map f l) as [ys|e]; cbn [bind]; [|discriminate].
    intros [= <-]. constructor; auto.
Qed.

Lemma Array_map_returns {A B} (f : A -> completion B) (l : list A) :
  Forall (fun x => exists y, f x = Normal y) l ->
  exists out, Array_map f l = Normal out.
Proof.
  induction 1 as [|x l [y Hy] _ [ys IH]]; cbn [Array_map]; [eauto|].
  rewrite Hy, IH. cbn [bind]. eauto.
Qed.

Lemma field_string_nonempty (fields : field_set) (f : string) :
  fields <> [] -> field_string fields = Normal f -> f <> "".
Proof.
  unfold field_string. destruct fields as [|kf rest]; [contradiction|].
  intros _. cbn [Array_map].
  destruct (field_pair kf) as [p|e] eqn:Hp; cbn [bind]; [|discriminate].
  destruct (Array_map field_pair rest) as [ps|e]; cbn [bind];
    [|discriminate].
  intros [= <-]. apply (join_nonempty "," p ps).
  eapply field_pair_nonempty, Hp.
Qed.

Lemma field_string_empty (fields : field_set) :
  field_string fields = Normal "" <-> fields = [].
Proof.
  split.
  - intros H. destruct fields as [|kf rest]; [reflexivity|]. exfalso.
    eapply field_string_nonempty; [|exact H|reflexivity]. discriminate.
  - intros ->. reflexivity.
Qed.

Lemma toLineProtocol_nil (m : string) (tags : list (string * value))
  (ts : float) :
  toLineProtocol m tags [] ts = (t <- tag_string tags ;; Normal None).
Proof.
  unfold toLineProtocol. destruct (tag_string tags); reflexivity.
Qed.

Lemma toLineProtocol_None (m : string) (tags : list (string * value))
  (fields : field_set) (ts : float) :
  toLineProtocol m tags fields ts = Normal None
  <-> fields = [] /\ exists t, tag_string tags = Normal t.
Proof.
  split.
  - intros H.
    destruct (toLineProtocol_Normal _ _ _ _ _ H) as (t & f & Ht & Hf & Hl).
    split; [|eauto].
    destruct (String.eqb f "") eqn:E; [|discriminate].
    apply String.eqb_eq in E. subst f. now apply field_string_empty.
  - intros [-> [t Ht]]. rewrite toLineProtocol_nil, Ht. reflexivity.
Qed.

Lemma toLineProtocol_Some (m : string) (tags : list (string * value))
  (fields : field_set) (ts : float) :
  fields <> [] ->
  toLineProtocol m tags fields ts =
  (t <- tag_string tags ;;
   f <- field_string fields ;;
   Normal (Some (m ++ "," ++ t ++ " " ++ f ++ " " ++ JSNumber.toString ts))).
Proof.
  intros H. unfold toLineProtocol.
  destruct (tag_string tags) as [t|e]; cbn [bind]; [|reflexivity].
  destruct (field_string fields) as [f|e] eqn:Hf; cbn [bind]; [|reflexivity].
  destruct (String.eqb f "") eqn:E; [|reflexivity].
  apply String.eqb_eq in E. subst f.
  now apply field_string_empty in Hf.
Qed.

Lemma line_nonempty (m rest : string) : m ++ "," ++ rest <> "".
Proof.
  apply append_nonempty_r. discriminate.
Qed.

Lemma or_else_not_nullish (a : value) (s : string) :
  is_nullish (or_else a (Str s)) = false.
Proof.
  unfold or_else. destruct (ToBoolean a) eqn:E; [|reflexivity].
  destruct a; try reflexivity; discriminate.
Qed.

Lemma outdoor_tag_string (data : value) :
  tag_string (WeatherLink.outdoor_tags data) =
  (e <- escapeTagValue (or_else (get data "did") (Str "unknown")) ;;
   Normal ("friendly_name=Davis\ Outdoor\ ISS,location=outside,sensor_id="
           ++ e ++ ",source=davis")).
Proof.
  unfold WeatherLink.outdoor_tags.
  pose proof (or_else_not_nullish (get data "did") "unknown") as Hx.
  revert Hx. generalize (or_else (get data "did") (Str "unknown")).
  intros x Hx. unfold tag_string.
  cbn [WeatherLink.tags WeatherLink.outdoor WeatherLink.CONFIG assign
       String.eqb Ascii.eqb Bool.eqb filter snd is_nullish negb].
  rewrite Hx. cbn. unfold tag_pair. cbn [snd fst].
  destruct (escapeTagValue x); reflexivity.
Qed.

Lemma airlink_tag_string (data : value) :
  tag_string (AirLink.build_tags data) =
  (e <- escapeTagValue (or_else (get data "did") (Str "unknown")) ;;
   Normal ("friendly_name=Davis\ AirLink,location=outside,sensor_id="
           ++ e ++ ",source=davis_airlink")).
Proof.
  unfold AirLink.build_tags.
  pose proof (or_else_not_nullish (get data "did") "unknown") as Hx.
  revert Hx. generalize (or_else (get data "did") (Str "unknown")).
  intros x Hx. unfold tag_string.
  cbn [AirLink.tags AirLink.CONFIG assign
       String.eqb Ascii.eqb Bool.eqb filter snd is_nullish negb].
  rewrite Hx. cbn. unfold tag_pair. cbn [snd fst].
  destruct (escapeTagValue x); reflexivity.
Qed.

(** *** Integer and float fields *)

Lemma floor_is_trunc_when_positive (x : float) :
  sign_bit x = false -> JSNumber.Math_floor x = JSNumber.Math_trunc x.
Proof.
  unfold sign_bit, JSNumber.Math_floor, JSNumber.Math_trunc.
  destruct (JSNumber.to_ratio x) as [[[s p] q]|]; [|reflexivity].
  intros ->. reflexivity.
Qed.

(** C3, as the code has it. An Integer field is written as its name, an
    equals sign, the value rounded down by Math.floor (toward minus
    infinity, which is truncation toward zero for every value that is not
    negative) and the suffix i: 180 and 180.9 are both written 180i. A
    Float field is written as its name, an equals sign and the value's
    own decimal text, with no suffix and no further rounding. The field
    section is these pairs joined by commas.  The value is first
    converted, to a Number for an Integer field and to a string for a
    Float field; for a Number no conversion can fail. *)
Theorem field_encoding :
  (forall k v,
      field_pair (k, (v, TInt)) =
      (x <- ToNumber v ;;
       Normal (k ++ "=" ++ JSNumber.toString (JSNumber.Math_floor x) ++ "i")))
  /\ (forall k x,
        field_pair (k, (Number x, TInt)) =
        Normal (k ++ "=" ++ JSNumber.toString (JSNumber.Math_floor x) ++ "i"))
  /\ (forall x, sign_bit x = false ->
                JSNumber.Math_floor x = JSNumber.Math_trunc x)
  /\ field_pair ("wind_dir_last", (Number 180, TInt))
     = Normal "wind_dir_last=180i"
  /\ field_pair ("wind_dir_last", (Number 180.9, TInt))
     = Normal "wind_dir_last=180i"
  /\ (forall k v,
        field_pair (k, (v, TFloat)) =
        (s <- ToString v ;; Normal (k ++ "=" ++ s)))
  /\ (forall k x,
        field_pair (k, (Number x, TFloat)) =
        Normal (k ++ "=" ++ JSNumber.toString x))
  /\ field_pair ("wind_speed_last", (Number 2.68, TFloat))
     = Normal "wind_speed_last=2.68"
  /\ field_pair ("bar_trend", (Number (-2.777), TFloat))
     = Normal "bar_trend=-2.777"
  /\ (forall fields,
         field_string fields =
         (parts <- Array_map field_pair fields ;;
          Normal (JSString.join "," parts))).
Proof.
  split; [reflexivity|]. split; [reflexivity|].
  split; [exact floor_is_trunc_when_positive|].
  split; [vm_compute; reflexivity|]. split; [vm_compute; reflexivity|].
  split; [reflexivity|]. split; [reflexivity|].
  split; [vm_compute; reflexivity|]. split; [vm_compute; reflexivity|].
  reflexivity.
Qed.

(** C3 at 180.9: the sign is clear, floor and truncation give 180. *)
Lemma field_encoding_witness :
  sign_bit 180.9 = false
  /\ JSNumber.Math_floor 180.9 = JSNumber.Math_trunc 180.9
  /\ JSNumber.Math_floor 180.9 = 180%float.
Proof.
  split; [vm_compute; reflexivity|]. split.
  - apply (proj1 (proj2 (proj2 field_encoding))). vm_compute. reflexivity.
  - vm_compute. reflexivity.
Defined.

(** C3, the counterexample: the Integer field -1.5 is written -2i, rounded
    down, where truncation toward zero gives -1. *)
Lemma integer_field_rounds_down :
  field_pair ("f", (Number (-1.5), TInt)) = Normal "f=-2i"
  /\ JSNumber.toString (JSNumber.Math_trunc (-1.5)) = "-1"
  /\ toLineProtocol "m" [("t", Str "v")] [("f", (Number (-1.5), TInt))] 1
     = Normal (Some "m,t=v f=-2i 1").
Proof.
  repeat split; vm_compute; reflexivity.
Qed.

(** *** Records without fields, records without tags *)

Lemma emit_nothing (block : value) (sch : schema) (m : string)
  (tg : list (string * value)) (ts : float) (lines : list string)
  (t : string) :
  buildFields block sch = Normal [] ->
  tag_string tg = Normal t ->
  WeatherLink.emit block sch m tg ts lines = Normal lines.
Proof.
  intros H Ht. unfold WeatherLink.emit. rewrite H. cbn [bind].
  rewrite toLineProtocol_nil, Ht.
  destruct (ToBoolean block); reflexivity.
Qed.

Lemma emit_line (block : value) (sch : schema) (m : string)
  (tg : list (string * value)) (ts : float) (lines : list string)
  (fields : field_set) (t f : string) :
  ToBoolean block = true ->
  buildFields block sch = Normal fields ->
  fields <> [] ->
  tag_string tg = Normal t ->
  field_string fields = Normal f ->
  WeatherLink.emit block sch m tg ts lines =
  Normal (lines ++ [(m ++ "," ++ t ++ " " ++ f ++ " "
                     ++ JSNumber.toString ts)%string])%list.
Proof.
  intros Hb Hf Hne Ht Hfs. unfold WeatherLink.emit. rewrite Hb, Hf.
  cbn [bind]. rewrite toLineProtocol_Some by exact Hne. rewrite Ht, Hfs.
  cbn [bind]. unfold WeatherLink.push_line.
  destruct (String.eqb _ "") eqn:E; [|reflexivity].
  apply String.eqb_eq in E. now apply line_nonempty in E.
Qed.

(** What a block has done when it returns. *)
Lemma emit_Normal (block : value) (sch : schema) (m : string)
  (tg : list (string * value)) (ts : float) (lines out : list string) :
  WeatherLink.emit block sch m tg ts lines = Normal out ->
  (ToBoolean block = false /\ out = lines)
  \/ (ToBoolean block = true
      /\ exists fields t f,
           buildFields block sch = Normal fields
           /\ tag_string tg = Normal t
           /\ field_string fields = Normal f
           /\ ((fields = [] /\ out = lines)
               \/ (fields <> []
                   /\ out = (lines ++ [(m ++ "," ++ t ++ " " ++ f ++ " "
                                        ++ JSNumber.toString ts)%string])
                            %list))).
Proof.
  unfold WeatherLink.emit. destruct (ToBoolean block).
  2:{ intros [= <-]. auto. }
  destruct (buildFields block sch) as [fields|e]; cbn [bind];
    [|discriminate].
  destruct (toLineProtocol m tg fields ts) as [line|e] eqn:Hl; cbn [bind];
    [|discriminate].
  intros [= <-]. right. split; [reflexivity|].
  destruct (toLineProtocol_Normal _ _ _ _ _ Hl) as (t & f & Ht & Hf & ->).
  exists fields, t, f. split; [reflexivity|]. split; [exact Ht|].
  split; [exact Hf|].
  destruct fields as [|kf rest].
  - left. split; [reflexivity|].
    injection Hf as <-. reflexivity.
  - right. split; [discriminate|].
    destruct (String.eqb f "") eqn:E.
    + apply String.eqb_eq in E. subst f.
      apply field_string_empty in Hf. discriminate.
    + unfold WeatherLink.push_line.
      destruct (String.eqb (m ++ _) "") eqn:E'; [|reflexivity].
      apply String.eqb_eq in E'. now apply line_nonempty in E'.
Qed.

End Encoder.

(** ** Tags: dropping, ordering, escaping *)

Section Tags.
Import JS Common Props.

Lemma insert_sorted_perm {A} (cmp : A -> A -> Z) (x : A) (l : list A) :
  Permutation (insert_sorted cmp x l) (x :: l).
Proof.
  induction l as [|y l IH]; simpl; [reflexivity|].
  destruct (cmp x y <=? 0); [reflexivity|].
  rewrite IH. apply perm_swap.
Qed.

Lemma Array_sort_perm {A} (cmp : A -> A -> Z) (l : list A) :
  Permutation (Array_sort cmp l) l.
Proof.
  induction l as [|x l IH]; simpl; [constructor|].
  rewrite insert_sorted_perm. now constructor.
Qed.

Section Sorting.
Context {A : Type} (cmp : A -> A -> Z).
Hypothesis cmp_total : forall a b, 0 < cmp a b -> cmp b a <= 0.

Lemma insert_sorted_hd (x y : A) (l : list A) :
  cmp y x <= 0 ->
  HdRel (fun a b => cmp a b <= 0) y l ->
  HdRel (fun a b => cmp a b <= 0) y (insert_sorted cmp x l).
Proof.
  intros Hyx Hhd. destruct l as [|z l]; simpl.
  - now constructor.
  - destruct (cmp x z <=? 0); constructor; [exact Hyx|].
    now inversion Hhd.
Qed.

Lemma insert_sorted_Sorted (x : A) (l : list A) :
  Sorted (fun a b => cmp a b <= 0) l ->
  Sorted (fun a b => cmp a b <= 0) (insert_sorted cmp x l).
Proof.
  induction 1 as [|y l Hs IH Hhd]; simpl.
  - repeat constructor.
  - destruct (cmp x y <=? 0) eqn:E.
    + apply Z.leb_le in E. repeat constructor; assumption.
    + apply Z.leb_gt in E. constructor; [exact IH|].
      apply insert_sorted_hd; [|exact Hhd]. now apply cmp_total.
Qed.

Lemma Array_sort_Sorted (l : list A) :
  Sorted (fun a b => cmp a b <= 0) (Array_sort cmp l).
Proof.
  induction l as [|x l IH]; simpl; [constructor|].
  now apply insert_sorted_Sorted.
Qed.

End Sorting.

Lemma lex_antisym (l1 l2 : list N) :
  Collation.lex l1 l2 = CompOpp (Collation.lex l2 l1).
Proof.
  revert l2. induction l1 as [|a l1 IH]; intros [|b l2]; simpl; try reflexivity.
  rewrite (N.compare_antisym b a).
  destruct (b ?= a)%N; simpl; auto.
Qed.

Lemma collation_antisym (a b : string) :
  Collation.compare a b = CompOpp (Collation.compare b a).
Proof.
  unfold Collation.compare.
  rewrite (lex_antisym (map fst (Collation.weights a))).
  rewrite (lex_antisym (map snd (Collation.weights a))).
  destruct (Collation.lex (map fst (Collation.weights b)) _); reflexivity.
Qed.

Lemma localeCompare_total (a b : string) :
  0 < Collation.localeCompare a b -> Collation.localeCompare b a <= 0.
Proof.
  unfold Collation.localeCompare. rewrite (collation_antisym b a).
  destruct (Collation.compare a b); simpl; lia.
Qed.

(** On keys of lower-case letters and underscores the collation is the
    order of the bytes. *)
Lemma plain_char_weights (c : ascii) :
  ((N_of_ascii c =? 95) || (97 <=? N_of_ascii c) && (N_of_ascii c <=? 122))%N
  = true ->
  Collation.primary c
  = Some (if (N_of_ascii c =? 95)%N then 6 else 200 + (N_of_ascii c - 97))%N
  /\ Collation.tertiary c = 0%N.
Proof.
  unfold Collation.primary, Collation.tertiary.
  set (n := N_of_ascii c). intros H.
  apply Bool.orb_true_iff in H as [H|H].
  - apply N.eqb_eq in H. rewrite H. split; reflexivity.
  - apply andb_prop in H as [H1 H2].
    apply N.leb_le in H1. apply N.leb_le in H2.
    assert (E95 : (n =? 95)%N = false) by (apply N.eqb_neq; lia).
    assert (E1 : ((48 <=? n) && (n <=? 57))%N = false).
    { apply Bool.andb_false_iff. right. apply N.leb_gt. lia. }
    assert (E2 : ((97 <=? n) && (n <=? 122))%N = true).
    { apply andb_true_intro. split; now apply N.leb_le. }
    assert (E3 : ((65 <=? n) && (n <=? 90))%N = false).
    { apply Bool.andb_false_iff. right. apply N.leb_gt. lia. }
    rewrite E95, E1, E2, E3. split; reflexivity.
Qed.

Lemma plain_keys_bytewise (a b : string) :
  plain_key a = true -> plain_key b = true ->
  Collation.compare a b = String.compare a b.
Proof.
  unfold Collation.compare. revert b.
  induction a as [|c a IH]; intros [|d b] Ha Hb; simpl in Ha, Hb.
  - reflexivity.
  - apply andb_prop in Hb as [Hd Hb].
    destruct (plain_char_weights d Hd) as [Hp _]. simpl. rewrite Hp.
    reflexivity.
  - apply andb_prop in Ha as [Hc Ha].
    destruct (plain_char_weights c Hc) as [Hp _]. simpl. rewrite Hp.
    reflexivity.
  - apply andb_prop in Ha as [Hc Ha]. apply andb_prop in Hb as [Hd Hb].
    destruct (plain_char_weights c Hc) as [Hpc Htc].
    destruct (plain_char_weights d Hd) as [Hpd Htd].
    cbn [Collation.weights String.compare]. rewrite Hpc, Hpd, Htc, Htd.
    cbn [map fst snd Collation.lex]. unfold Ascii.compare.
    specialize (IH b Ha Hb).
    assert (Hcmp :
      ((if (N_of_ascii c =? 95)%N then 6 else 200 + (N_of_ascii c - 97))
       ?= (if (N_of_ascii d =? 95)%N then 6 else 200 + (N_of_ascii d - 97)))%N
      = (N_of_ascii c ?= N_of_ascii d)%N).
    { clear - Hc Hd.
      apply Bool.orb_true_iff in Hc. apply Bool.orb_true_iff in Hd.
      rewrite Bool.andb_true_iff, N.eqb_eq, !N.leb_le in Hc, Hd.
      destruct (N.eqb_spec (N_of_ascii c) 95) as [Ec|Ec];
        destruct (N.eqb_spec (N_of_ascii d) 95) as [Ed|Ed];
        match goal with
        | |- (?x ?= ?y)%N = (?u ?= ?v)%N =>
            destruct (N.compare_spec x y); destruct (N.compare_spec u v);
            try reflexivity; lia
        end. }
    rewrite Hcmp.
    destruct (N_of_ascii c ?= N_of_ascii d)%N; [exact IH | reflexivity ..].
Qed.

Lemma escape_string_chars (s : string) :
  JSString.replace_all " " "\ "
    (JSString.replace_all "=" "\="
       (JSString.replace_all "," "\,"
          (JSString.replace_all "\" "\\" s)))
  = escape_chars s.
Proof.
  induction s as [|a s IH]; [reflexivity|].
  cbn [JSString.replace_all escape_chars]. unfold escape_char.
  destruct (Ascii.eqb a "\") eqn:E1.
  { apply Ascii.eqb_eq in E1. subst a. cbn. now rewrite IH. }
  cbn [JSString.replace_all orb].
  destruct (Ascii.eqb a ",") eqn:E2.
  { apply Ascii.eqb_eq in E2. subst a. cbn. now rewrite IH. }
  cbn [JSString.replace_all orb].
  destruct (Ascii.eqb a "=") eqn:E3.
  { apply Ascii.eqb_eq in E3. subst a. cbn. now rewrite IH. }
  cbn [JSString.replace_all orb].
  destruct (Ascii.eqb a " ") eqn:E4.
  { apply Ascii.eqb_eq in E4. subst a. cbn. now rewrite IH. }
  cbn [String.append]. now rewrite IH.
Qed.

Lemma tag_string_sorted (tags : list (string * value)) :
  exists kept,
    tag_string tags =
    (parts <- Array_map tag_pair kept ;; Normal (JSString.join "," parts))
    /\ Permutation kept (filter (fun kv => negb (is_nullish (snd kv))) tags)
    /\ Sorted by_locale kept.
Proof.
  eexists. split; [reflexivity|]. split.
  - apply Array_sort_perm.
  - apply (Array_sort_Sorted
             (fun a b => Collation.localeCompare (fst a) (fst b))).
    intros a b. apply localeCompare_total.
Qed.

Lemma tag_pair_chars (k : string) (v : value) :
  tag_pair (k, v) =
  (s <- ToString v ;; Normal (k ++ "=" ++ escape_chars s)).
Proof.
  unfold tag_pair, escapeTagValue. cbn [fst snd].
  destruct (ToString v) as [s|e]; cbn [bind]; [|reflexivity].
  now rewrite escape_string_chars.
Qed.

Lemma tag_string_empty (tags : list (string * value)) :
  tag_string tags = Normal ""
  <-> Forall (fun kv => is_nullish (snd kv) = true) tags.
Proof.
  destruct (tag_string_sorted tags) as (kept & Heq & Hperm & _).
  rewrite Heq. split.
  - intros H. destruct kept as [|kv kept].
    + apply Permutation_nil in Hperm. apply Forall_forall. intros kv Hin.
      destruct (is_nullish (snd kv)) eqn:E; [reflexivity|]. exfalso.
      assert (Hf : In kv (filter (fun kv => negb (is_nullish (snd kv))) tags)).
      { apply filter_In. rewrite E. auto. }
      rewrite Hperm in Hf. exact Hf.
    + exfalso. revert H. cbn [Array_map].
      destruct (tag_pair kv) as [q|e] eqn:Hq; cbn [bind]; [|discriminate].
      destruct (Array_map tag_pair kept) as [qs|e]; cbn [bind];
        [|discriminate].
      intros [= H]. revert H. apply (join_nonempty "," q qs).
      eapply tag_pair_nonempty, Hq.
  - intros H. destruct kept as [|kv kept]; [reflexivity|]. exfalso.
    assert (Hin : In kv (filter (fun kv => negb (is_nullish (snd kv))) tags)).
    { eapply Permutation_in; [exact Hperm | simpl; auto]. }
    apply filter_In in Hin as [Hin Hb].
    rewrite (proj1 (Forall_forall _ _) H kv Hin) in Hb. discriminate.
Qed.

(** C2, as the code has it. For every tag set the encoder drops the tags
    whose value is null or undefined, orders the rest by key with
    localeCompare (the host's collation, which is the order of the bytes
    on keys of lower-case letters and underscores, the keys of every
    configured tag), and writes each as key=escapedValue, where escaping
    puts a backslash before each backslash, comma, equals sign and space
    of the value's string (the backslash replaced first, so no escape is
    escaped again) and leaves the key as it is; the tags location,
    friendly_name and source of the outdoor configuration are written
    friendly_name=Davis\ Outdoor\ ISS,location=outside,source=davis. *)
Theorem tags_dropped_ordered_escaped :
  (forall tags, exists kept,
      tag_string tags =
      (parts <- Array_map tag_pair kept ;;
       Normal (JSString.join "," parts))
      /\ Permutation kept
           (filter (fun kv => negb (is_nullish (snd kv))) tags)
      /\ Sorted by_locale kept)
  /\ (forall k v,
        tag_pair (k, v) =
        (s <- ToString v ;; Normal (k ++ "=" ++ escape_chars s)))
  /\ (forall k s, tag_pair (k, Str s) = Normal (k ++ "=" ++ escape_chars s))
  /\ (forall a b, plain_key a = true -> plain_key b = true ->
                  Collation.compare a b = String.compare a b)
  /\ (forall data,
         Forall (fun kv => plain_key (fst kv) = true)
           (WeatherLink.outdoor_tags data
            ++ WeatherLink.tags (WeatherLink.indoor WeatherLink.CONFIG)
            ++ WeatherLink.tags (WeatherLink.barometer WeatherLink.CONFIG)
            ++ AirLink.build_tags data))
  /\ tag_string [("location", Str "outside");
                 ("friendly_name", Str "Davis Outdoor ISS");
                 ("source", Str "davis")]
     = Normal
         "friendly_name=Davis\ Outdoor\ ISS,location=outside,source=davis"
  /\ tag_string (WeatherLink.tags (WeatherLink.outdoor WeatherLink.CONFIG))
     = Normal
         "friendly_name=Davis\ Outdoor\ ISS,location=outside,source=davis".
Proof.
  split; [exact tag_string_sorted|].
  split; [exact tag_pair_chars|].
  split; [intros k s; now rewrite tag_pair_chars|].
  split; [exact plain_keys_bytewise|].
  split; [intros data; repeat constructor|].
  split; vm_compute; reflexivity.
Qed.

(** C2 at the keys friendly_name and location. *)
Lemma tags_dropped_ordered_escaped_witness :
  plain_key "friendly_name" = true
  /\ plain_key "location" = true
  /\ Collation.compare "friendly_name" "location"
     = String.compare "friendly_name" "location"
  /\ String.compare "friendly_name" "location" = Lt.
Proof.
  split; [reflexivity|]. split; [reflexivity|]. split.
  - apply (proj1 (proj2 (proj2 (proj2 tags_dropped_ordered_escaped))));
      reflexivity.
  - reflexivity.
Defined.

(** C2, the counterexample: the keys B and a are written a first, as the
    collation has them, where the order of the bytes has B first. *)
Lemma tags_not_in_byte_order :
  tag_string [("B", Str "x"); ("a", Str "y")] = Normal "a=y,B=x"
  /\ Collation.localeCompare "a" "B" = -1
  /\ String.compare "B" "a" = Lt
  /\ toLineProtocol "m" [("B", Str "x"); ("a", Str "y")]
       [("f", (Number 1, TFloat))] 1
     = Normal (Some "m,a=y,B=x f=1 1").
Proof.
  repeat split; vm_compute; reflexivity.
Qed.

(** C5, as the code has it. The line is the measurement, a comma, the tag
    string, a space, the field string, a space and the timestamp, whatever
    the tag string is: the comma is written also when the tag string is
    empty. The tag string is empty only when every tag is null or
    undefined, which none of the tag sets the scripts build is. *)
Theorem comma_follows_measurement :
  (forall m tags fields ts,
      fields <> [] ->
      toLineProtocol m tags fields ts =
      (t <- tag_string tags ;;
       f <- field_string fields ;;
       Normal (Some (m ++ "," ++ t ++ " " ++ f ++ " "
                     ++ JSNumber.toString ts))))
  /\ (forall tags,
         tag_string tags = Normal ""
         <-> Forall (fun kv => is_nullish (snd kv) = true) tags)
  /\ (forall data, tag_string (WeatherLink.outdoor_tags data) <> Normal "")
  /\ tag_string (WeatherLink.tags (WeatherLink.indoor WeatherLink.CONFIG))
     <> Normal ""
  /\ tag_string (WeatherLink.tags (WeatherLink.barometer WeatherLink.CONFIG))
     <> Normal ""
  /\ (forall data, tag_string (AirLink.build_tags data) <> Normal "").
Proof.
  split; [exact toLineProtocol_Some|].
  split; [exact tag_string_empty|].
  split.
  { intros data. rewrite outdoor_tag_string.
    destruct (escapeTagValue _); discriminate. }
  split; [vm_compute; discriminate|].
  split; [vm_compute; discriminate|].
  intros data. rewrite airlink_tag_string.
  destruct (escapeTagValue _); discriminate.
Qed.

(** C5 at a record whose only tag is null. *)
Lemma comma_follows_measurement_witness :
  [("f", (Number 1, TFloat))] <> []
  /\ toLineProtocol "m" [("t", Null)] [("f", (Number 1, TFloat))] 1
     = (t <- tag_string [("t", Null)] ;;
        f <- field_string [("f", (Number 1, TFloat))] ;;
        Normal (Some ("m" ++ "," ++ t ++ " " ++ f ++ " "
                      ++ JSNumber.toString 1))).
Proof.
  split; [discriminate|].
  apply (proj1 comma_follows_measurement). discriminate.
Defined.

(** C5, the counterexample: with no tag, and with a null tag only, the tag
    string is empty and the comma is still written, followed by the space
    that separates the fields. *)
Lemma comma_written_without_tags :
  tag_string [] = Normal ""
  /\ toLineProtocol "m" [] [("f", (Number 1, TFloat))] 1
     = Normal (Some "m, f=1 1")
  /\ tag_string [("t", Null)] = Normal ""
  /\ toLineProtocol "m" [("t", Null)] [("f", (Number 1, TFloat))] 1
     = Normal (Some "m, f=1 1").
Proof.
  repeat split; vm_compute; reflexivity.
Qed.

End Tags.

(** ** The scripts, end to end *)

Section Scripts.
Import JS Common Props.

Lemma truthy_not_nullish (v : value) :
  ToBoolean v = true -> is_nullish v = false.
Proof.
  destruct v; simpl; congruence.
Qed.

Lemma get_opt_truthy (v : value) (key : string) :
  ToBoolean (get_opt v key) = true ->
  is_nullish v = false /\ get_opt v key = get v key.
Proof.
  unfold get_opt. destruct (is_nullish v); [discriminate | auto].
Qed.

Lemma get_prop_get (v : value) (key : string) :
  is_nullish v = false -> get_prop v key = Normal (get v key).
Proof.
  intros H. unfold get_prop. now rewrite H.
Qed.

Lemma falsy_values (v : value) :
  falsy v <->
  v = Undefined \/ v = Null \/ v = Bool false \/ v = Str ""
  \/ exists x, v = Number x /\ (is_zero x || is_nan x) = true.
Proof.
  unfold falsy. split.
  - destruct v as [| |b|x|s| |]; simpl; intros H; try discriminate; auto.
    + subst b. auto.
    + right. right. right. right. exists x. split; [reflexivity|].
      now apply Bool.negb_false_iff.
    + apply Bool.negb_false_iff, String.eqb_eq in H. subst. auto 6.
  - intros [->|[->|[->|[->|(x & -> & H)]]]]; simpl; try reflexivity.
    now rewrite H.
Qed.

Lemma missing_key_undefined (props : list (string * value)) (key : string) :
  lookup key props = None -> get (Object props) key = Undefined.
Proof.
  intros H. simpl. now rewrite H.
Qed.

Lemma lookup_In {A} (key : string) (props : list (string * A)) (w : A) :
  lookup key props = Some w -> In (key, w) props.
Proof.
  induction props as [|[k v] rest IH]; simpl; [discriminate|].
  destruct (String.eqb k key) eqn:E.
  - apply String.eqb_eq in E. intros [= ->]. subst k. auto.
  - auto.
Qed.

Lemma convertible_get (v : value) (key : string) :
  convertible_properties v = true -> convertible (get v key) = true.
Proof.
  destruct v as [| |b|x|s|elems|props]; cbn [convertible_properties get];
    intros H; try reflexivity.
  - destruct (String.eqb key "length"); [reflexivity|].
    destruct (index_of_key key) as [i|]; [|reflexivity].
    destruct (nth_error _ i); reflexivity.
  - destruct (String.eqb key "length"); [reflexivity|].
    destruct (index_of_key key) as [i|]; [|reflexivity].
    rewrite forallb_forall in H.
    destruct (nth_in_or_default i elems Undefined) as [Hin | ->];
      [now apply H | reflexivity].
  - rewrite forallb_forall in H.
    destruct (lookup key props) as [w|] eqn:E; [|reflexivity].
    exact (H (key, w) (lookup_In _ _ _ E)).
Qed.

Lemma assign_Forall {A} (P : string * A -> Prop) (key : string) (v : A)
  (props : list (string * A)) :
  P (key, v) -> Forall P props -> Forall P (assign key v props).
Proof.
  intros Hv. induction 1 as [|[k w] rest Hw Hrest IH]; simpl.
  - constructor; [exact Hv | constructor].
  - destruct (String.eqb k key) eqn:E.
    + apply String.eqb_eq in E. subst k. constructor; assumption.
    + constructor; assumption.
Qed.

(** The values of the field set convert to primitives when the
    properties of the sub-report do. *)
Lemma buildFields_loop_convertible (src : value) (entries : schema) :
  known_converters entries ->
  convertible_properties src = true ->
  forall acc out,
    Forall (fun kf => convertible (fst (snd kf)) = true) acc ->
    buildFields_loop src entries acc = Normal out ->
    Forall (fun kf => convertible (fst (snd kf)) = true) out.
Proof.
  intros Hk Hp. induction entries as [|[name config] rest IH];
    intros acc out Hacc; cbn [buildFields_loop].
  { intros [= <-]. exact Hacc. }
  inversion Hk as [|? ? Hf Hk']; subst. cbn [snd] in Hf.
  unfold get_prop. destruct (is_nullish src); cbn [bind]; [discriminate|].
  set (v := get src (source_key name config)).
  destruct (is_nullish v) eqn:Hv; [now apply IH|].
  assert (Hc : forall v', match convert config with
                          | Some f => f v
                          | None => Normal v
                          end = Normal v' -> convertible v' = true).
  { intros v'. destruct (convert config) as [f|].
    - destruct (converter_shape f Hf) as [g Hg]. rewrite Hg, Hv.
      destruct (ToNumber v); cbn [bind]; [|discriminate].
      now intros [= <-].
    - intros [= <-]. now apply convertible_get. }
  destruct (match convert config with
            | Some f => f v
            | None => Normal v
            end) as [v'|e]; cbn [bind]; [|discriminate].
  destruct (is_nullish v' || Number_isNaN v'); [now apply IH|].
  apply IH; [exact Hk'|]. apply assign_Forall; [|exact Hacc].
  cbn [fst snd]. now apply Hc.
Qed.

Lemma convertible_properties_sources (src : value) (sch : schema) :
  convertible_properties src = true -> convertible_sources src sch.
Proof.
  intros H. apply Forall_forall. intros [name config] _. cbn [fst snd].
  destruct (convert config); [now apply convertible_get | exact I].
Qed.

Lemma buildFields_returns (src : value) (sch : schema) :
  is_nullish src = false ->
  known_converters sch ->
  convertible_properties src = true ->
  exists fields,
    buildFields src sch = Normal fields
    /\ Forall (fun kf => convertible (fst (snd kf)) = true) fields.
Proof.
  intros Hsrc Hk Hp.
  destruct (buildFields_loop_returns src sch Hsrc
              (converters_known_return sch Hk)
              (convertible_properties_sources src sch Hp) [])
    as (fields & Hf).
  exists fields. split; [exact Hf|].
  exact (buildFields_loop_convertible src sch Hk Hp [] fields
           (Forall_nil _) Hf).
Qed.

Lemma field_string_returns (fields : field_set) :
  Forall (fun kf => convertible (fst (snd kf)) = true) fields ->
  exists f, field_string fields = Normal f.
Proof.
  intros H. unfold field_string.
  destruct (Array_map_returns field_pair fields) as [parts ->];
    [|cbn [bind]; eauto].
  eapply Forall_impl; [|exact H]. intros [k [v t]] Hv. cbn [fst snd] in Hv.
  unfold field_pair. destruct t.
  - destruct (ToString_returns v Hv) as [x ->]. cbn [bind]. eauto.
  - destruct (ToNumber_returns v Hv) as [x ->]. cbn [bind]. eauto.
Qed.

Lemma toLineProtocol_returns (m : string) (tags : list (string * value))
  (fields : field_set) (ts : float) (t : string) :
  tag_string tags = Normal t ->
  Forall (fun kf => convertible (fst (snd kf)) = true) fields ->
  exists line, toLineProtocol m tags fields ts = Normal line.
Proof.
  intros Ht Hf. destruct (field_string_returns fields Hf) as [f Hfs].
  unfold toLineProtocol. rewrite Ht, Hfs. cbn [bind].
  destruct (String.eqb f ""); eauto.
Qed.

Lemma escapeTagValue_returns (v : value) :
  convertible v = true -> exists e, escapeTagValue v = Normal e.
Proof.
  intros H. unfold escapeTagValue.
  destruct (ToString_returns v H) as [s ->]. cbn [bind]. eauto.
Qed.

Lemma sensor_id_convertible (did : value) :
  convertible did = true -> convertible (or_else did (Str "unknown")) = true.
Proof.
  unfold or_else. destruct (ToBoolean did); auto.
Qed.

Lemma outdoor_tags_return (data : value) :
  convertible (get data "did") = true ->
  exists t, tag_string (WeatherLink.outdoor_tags data) = Normal t.
Proof.
  intros H. rewrite outdoor_tag_string.
  destruct (escapeTagValue_returns _ (sensor_id_convertible _ H)) as [e ->].
  cbn [bind]. eauto.
Qed.

Lemma airlink_tags_return (data : value) :
  convertible (get data "did") = true ->
  exists t, tag_string (AirLink.build_tags data) = Normal t.
Proof.
  intros H. rewrite airlink_tag_string.
  destruct (escapeTagValue_returns _ (sensor_id_convertible _ H)) as [e ->].
  cbn [bind]. eauto.
Qed.

(** *** The AirLink script *)

Lemma airlink_invalid_spec (payload : value) :
  AirLink.invalid payload =
  Normal (negb (ToBoolean (ts_of payload))
          || negb (ToBoolean (first_condition payload))
          || negb (strict_eq_number
                     (get (first_condition payload) "data_structure_type")
                     6)).
Proof.
  unfold AirLink.invalid, ts_of, first_condition, conditions_of.
  destruct (ToBoolean (get_opt (get_opt payload "data") "ts")) eqn:Hts;
    [|reflexivity].
  destruct (ToBoolean
              (get_opt (get_opt (get_opt payload "data") "conditions") "0"))
    eqn:Hc0; [|reflexivity].
  cbn [negb orb].
  destruct (get_opt_truthy _ _ Hts) as [Hd _].
  destruct (get_opt_truthy _ _ Hc0) as [Hc E0].
  assert (Hp : is_nullish payload = false).
  { unfold get_opt in Hd. destruct (is_nullish payload); [discriminate|auto]. }
  assert (Ed : get_opt payload "data" = get payload "data").
  { unfold get_opt. now rewrite Hp. }
  assert (Ec : get_opt (get_opt payload "data") "conditions"
               = get (get payload "data") "conditions").
  { rewrite Ed in *. unfold get_opt. now rewrite Hd. }
  rewrite Ed, Ec in *. rewrite E0 in *.
  rewrite (get_prop_get payload) by exact Hp. cbn [bind].
  rewrite (get_prop_get (get payload "data")) by exact Hd. cbn [bind].
  rewrite (get_prop_get (get (get payload "data") "conditions")) by exact Hc.
  cbn [bind].
  rewrite get_prop_get by (apply truthy_not_nullish; exact Hc0).
  reflexivity.
Qed.

(** What the AirLink script does with a payload that passes its check. *)
Lemma airlink_main_valid (payload : value) :
  ToBoolean (ts_of payload) = true ->
  ToBoolean (first_condition payload) = true ->
  strict_eq_number (get (first_condition payload) "data_structure_type") 6
  = true ->
  AirLink.main payload =
  (x <- ToNumber (ts_of payload) ;;
   fields <- buildFields (first_condition payload) AirLink.FIELD_SCHEMA ;;
   if (JSString.len fields =? 0)%Z then Normal no_valid_data_to_write
   else
     line <- toLineProtocol "air_quality"
               (AirLink.build_tags (get payload "data")) fields
               (x * 1000000000)%float ;;
     Normal {| events := [Status "green" "dot" "AirLink OK"];
               returned := Some match line with
                                | Some l => Str l
                                | None => Null
                                end |}).
Proof.
  intros Hts Hc0 H6.
  unfold AirLink.main. rewrite airlink_invalid_spec, Hts, Hc0, H6.
  cbn [negb orb bind].
  unfold ts_of, first_condition, conditions_of in *.
  destruct (get_opt_truthy _ _ Hts) as [Hd Ets].
  destruct (get_opt_truthy _ _ Hc0) as [Hc E0].
  assert (Hp : is_nullish payload = false).
  { unfold get_opt in Hd. destruct (is_nullish payload); [discriminate|auto]. }
  assert (Ed : get_opt payload "data" = get payload "data").
  { unfold get_opt. now rewrite Hp. }
  rewrite Ed in *.
  assert (Ec : get_opt (get payload "data") "conditions"
               = get (get payload "data") "conditions").
  { unfold get_opt. now rewrite Hd. }
  rewrite Ec in *. rewrite E0 in *. rewrite Ets in *.
  rewrite (get_prop_get payload) by exact Hp. cbn [bind].
  rewrite (get_prop_get (get payload "data") "conditions") by exact Hd.
  cbn [bind].
  rewrite (get_prop_get (get (get payload "data") "conditions")) by exact Hc.
  cbn [bind].
  rewrite (get_prop_get (get payload "data") "ts") by exact Hd.
  cbn [bind]. reflexivity.
Qed.

(** *** The WeatherLink script *)

(** What the WeatherLink script does with a payload that passes its
    check: the timestamp, the three searches, then the three blocks. *)
Lemma weatherlink_main_valid (payload : value) :
  ToBoolean (ts_of payload) = true ->
  ToBoolean (conditions_of payload) = true ->
  WeatherLink.main payload =
  (x <- ToNumber (ts_of payload) ;;
   outdoor_block <- Array_find (conditions_of payload)
                      WeatherLink.is_outdoor ;;
   indoor_block <- Array_find (conditions_of payload)
                     (WeatherLink.has_type 4) ;;
   bar <- Array_find (conditions_of payload) (WeatherLink.has_type 3) ;;
   lines <- WeatherLink.emit outdoor_block WeatherLink.OUTDOOR_SCHEMA
              "outdoor_conditions"
              (WeatherLink.outdoor_tags (get payload "data"))
              (x * 1000000000)%float [] ;;
   lines <- WeatherLink.emit indoor_block WeatherLink.INDOOR_SCHEMA
              "indoor_conditions"
              (WeatherLink.tags (WeatherLink.indoor WeatherLink.CONFIG))
              (x * 1000000000)%float lines ;;
   lines <- WeatherLink.emit bar WeatherLink.BAROMETER_SCHEMA "barometer"
              (WeatherLink.tags (WeatherLink.barometer WeatherLink.CONFIG))
              (x * 1000000000)%float lines ;;
   if (JSString.len lines =? 0)%Z then Normal no_valid_data_points
   else Normal (weatherlink_ok lines)).
Proof.
  intros Hts Hc. unfold WeatherLink.main.
  unfold ts_of, conditions_of in *. rewrite Hts, Hc. cbn [negb orb].
  destruct (get_opt_truthy _ _ Hts) as [Hd Ets].
  destruct (get_opt_truthy _ _ Hc) as [_ Ec].
  assert (Hp : is_nullish payload = false).
  { unfold get_opt in Hd. destruct (is_nullish payload); [discriminate|auto]. }
  assert (Ed : get_opt payload "data" = get payload "data").
  { unfold get_opt. now rewrite Hp. }
  rewrite Ed in *. rewrite Ets, Ec.
  rewrite (get_prop_get payload) by exact Hp. cbn [bind].
  rewrite (get_prop_get (get payload "data") "ts") by exact Hd. cbn [bind].
  destruct (ToNumber (get (get payload "data") "ts")) as [x|e]; cbn [bind];
    [|reflexivity].
  rewrite (get_prop_get (get payload "data") "conditions") by exact Hd.
  cbn [bind]. reflexivity.
Qed.

Lemma emit_contributes_nothing (found : completion value) (sch : schema)
  (m : string) (tg : list (string * value)) (ts : float)
  (lines : list string) (k : list string -> completion outcome) :
  contributes_nothing found sch tg ->
  (block <- found ;; lines' <- WeatherLink.emit block sch m tg ts lines ;;
   k lines')
  = k lines.
Proof.
  intros (block & -> & [Hb|[Hf [t Ht]]]); cbn [bind].
  - unfold WeatherLink.emit. rewrite Hb. reflexivity.
  - rewrite (emit_nothing _ _ _ _ _ _ t) by assumption. reflexivity.
Qed.

Lemma find_first_no_match (pred : value -> completion bool)
  (elems : list value) :
  Forall (fun c => pred c = Normal false) elems ->
  find_first pred elems = Normal Undefined.
Proof.
  induction 1 as [|c l Hc _ IH]; simpl; [reflexivity|].
  rewrite Hc. cbn [bind]. exact IH.
Qed.

Lemma weatherlink_no_lines (payload : value) (x : float) :
  ToBoolean (ts_of payload) = true ->
  ToBoolean (conditions_of payload) = true ->
  ToNumber (ts_of payload) = Normal x ->
  contributes_nothing
    (Array_find (conditions_of payload) WeatherLink.is_outdoor)
    WeatherLink.OUTDOOR_SCHEMA
    (WeatherLink.outdoor_tags (get payload "data")) ->
  contributes_nothing
    (Array_find (conditions_of payload) (WeatherLink.has_type 4))
    WeatherLink.INDOOR_SCHEMA
    (WeatherLink.tags (WeatherLink.indoor WeatherLink.CONFIG)) ->
  contributes_nothing
    (Array_find (conditions_of payload) (WeatherLink.has_type 3))
    WeatherLink.BAROMETER_SCHEMA
    (WeatherLink.tags (WeatherLink.barometer WeatherLink.CONFIG)) ->
  WeatherLink.main payload = Normal no_valid_data_points.
Proof.
  intros Hts Hc Hx Ho Hi Hb. rewrite weatherlink_main_valid by assumption.
  rewrite Hx. cbn [bind].
  destruct Ho as (ob & -> & Ho). destruct Hi as (ib & -> & Hi).
  destruct Hb as (bb & -> & Hb). cbn [bind].
  assert (He : forall block sch m tg ts lines,
             ToBoolean block = false
             \/ (buildFields block sch = Normal []
                 /\ exists t, tag_string tg = Normal t) ->
             WeatherLink.emit block sch m tg ts lines = Normal lines).
  { intros block sch m tg ts lines [H|[H [t Ht]]].
    - unfold WeatherLink.emit. now rewrite H.
    - now apply (emit_nothing _ _ _ _ _ _ t). }
  rewrite (He ob) by exact Ho. cbn [bind].
  rewrite (He ib) by exact Hi. cbn [bind].
  rewrite (He bb) by exact Hb. cbn [bind].
  reflexivity.
Qed.

(** The warning is given only when no block contributes. *)
Lemma weatherlink_no_lines_only (payload : value) :
  WeatherLink.main payload = Normal no_valid_data_points ->
  contributes_nothing
    (Array_find (conditions_of payload) WeatherLink.is_outdoor)
    WeatherLink.OUTDOOR_SCHEMA
    (WeatherLink.outdoor_tags (get payload "data"))
  /\ contributes_nothing
       (Array_find (conditions_of payload) (WeatherLink.has_type 4))
       WeatherLink.INDOOR_SCHEMA
       (WeatherLink.tags (WeatherLink.indoor WeatherLink.CONFIG))
  /\ contributes_nothing
       (Array_find (conditions_of payload) (WeatherLink.has_type 3))
       WeatherLink.BAROMETER_SCHEMA
       (WeatherLink.tags (WeatherLink.barometer WeatherLink.CONFIG)).
Proof.
  intros Hm.
  destruct (ToBoolean (ts_of payload)) eqn:Hts;
    [destruct (ToBoolean (conditions_of payload)) eqn:Hc|].
  2:{ unfold WeatherLink.main in Hm. fold (ts_of payload) in Hm.
      fold (conditions_of payload) in Hm. rewrite Hts, Hc in Hm.
      discriminate Hm. }
  2:{ unfold WeatherLink.main in Hm. fold (ts_of payload) in Hm.
      rewrite Hts in Hm. discriminate Hm. }
  rewrite weatherlink_main_valid in Hm by assumption.
  destruct (ToNumber (ts_of payload)) as [x|]; cbn [bind] in Hm;
    [|discriminate].
  destruct (Array_find _ WeatherLink.is_outdoor) as [ob|]; cbn [bind] in Hm;
    [|discriminate].
  destruct (Array_find _ (WeatherLink.has_type 4)) as [ib|];
    cbn [bind] in Hm; [|discriminate].
  destruct (Array_find _ (WeatherLink.has_type 3)) as [bb|];
    cbn [bind] in Hm; [|discriminate].
  destruct (WeatherLink.emit ob _ _ _ _ _) as [l1|] eqn:E1;
    cbn [bind] in Hm; [|discriminate].
  destruct (WeatherLink.emit ib _ _ _ _ _) as [l2|] eqn:E2;
    cbn [bind] in Hm; [|discriminate].
  destruct (WeatherLink.emit bb _ _ _ _ _) as [l3|] eqn:E3;
    cbn [bind] in Hm; [|discriminate].
  assert (H3 : l3 = []).
  { destruct l3; [reflexivity|]. discriminate Hm. }
  subst l3.
  assert (Hstep : forall block sch m tg ts lines,
             WeatherLink.emit block sch m tg ts lines = Normal [] ->
             lines = []
             /\ contributes_nothing (Normal block) sch tg).
  { intros block sch m tg ts lines H.
    destruct (emit_Normal _ _ _ _ _ _ _ H)
      as [[Hb <-]|(Hb & fields & t & f & Hf & Ht & Hfs
                   & [[-> <-]|[Hne Hl]])].
    - split; [reflexivity|]. exists block. auto.
    - split; [reflexivity|]. exists block. split; [reflexivity|].
      right. eauto.
    - destruct lines; discriminate Hl. }
  destruct (Hstep _ _ _ _ _ _ E3) as [-> Cb].
  destruct (Hstep _ _ _ _ _ _ E2) as [-> Ci].
  destruct (Hstep _ _ _ _ _ _ E1) as [_ Co].
  auto.
Qed.

(** Every line a block adds is the line of a field set that is not
    empty. *)
Lemma emit_lines (block : value) (sch : schema) (m : string)
  (tg : list (string * value)) (ts : float) (lines lines' : list string) :
  WeatherLink.emit block sch m tg ts lines = Normal lines' ->
  lines' = lines
  \/ exists fields t f,
       buildFields block sch = Normal fields /\ fields <> []
       /\ tag_string tg = Normal t /\ field_string fields = Normal f
       /\ lines' = (lines ++ [(m ++ "," ++ t ++ " " ++ f ++ " "
                               ++ JSNumber.toString ts)%string])%list.
Proof.
  intros H.
  destruct (emit_Normal _ _ _ _ _ _ _ H)
    as [[_ ->]|(_ & fields & t & f & Hf & Ht & Hfs & [[_ ->]|[Hne ->]])];
    auto.
  right. exists fields, t, f. auto.
Qed.

Lemma emit_nonempty (block : value) (sch : schema) (m : string)
  (tg : list (string * value)) (ts : float) (lines lines' : list string) :
  WeatherLink.emit block sch m tg ts lines = Normal lines' ->
  Forall (fun l => l <> "") lines -> Forall (fun l => l <> "") lines'.
Proof.
  intros H Hall.
  apply emit_lines in H as [->|(fields & t & f & _ & _ & _ & _ & ->)];
    [exact Hall|].
  apply Forall_app. split; [exact Hall|].
  constructor; [apply line_nonempty | constructor].
Qed.

(** The outcomes of the WeatherLink script on a payload that passes its
    check: an exception, the no-data warning, or lines that are not
    empty. *)
Lemma weatherlink_outcomes (payload : value) (o : outcome) :
  ToBoolean (ts_of payload) = true ->
  ToBoolean (conditions_of payload) = true ->
  WeatherLink.main payload = Normal o ->
  o = no_valid_data_points
  \/ exists l lines,
       Forall (fun l => l <> "") (l :: lines)
       /\ o = {| events :=
                   [Status "green" "dot"
                      (JSNumber.toString
                         (JSNumber.of_Z (JSString.len (l :: lines)))
                       ++ " points")];
                 returned := Some (Str (JSString.join newline (l :: lines)))
              |}.
Proof.
  intros Hts Hc. rewrite weatherlink_main_valid by assumption.
  destruct (ToNumber (ts_of payload)) as [x|]; cbn [bind]; [|discriminate].
  destruct (Array_find _ WeatherLink.is_outdoor) as [ob|]; cbn [bind];
    [|discriminate].
  destruct (Array_find _ (WeatherLink.has_type 4)) as [ib|]; cbn [bind];
    [|discriminate].
  destruct (Array_find _ (WeatherLink.has_type 3)) as [bb|]; cbn [bind];
    [|discriminate].
  destruct (WeatherLink.emit ob _ _ _ _ _) as [l1|] eqn:E1; cbn [bind];
    [|discriminate].
  destruct (WeatherLink.emit ib _ _ _ _ _) as [l2|] eqn:E2; cbn [bind];
    [|discriminate].
  destruct (WeatherLink.emit bb _ _ _ _ _) as [l3|] eqn:E3; cbn [bind];
    [|discriminate].
  assert (H3 : Forall (fun l => l <> "") l3).
  { eapply emit_nonempty; [exact E3|]. eapply emit_nonempty; [exact E2|].
    eapply emit_nonempty; [exact E1|]. constructor. }
  destruct l3 as [|l lines]; unfold weatherlink_ok;
    cbn -[JSNumber.toString JSString.join].
  - intros [= <-]. auto.
  - intros [= <-]. right. exists l, lines. split; [exact H3 | reflexivity].
Qed.

Lemma weatherlink_invalid_iff (payload : value) :
  WeatherLink.main payload = Normal invalid_payload
  <-> (falsy (ts_of payload) \/ falsy (conditions_of payload)).
Proof.
  unfold falsy. split.
  - intros H.
    destruct (ToBoolean (ts_of payload)) eqn:Hts; [|auto].
    destruct (ToBoolean (conditions_of payload)) eqn:Hc; [|auto].
    exfalso.
    destruct (weatherlink_outcomes payload _ Hts Hc H)
      as [E|(l & lines & _ & E)]; discriminate E.
  - intros H. unfold WeatherLink.main. fold (ts_of payload).
    fold (conditions_of payload).
    destruct H as [-> | ->]; [reflexivity|].
    now rewrite Bool.orb_true_r.
Qed.

Lemma airlink_invalid_if (payload : value) :
  falsy (ts_of payload) \/ falsy (first_condition payload)
  \/ strict_eq_number (get (first_condition payload) "data_structure_type") 6
     = false ->
  AirLink.main payload = Normal invalid_airlink.
Proof.
  unfold falsy, AirLink.main. rewrite airlink_invalid_spec.
  intros [-> | [-> | ->]]; cbn [negb orb bind];
    rewrite ?Bool.orb_true_r; reflexivity.
Qed.

(** The outcomes of the AirLink script when it returns. *)
Lemma airlink_outcomes (payload : value) (o : outcome) :
  AirLink.main payload = Normal o ->
  (o = invalid_airlink
   /\ (falsy (ts_of payload) \/ falsy (first_condition payload)
       \/ strict_eq_number
            (get (first_condition payload) "data_structure_type") 6
          = false))
  \/ (ToBoolean (ts_of payload) = true
      /\ ToBoolean (first_condition payload) = true
      /\ strict_eq_number
           (get (first_condition payload) "data_structure_type") 6 = true
      /\ exists x fields,
           ToNumber (ts_of payload) = Normal x
           /\ buildFields (first_condition payload) AirLink.FIELD_SCHEMA
              = Normal fields
           /\ ((fields = [] /\ o = no_valid_data_to_write)
               \/ (fields <> []
                   /\ exists t f,
                        tag_string (AirLink.build_tags (get payload "data"))
                        = Normal t
                        /\ field_string fields = Normal f
                        /\ o = airlink_ok
                                 ("air_quality," ++ t ++ " " ++ f ++ " "
                                  ++ JSNumber.toString
                                       (x * 1000000000)%float)))).
Proof.
  unfold falsy.
  destruct (ToBoolean (ts_of payload)) eqn:Hts;
    [destruct (ToBoolean (first_condition payload)) eqn:Hc0;
     [destruct (strict_eq_number
                  (get (first_condition payload) "data_structure_type") 6)
        eqn:H6|]|].
  - rewrite airlink_main_valid by assumption.
    destruct (ToNumber (ts_of payload)) as [x|]; cbn [bind]; [|discriminate].
    destruct (buildFields _ _) as [fields|]; cbn [bind]; [|discriminate].
    intros H. right. split; [reflexivity|]. split; [reflexivity|].
    split; [reflexivity|]. exists x, fields.
    split; [reflexivity|]. split; [reflexivity|].
    destruct fields as [|kf rest].
    + left. injection H as <-. auto.
    + right. split; [discriminate|]. revert H.
      change (JSString.len (kf :: rest) =? 0) with false. cbv iota.
      destruct (toLineProtocol _ _ _ _) as [line|] eqn:Hl; cbn [bind];
        [|discriminate].
      intros [= <-].
      destruct (toLineProtocol_Normal _ _ _ _ _ Hl)
        as (t & f & Ht & Hf & ->).
      exists t, f. split; [exact Ht|]. split; [exact Hf|].
      destruct (String.eqb f "") eqn:E; [|reflexivity].
      apply String.eqb_eq in E. subst f.
      apply field_string_empty in Hf. discriminate.
  - rewrite airlink_invalid_if by auto. intros [= <-]. auto.
  - rewrite airlink_invalid_if by (unfold falsy; auto). intros [= <-]. auto.
  - rewrite airlink_invalid_if by (unfold falsy; auto). intros [= <-]. auto.
Qed.

Lemma airlink_invalid_iff (payload : value) :
  AirLink.main payload = Normal invalid_airlink
  <-> (falsy (ts_of payload) \/ falsy (first_condition payload)
       \/ strict_eq_number
            (get (first_condition payload) "data_structure_type") 6
          = false).
Proof.
  split; [|apply airlink_invalid_if].
  intros H.
  destruct (airlink_outcomes payload _ H)
    as [[_ Hc]|(_ & _ & _ & x & fields & _ & _
                & [[_ E]|(_ & t & f & _ & _ & E)])];
    [exact Hc | discriminate E | discriminate E].
Qed.

(** The AirLink script returns when the values it converts are
    converted: the timestamp, the device id and the properties of the
    first sub-report. *)
Lemma airlink_returns (payload : value) :
  convertible (ts_of payload) = true ->
  convertible (get (get payload "data") "did") = true ->
  convertible_properties (first_condition payload) = true ->
  exists o, AirLink.main payload = Normal o.
Proof.
  intros Hts Hdid Hp.
  destruct (ToBoolean (ts_of payload)) eqn:Bts;
    [destruct (ToBoolean (first_condition payload)) eqn:Bc0;
     [destruct (strict_eq_number
                  (get (first_condition payload) "data_structure_type") 6)
        eqn:H6|]|];
    try (rewrite airlink_invalid_if by (unfold falsy; auto); eauto; fail).
  rewrite airlink_main_valid by assumption.
  destruct (ToNumber_returns _ Hts) as [x ->]. cbn [bind].
  destruct (buildFields_returns (first_condition payload)
              AirLink.FIELD_SCHEMA (truthy_not_nullish _ Bc0)
              FIELD_SCHEMA_known Hp) as (fields & -> & Hconv).
  cbn [bind]. destruct (JSString.len fields =? 0); [eauto|].
  destruct (airlink_tags_return (get payload "data") Hdid) as [t Ht].
  destruct (toLineProtocol_returns "air_quality" _ fields
              (x * 1000000000)%float t Ht Hconv) as [line ->].
  cbn [bind]. eauto.
Qed.

(** *** The claims about the scripts *)

(** C4. A record with no field is never written. The encoder returns a
    line only for a field set that is not empty, and returns null for the
    empty field set whenever its tag section is built (the tag section is
    built first, and a tag value ToString throws for raises); in the
    WeatherLink script a block whose extraction is empty then leaves the
    lines as they were, and every line a block adds is the line of a field
    set that is not empty; the AirLink script returns null, with its
    warning, when the extraction of its sub-report is empty and data.ts
    converts to a number, and the line it returns otherwise is the line
    of a field set that is not empty. *)
Theorem zero_fields_no_line :
  (forall m tags fields ts line,
      toLineProtocol m tags fields ts = Normal (Some line) -> fields <> [])
  /\ (forall m tags fields ts,
        toLineProtocol m tags fields ts = Normal None
        <-> fields = [] /\ exists t, tag_string tags = Normal t)
  /\ (forall m tags ts,
        toLineProtocol m tags [] ts = (t <- tag_string tags ;; Normal None))
  /\ (forall block sch m tg ts lines t,
         buildFields block sch = Normal [] ->
         tag_string tg = Normal t ->
         WeatherLink.emit block sch m tg ts lines = Normal lines)
  /\ (forall block sch m tg ts lines lines',
         WeatherLink.emit block sch m tg ts lines = Normal lines' ->
         lines' = lines
         \/ exists fields t f,
              buildFields block sch = Normal fields /\ fields <> []
              /\ tag_string tg = Normal t /\ field_string fields = Normal f
              /\ lines' = (lines ++ [(m ++ "," ++ t ++ " " ++ f ++ " "
                                      ++ JSNumber.toString ts)%string])%list)
  /\ (forall payload x,
         ToNumber (ts_of payload) = Normal x ->
         buildFields (first_condition payload) AirLink.FIELD_SCHEMA
         = Normal [] ->
         exists o, AirLink.main payload = Normal o /\ returned o = None)
  /\ (forall payload o line,
         AirLink.main payload = Normal o ->
         returned o = Some line ->
         exists x fields t f,
           ToNumber (ts_of payload) = Normal x
           /\ buildFields (first_condition payload) AirLink.FIELD_SCHEMA
              = Normal fields
           /\ fields <> []
           /\ tag_string (AirLink.build_tags (get payload "data")) = Normal t
           /\ field_string fields = Normal f
           /\ line = Str ("air_quality," ++ t ++ " " ++ f ++ " "
                          ++ JSNumber.toString (x * 1000000000)%float)).
Proof.
  split.
  { intros m tags fields ts line H ->.
    rewrite toLineProtocol_nil in H.
    destruct (tag_string tags); discriminate. }
  split; [exact toLineProtocol_None|].
  split; [exact toLineProtocol_nil|].
  split; [exact emit_nothing|].
  split; [exact emit_lines|].
  split.
  - intros payload x Hx Hf.
    destruct (ToBoolean (ts_of payload)) eqn:Bts;
      [destruct (ToBoolean (first_condition payload)) eqn:Bc0;
       [destruct (strict_eq_number
                    (get (first_condition payload) "data_structure_type") 6)
          eqn:H6|]|];
      try (rewrite airlink_invalid_if by (unfold falsy; auto);
           eexists; split; reflexivity).
    rewrite airlink_main_valid by assumption. rewrite Hx, Hf. cbn.
    eexists. split; reflexivity.
  - intros payload o line Hm Hr.
    destruct (airlink_outcomes payload o Hm)
      as [[-> _]|(_ & _ & _ & x & fields & Hx & Hf
                  & [[_ ->]|(Hne & t & f & Ht & Hfs & ->)])];
      [discriminate Hr | discriminate Hr |].
    injection Hr as <-. exists x, fields, t, f. auto 6.
Qed.

(** C4 at an AirLink reading without a value for any field. *)
Lemma zero_fields_no_line_witness :
  ToNumber (ts_of sample_airlink_empty) = Normal 1700000000%float
  /\ buildFields (first_condition sample_airlink_empty) AirLink.FIELD_SCHEMA
     = Normal []
  /\ exists o,
       AirLink.main sample_airlink_empty = Normal o /\ returned o = None.
Proof.
  assert (Hx : ToNumber (ts_of sample_airlink_empty)
               = Normal 1700000000%float) by reflexivity.
  assert (H : buildFields (first_condition sample_airlink_empty)
                AirLink.FIELD_SCHEMA = Normal [])
    by (vm_compute; reflexivity).
  split; [exact Hx|]. split; [exact H|].
  exact (proj1 (proj2 (proj2 (proj2 (proj2 (proj2 zero_fields_no_line)))))
           sample_airlink_empty _ Hx H).
Defined.

(** C8, as the code has it. The WeatherLink script reports the warning
    "Invalid payload structure" and returns null exactly when data.ts or
    data.conditions is missing or falsy (null, false, 0, NaN or the empty
    string); the AirLink script reports "Invalid AirLink JSON structure -
    skipped" and returns null exactly when data.ts is missing or falsy, or
    the first element of data.conditions is missing or falsy, or its
    data_structure_type is not the number 6; the check of the AirLink
    script never raises, and a payload a check rejects is answered by the
    warning, not by an exception. *)
Theorem structural_validation :
  (forall payload,
      WeatherLink.main payload = Normal invalid_payload
      <-> (falsy (ts_of payload) \/ falsy (conditions_of payload)))
  /\ (forall payload,
         AirLink.main payload = Normal invalid_airlink
         <-> (falsy (ts_of payload) \/ falsy (first_condition payload)
              \/ strict_eq_number
                   (get (first_condition payload) "data_structure_type") 6
                 = false))
  /\ (forall payload, exists b, AirLink.invalid payload = Normal b)
  /\ (forall v,
         falsy v <->
         v = Undefined \/ v = Null \/ v = Bool false \/ v = Str ""
         \/ exists x, v = Number x /\ (is_zero x || is_nan x) = true)
  /\ (forall props key,
         lookup key props = None -> get (Object props) key = Undefined)
  /\ returned invalid_payload = None
  /\ returned invalid_airlink = None.
Proof.
  split; [exact weatherlink_invalid_iff|].
  split; [exact airlink_invalid_iff|].
  split; [intros payload; rewrite airlink_invalid_spec; eauto|].
  split; [exact falsy_values|].
  split; [exact missing_key_undefined|].
  split; reflexivity.
Qed.

(** C8 at a payload without ts. *)
Lemma structural_validation_witness :
  falsy (ts_of (Object [("data", Object [("conditions", Array [])])]))
  /\ WeatherLink.main (Object [("data", Object [("conditions", Array [])])])
     = Normal invalid_payload.
Proof.
  assert (H : falsy (ts_of (Object [("data",
                                      Object [("conditions", Array [])])])))
    by reflexivity.
  split; [exact H|].
  apply (proj1 structural_validation). left. exact H.
Defined.

(** C8, the counterexample: a reading at the epoch, with ts = 0 and its
    conditions, has both keys and is still reported as an invalid
    structure. *)
Lemma epoch_reading_rejected :
  get (get sample_epoch_payload "data") "ts" = Number 0
  /\ get (get sample_epoch_payload "data") "conditions"
     = Array [sample_outdoor]
  /\ WeatherLink.main sample_epoch_payload = Normal invalid_payload.
Proof.
  repeat split; vm_compute; reflexivity.
Qed.

(** C9, as the code has it. When the lines collected are none, the
    conversion reports its no-data warning and returns null: in the
    WeatherLink script when data.ts converts to a number and each of the
    three searches (outdoor, indoor, barometer) finds no block or a block
    whose extraction is empty (its tag section being built), which is the
    case of the outdoor search when no element of conditions has
    data_structure_type 1 and txid 1, and in no other case; in the
    AirLink script when data.ts converts to a number and the extraction
    of its sub-report is empty. A missing outdoor sub-report alone does
    not give the warning: the indoor and barometer blocks are still
    written. A run that returns a message returns a payload that is not
    the empty string. *)
Theorem no_valid_data_signal :
  (forall payload x,
      ToBoolean (ts_of payload) = true ->
      ToBoolean (conditions_of payload) = true ->
      ToNumber (ts_of payload) = Normal x ->
      contributes_nothing
        (Array_find (conditions_of payload) WeatherLink.is_outdoor)
        WeatherLink.OUTDOOR_SCHEMA
        (WeatherLink.outdoor_tags (get payload "data")) ->
      contributes_nothing
        (Array_find (conditions_of payload) (WeatherLink.has_type 4))
        WeatherLink.INDOOR_SCHEMA
        (WeatherLink.tags (WeatherLink.indoor WeatherLink.CONFIG)) ->
      contributes_nothing
        (Array_find (conditions_of payload) (WeatherLink.has_type 3))
        WeatherLink.BAROMETER_SCHEMA
        (WeatherLink.tags (WeatherLink.barometer WeatherLink.CONFIG)) ->
      WeatherLink.main payload = Normal no_valid_data_points)
  /\ (forall payload,
         WeatherLink.main payload = Normal no_valid_data_points ->
         contributes_nothing
           (Array_find (conditions_of payload) WeatherLink.is_outdoor)
           WeatherLink.OUTDOOR_SCHEMA
           (WeatherLink.outdoor_tags (get payload "data"))
         /\ contributes_nothing
              (Array_find (conditions_of payload) (WeatherLink.has_type 4))
              WeatherLink.INDOOR_SCHEMA
              (WeatherLink.tags (WeatherLink.indoor WeatherLink.CONFIG))
         /\ contributes_nothing
              (Array_find (conditions_of payload) (WeatherLink.has_type 3))
              WeatherLink.BAROMETER_SCHEMA
              (WeatherLink.tags (WeatherLink.barometer WeatherLink.CONFIG)))
  /\ (forall pred elems sch tg,
         Forall (fun c => pred c = Normal false) elems ->
         contributes_nothing (Array_find (Array elems) pred) sch tg)
  /\ (forall payload o,
         WeatherLink.main payload = Normal o ->
         returned o = None
         \/ exists s, returned o = Some (Str s) /\ s <> "")
  /\ (forall payload x,
         ToBoolean (ts_of payload) = true ->
         ToBoolean (first_condition payload) = true ->
         strict_eq_number
           (get (first_condition payload) "data_structure_type") 6 = true ->
         ToNumber (ts_of payload) = Normal x ->
         buildFields (first_condition payload) AirLink.FIELD_SCHEMA
         = Normal [] ->
         AirLink.main payload = Normal no_valid_data_to_write)
  /\ (forall payload o,
         AirLink.main payload = Normal o ->
         returned o = None
         \/ exists s, returned o = Some (Str s) /\ s <> "")
  /\ events no_valid_data_points = [Warn "No valid data points"]
  /\ returned no_valid_data_points = None
  /\ returned no_valid_data_to_write = None.
Proof.
  split; [exact weatherlink_no_lines|].
  split; [exact weatherlink_no_lines_only|].
  split.
  { intros pred elems sch tg H. exists Undefined. split; [|auto].
    now apply find_first_no_match. }
  split.
  { intros payload o Hm.
    destruct (ToBoolean (ts_of payload)) eqn:Hts;
      [destruct (ToBoolean (conditions_of payload)) eqn:Hc|].
    - destruct (weatherlink_outcomes payload o Hts Hc Hm)
        as [->|(l & lines & Hall & ->)]; [auto|].
      right. eexists. split; [reflexivity|].
      apply join_nonempty. now inversion Hall.
    - rewrite (proj2 (weatherlink_invalid_iff payload)) in Hm
        by (right; exact Hc).
      injection Hm as <-. auto.
    - rewrite (proj2 (weatherlink_invalid_iff payload)) in Hm
        by (left; exact Hts).
      injection Hm as <-. auto. }
  split.
  { intros payload x Hts Hc0 H6 Hx Hf.
    rewrite airlink_main_valid by assumption. rewrite Hx, Hf. reflexivity. }
  split.
  { intros payload o Hm.
    destruct (airlink_outcomes payload o Hm)
      as [[-> _]|(_ & _ & _ & x & fields & _ & _
                  & [[_ ->]|(_ & t & f & _ & _ & ->)])]; [auto | auto |].
    right. eexists. split; [reflexivity|]. discriminate. }
  repeat split.
Qed.

(** C9 at a reading whose only sub-report is of transmitter 2. *)
Lemma no_valid_data_signal_witness :
  ToBoolean (ts_of sample_no_match_payload) = true
  /\ ToBoolean (conditions_of sample_no_match_payload) = true
  /\ ToNumber (ts_of sample_no_match_payload) = Normal 1700000000%float
  /\ contributes_nothing
       (Array_find (conditions_of sample_no_match_payload)
          WeatherLink.is_outdoor) WeatherLink.OUTDOOR_SCHEMA
       (WeatherLink.outdoor_tags (get sample_no_match_payload "data"))
  /\ WeatherLink.main sample_no_match_payload = Normal no_valid_data_points.
Proof.
  assert (Ho : contributes_nothing
                 (Array_find (conditions_of sample_no_match_payload)
                    WeatherLink.is_outdoor) WeatherLink.OUTDOOR_SCHEMA
                 (WeatherLink.outdoor_tags
                    (get sample_no_match_payload "data"))).
  { exists Undefined. split; [vm_compute; reflexivity | auto]. }
  split; [reflexivity|]. split; [reflexivity|]. split; [reflexivity|].
  split; [exact Ho|].
  apply (proj1 no_valid_data_signal sample_no_match_payload
           1700000000%float);
    [reflexivity | reflexivity | reflexivity | exact Ho | |];
    (exists Undefined; split; [vm_compute; reflexivity | auto]).
Defined.

(** C9, the counterexample: a reading with no outdoor sub-report and an
    indoor one.  No element of conditions matches the outdoor
    discriminator, and the run writes the indoor line: no warning, no
    null. *)
Lemma no_outdoor_entry_still_writes :
  Forall (fun c => WeatherLink.is_outdoor c = Normal false)
    [Object [("data_structure_type", Number 4); ("temp_in", Number 72.3)]]
  /\ conditions_of sample_indoor_only
     = Array [Object [("data_structure_type", Number 4);
                      ("temp_in", Number 72.3)]]
  /\ Array_find (conditions_of sample_indoor_only) WeatherLink.is_outdoor
     = Normal Undefined
  /\ WeatherLink.main sample_indoor_only
     = Normal {|
         events := [Status "green" "dot" "1 points"];
         returned :=
           Some (Str ("indoor_conditions,friendly_name=Davis\ Indoor\ Console,"
                      ++ "location=indoor,source=davis temp_in=22.4 "
                      ++ "1700000000000000000")) |}.
Proof.
  split; [repeat constructor|].
  repeat split; vm_compute; reflexivity.
Qed.

(** C10, as the code has it. The sensor_id tag of the outdoor record and
    of the AirLink record is data.did when data.did is truthy, and the
    string unknown when data.did is absent, null or otherwise falsy (the
    empty string, 0, NaN, false); it is written into the tag string
    escaped like every tag value. *)
Theorem sensor_id_tag (data : value) :
  lookup "sensor_id" (WeatherLink.outdoor_tags data)
  = Some (sensor_id_of (get data "did"))
  /\ lookup "sensor_id" (AirLink.build_tags data)
     = Some (sensor_id_of (get data "did"))
  /\ (ToBoolean (get data "did") = true ->
      sensor_id_of (get data "did") = get data "did")
  /\ (falsy (get data "did") ->
      sensor_id_of (get data "did") = Str "unknown")
  /\ (forall props,
         lookup "did" props = None ->
         sensor_id_of (get (Object props) "did") = Str "unknown")
  /\ (forall props s,
         lookup "did" props = Some (Str s) -> s <> "" ->
         sensor_id_of (get (Object props) "did") = Str s)
  /\ tag_string (WeatherLink.outdoor_tags data)
     = (e <- escapeTagValue (sensor_id_of (get data "did")) ;;
        Normal ("friendly_name=Davis\ Outdoor\ ISS,location=outside,sensor_id="
                ++ e ++ ",source=davis"))
  /\ tag_string (AirLink.build_tags data)
     = (e <- escapeTagValue (sensor_id_of (get data "did")) ;;
        Normal ("friendly_name=Davis\ AirLink,location=outside,sensor_id="
                ++ e ++ ",source=davis_airlink"))
  /\ (forall s,
        get data "did" = Str s -> s <> "" ->
        tag_string (WeatherLink.outdoor_tags data)
        = Normal ("friendly_name=Davis\ Outdoor\ ISS,location=outside,"
                  ++ "sensor_id=" ++ escape_chars s ++ ",source=davis")
        /\ tag_string (AirLink.build_tags data)
           = Normal ("friendly_name=Davis\ AirLink,location=outside,"
                     ++ "sensor_id=" ++ escape_chars s
                     ++ ",source=davis_airlink")).
Proof.
  split; [reflexivity|]. split; [reflexivity|].
  split; [unfold sensor_id_of; now intros ->|].
  split; [unfold sensor_id_of, falsy; now intros ->|].
  split.
  { intros props H. simpl. now rewrite H. }
  split.
  { intros props s H Hs. simpl. rewrite H. unfold sensor_id_of. simpl.
    apply String.eqb_neq in Hs. now rewrite Hs. }
  split; [apply outdoor_tag_string|]. split; [apply airlink_tag_string|].
  intros s Hd Hs. rewrite outdoor_tag_string, airlink_tag_string, Hd.
  unfold or_else. cbn [ToBoolean]. apply String.eqb_neq in Hs. rewrite Hs.
  cbn [negb]. unfold escapeTagValue. cbn [ToString bind].
  rewrite escape_string_chars. split; reflexivity.
Qed.

(** C10 at a device id that is present and not empty. *)
Lemma sensor_id_tag_witness :
  ToBoolean (get (Object [("did", Str "001D0A714F02")]) "did") = true
  /\ sensor_id_of (get (Object [("did", Str "001D0A714F02")]) "did")
     = Str "001D0A714F02".
Proof.
  split; [reflexivity|].
  apply (proj1 (proj2 (proj2
           (sensor_id_tag (Object [("did", Str "001D0A714F02")]))))).
  reflexivity.
Defined.

(** C10, the counterexample: a reading whose did is present and is the
    empty string is tagged sensor_id=unknown. *)
Lemma empty_device_id_is_unknown :
  get (get sample_airlink_payload "data") "did" = Str ""
  /\ lookup "sensor_id"
       (AirLink.build_tags (get sample_airlink_payload "data"))
     = Some (Str "unknown")
  /\ lookup "sensor_id"
       (WeatherLink.outdoor_tags (get sample_airlink_payload "data"))
     = Some (Str "unknown")
  /\ AirLink.main sample_airlink_payload
     = Normal {|
         events := [Status "green" "dot" "AirLink OK"];
         returned :=
           Some (Str ("air_quality,friendly_name=Davis\ AirLink,"
                      ++ "location=outside,sensor_id=unknown,"
                      ++ "source=davis_airlink hum=50 1700000000000000000"))
       |}.
Proof.
  repeat split; vm_compute; reflexivity.
Qed.

(** *** Runs *)

(** The outdoor line of the README's output example. *)
Example readme_outdoor_line :
  WeatherLink.main readme_payload
  = Normal {|
      events := [Status "green" "dot" "1 points"];
      returned :=
        Some (Str ("outdoor_conditions,friendly_name=Davis\ Outdoor\ ISS,"
                   ++ "location=outside,sensor_id=001D0A714F02,source=davis "
                   ++ "temp=0.5,hum=75.5,dew_point=-3.3,wind_speed_last=2.68,"
                   ++ "wind_dir_last=180i,solar_rad=46i,uv_index=0.3 "
                   ++ "1767276499000000000")) |}.
Proof.
  vm_compute. reflexivity.
Qed.

(** Past its check the WeatherLink script searches [data.conditions] with
    [find]: conditions that are truthy and no array, or that hold a null,
    raise a TypeError. *)
Example conditions_not_an_array :
  WeatherLink.main
    (Object [("data", Object [("ts", Number 1700000000);
                              ("conditions", Str "none")])])
  = Throw (TypeError "find is not a function")
  /\ WeatherLink.main
       (Object [("data", Object [("ts", Number 1700000000);
                                 ("conditions", Array [Null])])])
     = Throw (TypeError "Cannot read properties of null").
Proof.
  split; vm_compute; reflexivity.
Qed.

(** A value that does not convert to a primitive raises where the
    scripts convert it: as the timestamp, as the device id of a record
    that is written, as a field with a converter, and as an Integer field
    when its line is written. *)
Example unconvertible_values_raise :
  WeatherLink.main
    (Object [("data", Object [("ts", unconvertible_object);
                              ("conditions", Array [])])])
  = Throw cannot_convert
  /\ AirLink.main
       (Object [("data",
                 Object [("ts", Number 1700000000);
                         ("did", unconvertible_object);
                         ("conditions",
                          Array [Object [("data_structure_type", Number 6);
                                         ("hum", Number 50)]])])])
     = Throw cannot_convert
  /\ WeatherLink.main
       (Object [("data",
                 Object [("ts", Number 1700000000);
                         ("conditions",
                          Array [Object [("data_structure_type", Number 4);
                                         ("temp_in",
                                          unconvertible_object)]])])])
     = Throw cannot_convert
  /\ AirLink.main
       (Object [("data",
                 Object [("ts", Number 1700000000);
                         ("conditions",
                          Array [Object [("data_structure_type", Number 6);
                                         ("pm_1_last",
                                          unconvertible_object)]])])])
     = Throw cannot_convert.
Proof.
  repeat split; vm_compute; reflexivity.
Qed.

End Scripts.


(** ** More on the field extractor *)

Section ExtractorMore.
Import JS Common Props More.

Lemma buildFields_loop_app (src : value) (s1 s2 : schema) :
  forall acc,
    buildFields_loop src (s1 ++ s2)%list acc =
    (r <- buildFields_loop src s1 acc ;; buildFields_loop src s2 r).
Proof.
  induction s1 as [|[name config] rest IH]; intros acc; [reflexivity|].
  cbn [app buildFields_loop].
  destruct (get_prop src (source_key name config)) as [v|e]; cbn [bind];
    [|reflexivity].
  destruct (is_nullish v); [apply IH|].
  destruct (match convert config with
            | Some f => f v
            | None => Normal v
            end) as [v'|e]; cbn [bind]; [|reflexivity].
  destruct (is_nullish v' || Number_isNaN v'); apply IH.
Qed.

Lemma buildFields_agree (src1 src2 : value) (sch : schema) :
  is_nullish src1 = false ->
  is_nullish src2 = false ->
  agree_on sch src1 src2 ->
  forall acc, buildFields_loop src1 sch acc = buildFields_loop src2 sch acc.
Proof.
  intros H1 H2. induction sch as [|[name config] rest IH]; intros Hag acc;
    [reflexivity|].
  cbn [buildFields_loop]. unfold get_prop. rewrite H1, H2. cbn [bind].
  rewrite (Hag name config) by (simpl; auto).
  assert (Hrest : agree_on rest src1 src2).
  { intros n c Hin. apply Hag. simpl. auto. }
  destruct (is_nullish (get src2 (source_key name config)));
    [now apply IH|].
  destruct (match convert config with
            | Some f => f (get src2 (source_key name config))
            | None => Normal (get src2 (source_key name config))
            end) as [v'|e]; cbn [bind]; [|reflexivity].
  destruct (is_nullish v' || Number_isNaN v'); now apply IH.
Qed.

Lemma converter_of_nan (f : value -> completion value) (v : value) :
  In f converters ->
  is_nullish v = false ->
  ToNumber v = Normal nan ->
  f v = Normal (Number nan).
Proof.
  unfold converters. cbn [In].
  intros [<-|[<-|[<-|[<-|[<-|[<-|[]]]]]]] Hv Hn;
    unfold WeatherLink.fahrenheitToCelsius, AirLink.fahrenheitToCelsius,
      Common.fahrenheitToCelsius, WeatherLink.inHgToHPa,
      WeatherLink.inHgToHPaTrend, WeatherLink.mphToMs, WeatherLink.tipsToMm;
    rewrite Hv, Hn; vm_compute; reflexivity.
Qed.

(** X1. The fields of a field set stand in the order of the schema's
    declarations, each name at most once: for a schema with distinct names
    the names of the result are the schema's names with some left out. *)
Theorem fields_in_schema_order (src : value) (sch : schema)
  (fields : field_set) :
  NoDup (map fst sch) ->
  buildFields src sch = Normal fields ->
  in_order (map fst fields) (map fst sch)
  /\ NoDup (map fst fields)
  /\ (List.length fields <= List.length sch)%nat.
Proof.
  intros Hnd H.
  pose proof (buildFields_names_in_order src sch Hnd fields H) as Ho.
  split; [exact Ho|]. split.
  - eapply in_order_NoDup; eassumption.
  - apply in_order_length in Ho. now rewrite !length_map in Ho.
Qed.

(** X1 at the sample outdoor sub-report. *)
Lemma fields_in_schema_order_witness :
  NoDup (map fst WeatherLink.OUTDOOR_SCHEMA)
  /\ buildFields sample_outdoor WeatherLink.OUTDOOR_SCHEMA
     = Normal [("temp", (Number 0, TFloat)); ("hum", (Number 50, TFloat));
               ("wind_dir_last", (Number 180.9, TInt))]
  /\ in_order ["temp"; "hum"; "wind_dir_last"]
       (map fst WeatherLink.OUTDOOR_SCHEMA).
Proof.
  assert (Hnd : NoDup (map fst WeatherLink.OUTDOOR_SCHEMA))
    by (apply distinct_NoDup; vm_compute; reflexivity).
  assert (Hb : buildFields sample_outdoor WeatherLink.OUTDOOR_SCHEMA
               = Normal [("temp", (Number 0, TFloat));
                         ("hum", (Number 50, TFloat));
                         ("wind_dir_last", (Number 180.9, TInt))])
    by (vm_compute; reflexivity).
  split; [exact Hnd|]. split; [exact Hb|].
  exact (proj1 (fields_in_schema_order _ _ _ Hnd Hb)).
Defined.

(** X2. The schema is a projection: two sub-reports that read the same
    under every source key of the schema give the same result, so a key
    the schema does not name changes nothing. *)
Theorem unknown_keys_ignored (src1 src2 : value) (sch : schema) :
  is_nullish src1 = false ->
  is_nullish src2 = false ->
  agree_on sch src1 src2 ->
  buildFields src1 sch = buildFields src2 sch.
Proof.
  intros H1 H2 Hag. unfold buildFields. now apply buildFields_agree.
Qed.

(** X2 at an indoor sub-report with and without its [lsid] key. *)
Lemma unknown_keys_ignored_witness :
  agree_on WeatherLink.INDOOR_SCHEMA
    (Object [("lsid", Number 48307); ("temp_in", Number 72.3)])
    (Object [("temp_in", Number 72.3)])
  /\ buildFields (Object [("lsid", Number 48307); ("temp_in", Number 72.3)])
       WeatherLink.INDOOR_SCHEMA
     = buildFields (Object [("temp_in", Number 72.3)])
         WeatherLink.INDOOR_SCHEMA.
Proof.
  assert (Hag : agree_on WeatherLink.INDOOR_SCHEMA
                  (Object [("lsid", Number 48307); ("temp_in", Number 72.3)])
                  (Object [("temp_in", Number 72.3)])).
  { intros name config Hin. simpl in Hin.
    destruct Hin as [H|[H|[H|[H|[]]]]]; injection H as <- <-;
      reflexivity. }
  split; [exact Hag|].
  apply unknown_keys_ignored; [reflexivity | reflexivity | exact Hag].
Defined.

(** X3. Extraction composes over the schema: for two schemas whose names
    are all distinct, the field set of their concatenation is the field
    set of the first followed by the field set of the second. *)
Theorem buildFields_app (src : value) (s1 s2 : schema)
  (f1 f2 : field_set) :
  NoDup (map fst (s1 ++ s2)%list) ->
  buildFields src s1 = Normal f1 ->
  buildFields src s2 = Normal f2 ->
  buildFields src (s1 ++ s2)%list = Normal (f1 ++ f2)%list.
Proof.
  intros Hnd H1 H2. unfold buildFields in *.
  rewrite buildFields_loop_app, H1. cbn [bind].
  rewrite map_app in Hnd.
  rewrite buildFields_loop_acc.
  - rewrite H2. reflexivity.
  - eapply NoDup_app_remove_l. exact Hnd.
  - intros n Hn2 Hn1.
    apply (buildFields_names src s1 f1) in Hn1;
      [|eapply NoDup_app_remove_r; exact Hnd | exact H1].
    clear - Hnd Hn1 Hn2. revert Hnd Hn1.
    induction (map fst s1) as [|x l IH]; simpl; [tauto|].
    intros Hnd [->|Hin]; apply NoDup_cons_iff in Hnd as [Hx Hnd].
    + apply Hx. apply in_app_iff. auto.
    + now apply IH.
Qed.

(** X3 at the indoor schema followed by the barometer schema. *)
Lemma buildFields_app_witness :
  NoDup (map fst (WeatherLink.INDOOR_SCHEMA
                  ++ WeatherLink.BAROMETER_SCHEMA)%list)
  /\ buildFields
       (Object [("temp_in", Number 72.3); ("bar_absolute", Number 29.92)])
       (WeatherLink.INDOOR_SCHEMA ++ WeatherLink.BAROMETER_SCHEMA)%list
     = Normal ([("temp_in", (Number 22.4, TFloat))]
               ++ [("bar_absolute", (Number 1013.2, TFloat))])%list.
Proof.
  assert (Hnd : NoDup (map fst (WeatherLink.INDOOR_SCHEMA
                                ++ WeatherLink.BAROMETER_SCHEMA)%list))
    by (apply distinct_NoDup; vm_compute; reflexivity).
  split; [exact Hnd|].
  apply buildFields_app; [exact Hnd | vm_compute; reflexivity ..].
Defined.

(** X4. A field without a converter is not checked: its source value is
    kept as it is, whatever its type, whenever it is not null, undefined
    or the Number NaN; a string such as n/a stays a string in the field
    set. *)
Theorem plain_field_kept_as_is (src : value) (sch : schema)
  (fields : field_set) (name : string) (config : field_config) :
  NoDup (map fst sch) ->
  buildFields src sch = Normal fields ->
  In (name, config) sch ->
  convert config = None ->
  is_nullish (get src (source_key name config)) = false ->
  Number_isNaN (get src (source_key name config)) = false ->
  In (name, (get src (source_key name config), type config)) fields.
Proof.
  intros Hnd H Hin Hc Hv Hnan.
  pose proof (proj1 (Forall_forall _ _)
                (buildFields_resolved src sch Hnd fields H) _ Hin) as Hr.
  unfold resolved, omitted, converted in Hr. rewrite Hc in Hr.
  destruct Hr as [[[Hom|(w & [= <-] & [Hom|Hom])] _]|(w & [= <-] & _ & Hw)];
    try congruence.
Qed.

(** X4 at a humidity that is the string n/a. *)
Lemma plain_field_kept_as_is_witness :
  buildFields (Object [("hum_in", Str "n/a")]) WeatherLink.INDOOR_SCHEMA
  = Normal [("hum_in", (Str "n/a", TFloat))]
  /\ In ("hum_in", (Str "n/a", TFloat)) [("hum_in", (Str "n/a", TFloat))]
  /\ field_string [("hum_in", (Str "n/a", TFloat))] = Normal "hum_in=n/a".
Proof.
  assert (Hb : buildFields (Object [("hum_in", Str "n/a")])
                 WeatherLink.INDOOR_SCHEMA
               = Normal [("hum_in", (Str "n/a", TFloat))])
    by (vm_compute; reflexivity).
  split; [exact Hb|]. split; [|reflexivity].
  apply (plain_field_kept_as_is (Object [("hum_in", Str "n/a")])
           WeatherLink.INDOOR_SCHEMA _ "hum_in" (Float_ None));
    [apply distinct_NoDup; vm_compute; reflexivity
    | exact Hb | simpl; auto | reflexivity | reflexivity | reflexivity].
Defined.

(** X5. A field with one of the unit converters is left out when its
    source value is no number: whenever ToNumber of the value is NaN (a
    string that is no numeric literal, an object, the Number NaN), the
    converter returns NaN and the field is not in the field set. *)
Theorem non_numeric_converted_field_left_out (src : value) (sch : schema)
  (fields : field_set) (name : string) (config : field_config)
  (f : value -> completion value) :
  NoDup (map fst sch) ->
  buildFields src sch = Normal fields ->
  In (name, config) sch ->
  convert config = Some f ->
  In f converters ->
  ToNumber (get src (source_key name config)) = Normal nan ->
  ~ In name (map fst fields).
Proof.
  intros Hnd H Hin Hc Hf Hn.
  pose proof (proj1 (Forall_forall _ _)
                (buildFields_resolved src sch Hnd fields H) _ Hin) as Hr.
  unfold resolved in Hr. destruct Hr as [[_ Hni]|(w & _ & Hno & _)];
    [exact Hni|].
  exfalso. apply Hno. unfold omitted, converted. rewrite Hc.
  destruct (is_nullish (get src (source_key name config))) eqn:Hv; [auto|].
  right. exists (Number nan). split; [|right; reflexivity].
  now apply converter_of_nan.
Qed.

(** X5 at the sample outdoor sub-report, whose wet bulb is the string
    n/a. *)
Lemma non_numeric_converted_field_left_out_witness :
  ToNumber (get sample_outdoor "wet_bulb") = Normal nan
  /\ lookup "wet_bulb"
       [("temp", (Number 0, TFloat)); ("hum", (Number 50, TFloat));
        ("wind_dir_last", (Number 180.9, TInt))] = None.
Proof.
  split; [vm_compute; reflexivity|].
  apply lookup_None.
  apply (non_numeric_converted_field_left_out sample_outdoor
           WeatherLink.OUTDOOR_SCHEMA _ "wet_bulb"
           (Float_ (Some WeatherLink.fahrenheitToCelsius))
           WeatherLink.fahrenheitToCelsius);
    [apply distinct_NoDup; vm_compute; reflexivity
    | vm_compute; reflexivity
    | simpl; tauto
    | reflexivity
    | unfold converters; simpl; auto
    | vm_compute; reflexivity].
Defined.

End ExtractorMore.

(** ** More on the tags *)

Section TagsMore.
Import JS Common Props More.

Lemma unescape_escape (s : string) : unescape (escape_chars s) = s.
Proof.
  induction s as [|a s IH]; [reflexivity|].
  cbn [escape_chars]. unfold escape_char.
  destruct (Ascii.eqb a "\") eqn:E1.
  { apply Ascii.eqb_eq in E1. subst a. cbn. now rewrite IH. }
  destruct (Ascii.eqb a ",") eqn:E2.
  { apply Ascii.eqb_eq in E2. subst a. cbn. now rewrite IH. }
  destruct (Ascii.eqb a "=") eqn:E3.
  { apply Ascii.eqb_eq in E3. subst a. cbn. now rewrite IH. }
  destruct (Ascii.eqb a " ") eqn:E4.
  { apply Ascii.eqb_eq in E4. subst a. cbn. now rewrite IH. }
  cbn [orb String.append unescape]. now rewrite E1, IH.
Qed.

Lemma escape_separators (s : string) :
  separators_escaped (escape_chars s) = true.
Proof.
  induction s as [|a s IH]; [reflexivity|].
  cbn [escape_chars]. unfold escape_char.
  destruct (Ascii.eqb a "\") eqn:E1.
  { apply Ascii.eqb_eq in E1. subst a. cbn. exact IH. }
  destruct (Ascii.eqb a ",") eqn:E2.
  { apply Ascii.eqb_eq in E2. subst a. cbn. exact IH. }
  destruct (Ascii.eqb a "=") eqn:E3.
  { apply Ascii.eqb_eq in E3. subst a. cbn. exact IH. }
  destruct (Ascii.eqb a " ") eqn:E4.
  { apply Ascii.eqb_eq in E4. subst a. cbn. exact IH. }
  cbn [orb String.append separators_escaped]. unfold is_separator.
  now rewrite E1, E2, E3, E4, IH.
Qed.

Lemma escapeTagValue_chars (v : value) :
  escapeTagValue v = (s <- ToString v ;; Normal (escape_chars s)).
Proof.
  unfold escapeTagValue. destruct (ToString v); cbn [bind]; [|reflexivity].
  now rewrite escape_string_chars.
Qed.

(** X6. Escaping loses nothing and leaves no bare separator: reading the
    backslashes of an escaped tag value back gives the value's text, so
    two values with different texts have different escapes; and in the
    escape every comma, equals sign and space follows a backslash that
    escapes it.  A value without a text, one ToString throws for, has
    no escape: the exception of the conversion is raised. *)
Theorem escape_round_trip :
  (forall v,
      (e <- escapeTagValue v ;; Normal (unescape e)) = ToString v)
  /\ (forall v w, escapeTagValue v = escapeTagValue w ->
                  ToString v = ToString w)
  /\ (forall v e, escapeTagValue v = Normal e ->
                  separators_escaped e = true)
  /\ (forall v,
        escapeTagValue v = (s <- ToString v ;; Normal (escape_chars s))).
Proof.
  split; [|split; [|split]].
  - intros v. rewrite escapeTagValue_chars.
    destruct (ToString v); cbn [bind]; [|reflexivity].
    now rewrite unescape_escape.
  - intros v w. rewrite !escapeTagValue_chars.
    destruct (ToString v) as [s|e], (ToString w) as [t|e']; cbn [bind];
      intros H; try discriminate.
    + injection H as H. apply (f_equal unescape) in H.
      now rewrite !unescape_escape in H; subst.
    + exact H.
  - intros v e. rewrite escapeTagValue_chars.
    destruct (ToString v); cbn [bind]; [|discriminate].
    intros [= <-]. apply escape_separators.
  - exact escapeTagValue_chars.
Qed.

(** X6 at two values whose escapes are told apart. *)
Lemma escape_round_trip_witness :
  escapeTagValue (Str "a\,b") = Normal "a\\\,b"
  /\ Normal (unescape "a\\\,b") = ToString (Str "a\,b")
  /\ escapeTagValue (Str "a,b") = Normal "a\,b".
Proof.
  split; [reflexivity|]. split; [|reflexivity].
  exact (proj1 escape_round_trip (Str "a\,b")).
Defined.

(** *** The order of the tags does not depend on their declaration *)

Lemma lex_Eq (l1 l2 : list N) : Collation.lex l1 l2 = Eq -> l1 = l2.
Proof.
  revert l2. induction l1 as [|a l1 IH]; intros [|b l2]; simpl;
    try discriminate; [reflexivity|].
  destruct (N.compare_spec a b) as [->|H|H]; try discriminate.
  intros E. now rewrite (IH l2 E).
Qed.

Lemma lex_refl (l : list N) : Collation.lex l l = Eq.
Proof.
  induction l as [|a l IH]; simpl; [reflexivity|].
  now rewrite N.compare_refl.
Qed.

Lemma lex_Lt_trans (l1 l2 l3 : list N) :
  Collation.lex l1 l2 = Lt -> Collation.lex l2 l3 = Lt ->
  Collation.lex l1 l3 = Lt.
Proof.
  revert l2 l3. induction l1 as [|a l1 IH]; intros [|b l2] [|c l3]; simpl;
    try discriminate; try reflexivity.
  destruct (N.compare_spec a b) as [->|Hab|Hab]; try discriminate.
  - destruct (N.compare_spec b c) as [->|Hbc|Hbc]; try discriminate.
    + apply IH.
    + reflexivity.
  - intros _. destruct (N.compare_spec b c) as [->|Hbc|Hbc];
      try discriminate; intros _.
    + apply N.compare_lt_iff in Hab. now rewrite Hab.
    + assert (H : (a < c)%N) by lia. apply N.compare_lt_iff in H.
      now rewrite H.
Qed.

Lemma collation_Eq (a b : string) :
  Collation.compare a b = Eq ->
  map fst (Collation.weights a) = map fst (Collation.weights b)
  /\ map snd (Collation.weights a) = map snd (Collation.weights b).
Proof.
  unfold Collation.compare.
  destruct (Collation.lex (map fst _) (map fst _)) eqn:E1; try discriminate.
  intros E2. split; apply lex_Eq; assumption.
Qed.

Lemma collation_Lt_trans (a b c : string) :
  Collation.compare a b = Lt -> Collation.compare b c = Lt ->
  Collation.compare a c = Lt.
Proof.
  unfold Collation.compare.
  destruct (Collation.lex (map fst (Collation.weights a))
              (map fst (Collation.weights b))) eqn:Eab; try discriminate;
    destruct (Collation.lex (map fst (Collation.weights b))
                (map fst (Collation.weights c))) eqn:Ebc; try discriminate;
    intros H1 H2.
  - apply lex_Eq in Eab, Ebc. rewrite Eab, Ebc, lex_refl.
    eapply lex_Lt_trans; eassumption.
  - apply lex_Eq in Eab. rewrite Eab, Ebc. reflexivity.
  - apply lex_Eq in Ebc. rewrite <- Ebc, Eab. reflexivity.
  - now rewrite (lex_Lt_trans _ _ _ Eab Ebc).
Qed.

Lemma by_locale_compare (p q : string * value) :
  by_locale p q <-> Collation.compare (fst p) (fst q) <> Gt.
Proof.
  unfold by_locale, Collation.localeCompare.
  destruct (Collation.compare (fst p) (fst q)); split; intros H;
    try lia; try discriminate; congruence.
Qed.

Lemma by_locale_trans (p q r : string * value) :
  by_locale p q -> by_locale q r -> by_locale p r.
Proof.
  rewrite !by_locale_compare. unfold Collation.compare in *.
  intros H1 H2.
  destruct (Collation.compare (fst p) (fst q)) eqn:Epq;
    [| |contradiction].
  - apply collation_Eq in Epq as [E1 E2].
    unfold Collation.compare in *. now rewrite E1, E2.
  - destruct (Collation.compare (fst q) (fst r)) eqn:Eqr;
      [| |contradiction].
    + apply collation_Eq in Eqr as [E1 E2].
      fold (Collation.compare (fst p) (fst r)).
      unfold Collation.compare in *. rewrite <- E1, <- E2.
      now rewrite Epq.
    + fold (Collation.compare (fst p) (fst r)).
      now rewrite (collation_Lt_trans _ _ _ Epq Eqr).
Qed.

Lemma by_locale_antisym_plain (p q : string * value) :
  plain_key (fst p) = true -> plain_key (fst q) = true ->
  by_locale p q -> by_locale q p -> fst p = fst q.
Proof.
  intros Hp Hq. rewrite !by_locale_compare.
  rewrite (collation_antisym (fst q) (fst p)).
  rewrite (plain_keys_bytewise _ _ Hp Hq).
  destruct (String.compare (fst p) (fst q)) eqn:E; simpl; try congruence.
  intros _ _. now apply String.compare_eq_iff.
Qed.

Lemma same_key_same_tag (l : list (string * value)) (p q : string * value) :
  NoDup (map fst l) -> In p l -> In q l -> fst p = fst q -> p = q.
Proof.
  induction l as [|x l IH]; simpl; [tauto|].
  intros Hnd Hp Hq E. apply NoDup_cons_iff in Hnd as [Hx Hnd].
  destruct Hp as [->|Hp], Hq as [->|Hq]; auto.
  - exfalso. apply Hx. rewrite E. now apply in_map.
  - exfalso. apply Hx. rewrite <- E. now apply in_map.
Qed.

Lemma sorted_perm_unique (l1 : list (string * value)) :
  forall l2,
    StronglySorted by_locale l1 ->
    StronglySorted by_locale l2 ->
    Permutation l1 l2 ->
    NoDup (map fst l2) ->
    Forall (fun kv => plain_key (fst kv) = true) l2 ->
    l1 = l2.
Proof.
  induction l1 as [|a l1 IH]; intros l2 S1 S2 Hp Hnd Hpl.
  - apply Permutation_nil in Hp. now subst.
  - destruct l2 as [|b l2].
    { symmetry in Hp. now apply Permutation_nil in Hp. }
    apply StronglySorted_inv in S1 as [S1 Ha].
    apply StronglySorted_inv in S2 as [S2 Hb].
    assert (Hab : a = b).
    { assert (Ha2 : In a (b :: l2))
        by (eapply Permutation_in; [exact Hp | simpl; auto]).
      assert (Hb1 : In b (a :: l1))
        by (eapply Permutation_in; [symmetry; exact Hp | simpl; auto]).
      destruct Ha2 as [<-|Ha2]; [reflexivity|].
      destruct Hb1 as [<-|Hb1]; [reflexivity|].
      apply (same_key_same_tag (b :: l2)); simpl; auto.
      apply by_locale_antisym_plain.
      - exact (proj1 (Forall_forall _ _) Hpl a (or_intror Ha2)).
      - exact (proj1 (Forall_forall _ _) Hpl b (or_introl eq_refl)).
      - exact (proj1 (Forall_forall _ _) Ha b Hb1).
      - exact (proj1 (Forall_forall _ _) Hb a Ha2). }
    subst b. f_equal. apply IH; auto.
    + eapply Permutation_cons_inv. exact Hp.
    + simpl in Hnd. now apply NoDup_cons_iff in Hnd.
    + now inversion Hpl.
Qed.

Lemma filter_perm {A} (f : A -> bool) (l1 l2 : list A) :
  Permutation l1 l2 -> Permutation (filter f l1) (filter f l2).
Proof.
  induction 1 as [|x l1 l2 H IH|x y l|l1 l2 l3 H1 IH1 H2 IH2]; simpl.
  - constructor.
  - destruct (f x); [now constructor | exact IH].
  - destruct (f x), (f y); try reflexivity. apply perm_swap.
  - etransitivity; eassumption.
Qed.

Lemma Array_sort_strongly (l : list (string * value)) :
  StronglySorted by_locale
    (Array_sort (fun a b => Collation.localeCompare (fst a) (fst b)) l).
Proof.
  apply Sorted_StronglySorted.
  - intros p q r. apply by_locale_trans.
  - apply (Array_sort_Sorted
             (fun a b => Collation.localeCompare (fst a) (fst b))).
    intros a b. apply localeCompare_total.
Qed.

(** X7. The tag string does not depend on the order in which the tags are
    declared: two tag sets with the same tags, their keys distinct and made
    of lower-case letters and underscores, are written the same. *)
Theorem tag_order_canonical (tags1 tags2 : list (string * value)) :
  NoDup (map fst tags1) ->
  Forall (fun kv => plain_key (fst kv) = true) tags1 ->
  Permutation tags1 tags2 ->
  tag_string tags1 = tag_string tags2.
Proof.
  intros Hnd Hpl Hp. unfold tag_string. do 2 f_equal.
  set (keep := fun kv : string * value => negb (is_nullish (snd kv))).
  set (cmp := fun a b : string * value =>
                Collation.localeCompare (fst a) (fst b)).
  assert (Hf : Permutation (filter keep tags1) (filter keep tags2))
    by now apply filter_perm.
  assert (Hs : Permutation (Array_sort cmp (filter keep tags1))
                 (Array_sort cmp (filter keep tags2))).
  { rewrite !Array_sort_perm. exact Hf. }
  assert (Hin : forall kv, In kv (Array_sort cmp (filter keep tags2)) ->
                           In kv tags1).
  { intros kv H. apply (Permutation_in _ (Array_sort_perm cmp _)) in H.
    apply filter_In in H as [H _].
    eapply Permutation_in; [symmetry; exact Hp | exact H]. }
  apply sorted_perm_unique.
  - apply Array_sort_strongly.
  - apply Array_sort_strongly.
  - exact Hs.
  - assert (Hk : NoDup (map fst (filter keep tags1))).
    { clear - Hnd. induction tags1 as [|x l IH]; simpl; [constructor|].
      simpl in Hnd. apply NoDup_cons_iff in Hnd as [Hx Hnd].
      destruct (keep x); [|auto]. simpl. constructor; [|auto].
      intros Hin. apply Hx. apply in_map_iff in Hin as (y & <- & Hy).
      apply in_map. now apply filter_In in Hy. }
    eapply Permutation_NoDup; [|exact Hk].
    apply Permutation_map. rewrite Array_sort_perm. exact Hf.
  - apply Forall_forall. intros kv H.
    exact (proj1 (Forall_forall _ _) Hpl kv (Hin kv H)).
Qed.

(** X7 at the outdoor tags in their declared order and in another. *)
Lemma tag_order_canonical_witness :
  NoDup (map fst (WeatherLink.tags (WeatherLink.outdoor WeatherLink.CONFIG)))
  /\ tag_string (WeatherLink.tags (WeatherLink.outdoor WeatherLink.CONFIG))
     = tag_string [("friendly_name", Str "Davis Outdoor ISS");
                   ("source", Str "davis"); ("location", Str "outside")].
Proof.
  assert (Hnd : NoDup (map fst (WeatherLink.tags
                                  (WeatherLink.outdoor WeatherLink.CONFIG))))
    by (apply distinct_NoDup; reflexivity).
  split; [exact Hnd|].
  apply tag_order_canonical; [exact Hnd | repeat constructor|].
  apply Permutation_sym.
  exact (Permutation_cons_append
           [("source", Str "davis"); ("location", Str "outside")]
           ("friendly_name", Str "Davis Outdoor ISS")).
Defined.

End TagsMore.

(** ** More on the scripts *)

Section ScriptsMore.
Import JS Common Props More.

(** *** The searches *)

Lemma is_outdoor_true (c : value) :
  WeatherLink.is_outdoor c = Normal true
  <-> is_nullish c = false
      /\ strict_eq_number (get c "data_structure_type") 1 = true
      /\ strict_eq_number (get c "txid") 1 = true.
Proof.
  unfold WeatherLink.is_outdoor, get_prop.
  destruct (is_nullish c); cbn [bind].
  - split; [discriminate | intros [H _]; discriminate].
  - destruct (strict_eq_number (get c "data_structure_type") 1); cbn [bind].
    + split; [intros [= ->]; auto | intros (_ & _ & ->); reflexivity].
    + split; [discriminate | intros (_ & H & _); discriminate].
Qed.

Lemma has_type_true (n : float) (c : value) :
  WeatherLink.has_type n c = Normal true
  <-> is_nullish c = false
      /\ strict_eq_number (get c "data_structure_type") n = true.
Proof.
  unfold WeatherLink.has_type, get_prop.
  destruct (is_nullish c); cbn [bind].
  - split; [discriminate | intros [H _]; discriminate].
  - split; [intros [= ->]; auto | intros (_ & ->); reflexivity].
Qed.

Lemma is_outdoor_reads : reads_element WeatherLink.is_outdoor.
Proof.
  intros c. unfold WeatherLink.is_outdoor, get_prop.
  destruct (is_nullish c); cbn [bind]; [eauto|].
  destruct (strict_eq_number _ 1); cbn [bind]; eauto.
Qed.

Lemma has_type_reads (n : float) : reads_element (WeatherLink.has_type n).
Proof.
  intros c. unfold WeatherLink.has_type, get_prop.
  destruct (is_nullish c); cbn [bind]; eauto.
Qed.

Lemma find_first_found (pred : value -> completion bool)
  (elems : list value) (b : value) :
  find_first pred elems = Normal b ->
  (b = Undefined /\ Forall (fun x => pred x = Normal false) elems)
  \/ exists l1 l2,
       elems = (l1 ++ b :: l2)%list
       /\ Forall (fun x => pred x = Normal false) l1
       /\ pred b = Normal true.
Proof.
  induction elems as [|c l IH]; simpl.
  - intros [= <-]. auto.
  - destruct (pred c) as [[|]|e] eqn:Hc; cbn [bind]; [| |discriminate].
    + intros [= <-]. right. exists [], l. auto.
    + intros H. destruct (IH H) as [[-> Hall]|(l1 & l2 & -> & Hall & Hb)].
      * left. auto.
      * right. exists (c :: l1), l2. auto.
Qed.

Lemma find_first_raises (pred : value -> completion bool)
  (elems : list value) :
  reads_element pred ->
  (exists e, find_first pred elems = Throw e) <-> stops_at_null pred elems.
Proof.
  intros Hr. unfold stops_at_null. induction elems as [|c l IH]; simpl.
  - split; [intros [e H]; discriminate|].
    intros (l1 & x & l2 & H & _). now destruct l1.
  - specialize (Hr c). destruct (is_nullish c) eqn:Hn.
    + destruct Hr as [e He]. rewrite He. cbn [bind]. split; [|eauto].
      intros _. exists [], c, l. auto.
    + destruct Hr as [b Hb]. rewrite Hb. cbn [bind]. destruct b.
      * split; [intros [e H]; discriminate|].
        intros (l1 & x & l2 & H & Hx & Hall). destruct l1 as [|y l1].
        -- injection H as -> ->. congruence.
        -- injection H as -> ->. inversion Hall. congruence.
      * rewrite IH. split.
        -- intros (l1 & x & l2 & -> & Hx & Hall).
           exists (c :: l1), x, l2. auto.
        -- intros (l1 & x & l2 & H & Hx & Hall). destruct l1 as [|y l1].
           ++ injection H as -> ->. congruence.
           ++ injection H as -> ->. exists l1, x, l2.
              split; [reflexivity|]. split; [exact Hx|]. now inversion Hall.
Qed.

Lemma find_first_block (pred : value -> completion bool)
  (elems : list value) (b : value) :
  reads_element pred ->
  find_first pred elems = Normal b ->
  b = Undefined \/ is_nullish b = false.
Proof.
  intros Hr H. destruct (find_first_found _ _ _ H)
    as [[-> _]|(l1 & l2 & _ & _ & Hb)]; [auto|].
  right. specialize (Hr b). destruct (is_nullish b); [|reflexivity].
  destruct Hr as [e He]. congruence.
Qed.

(** X8. Each search takes the first element of conditions that matches
    its discriminator, and undefined when none does: the outdoor block is
    the first element whose data_structure_type is the number 1 and whose
    txid is the number 1, the indoor and barometer blocks the first of
    type 4 and of type 3; later matches are not read. *)
Theorem first_match_selected :
  (forall pred elems b,
      Array_find (Array elems) pred = Normal b ->
      (b = Undefined /\ Forall (fun x => pred x = Normal false) elems)
      \/ exists l1 l2,
           elems = (l1 ++ b :: l2)%list
           /\ Forall (fun x => pred x = Normal false) l1
           /\ pred b = Normal true)
  /\ (forall c,
         WeatherLink.is_outdoor c = Normal true
         <-> is_nullish c = false
             /\ strict_eq_number (get c "data_structure_type") 1 = true
             /\ strict_eq_number (get c "txid") 1 = true)
  /\ (forall n c,
         WeatherLink.has_type n c = Normal true
         <-> is_nullish c = false
             /\ strict_eq_number (get c "data_structure_type") n = true).
Proof.
  split; [exact find_first_found|].
  split; [exact is_outdoor_true | exact has_type_true].
Qed.

(** X8 at a reading whose first sub-report is of transmitter 2. *)
Lemma first_match_selected_witness :
  Array_find
    (Array [Object [("data_structure_type", Number 1); ("txid", Number 2)];
            Object [("data_structure_type", Number 1); ("txid", Number 1);
                    ("temp", Number 50)];
            Object [("data_structure_type", Number 1); ("txid", Number 1);
                    ("temp", Number 60)]])
    WeatherLink.is_outdoor
  = Normal (Object [("data_structure_type", Number 1); ("txid", Number 1);
                    ("temp", Number 50)])
  /\ WeatherLink.is_outdoor
       (Object [("data_structure_type", Number 1); ("txid", Number 1);
                ("temp", Number 50)])
     = Normal true.
Proof.
  split; [vm_compute; reflexivity|].
  apply (proj1 (proj2 first_match_selected)).
  repeat split; vm_compute; reflexivity.
Defined.

(** *** When the WeatherLink script raises *)

Lemma emit_returns (block : value) (sch : schema) (m : string)
  (tg : list (string * value)) (ts : float) (lines : list string)
  (t : string) :
  known_converters sch ->
  convertible_properties block = true ->
  tag_string tg = Normal t ->
  exists lines', WeatherLink.emit block sch m tg ts lines = Normal lines'.
Proof.
  intros Hk Hp Ht. unfold WeatherLink.emit.
  destruct (ToBoolean block) eqn:Hb; [|eauto].
  destruct (buildFields_returns block sch (truthy_not_nullish _ Hb) Hk Hp)
    as (fields & -> & Hconv).
  cbn [bind].
  destruct (toLineProtocol_returns m tg fields ts t Ht Hconv) as [line ->].
  cbn [bind]. eauto.
Qed.

Lemma indoor_tags_return :
  exists t,
    tag_string (WeatherLink.tags (WeatherLink.indoor WeatherLink.CONFIG))
    = Normal t.
Proof.
  eexists. vm_compute. reflexivity.
Qed.

Lemma barometer_tags_return :
  exists t,
    tag_string (WeatherLink.tags (WeatherLink.barometer WeatherLink.CONFIG))
    = Normal t.
Proof.
  eexists. vm_compute. reflexivity.
Qed.

Lemma find_first_decide (pred : value -> completion bool)
  (elems : list value) :
  reads_element pred ->
  stops_at_null pred elems
  \/ exists b,
       find_first pred elems = Normal b
       /\ (b = Undefined \/ is_nullish b = false).
Proof.
  intros Hr. destruct (find_first pred elems) as [b|e] eqn:H.
  - right. exists b. split; [reflexivity|].
    eapply find_first_block; eassumption.
  - left. apply find_first_raises; eauto.
Qed.

Lemma find_first_convertible (pred : value -> completion bool)
  (elems : list value) (b : value) :
  Forall (fun c => convertible_properties c = true) elems ->
  find_first pred elems = Normal b ->
  convertible_properties b = true.
Proof.
  intros Hall H.
  destruct (find_first_found _ _ _ H) as [[-> _]|(l1 & l2 & -> & _ & _)];
    [reflexivity|].
  apply Forall_app in Hall as [_ Hall]. now inversion Hall.
Qed.

(** With values that convert to primitives, the script raises in its
    searches only. *)
Lemma weatherlink_raises_iff (payload : value) :
  convertible (ts_of payload) = true ->
  convertible (get (get payload "data") "did") = true ->
  (forall elems,
      conditions_of payload = Array elems ->
      Forall (fun c => convertible_properties c = true) elems) ->
  (exists e, WeatherLink.main payload = Throw e)
  <-> ToBoolean (ts_of payload) = true
      /\ ToBoolean (conditions_of payload) = true
      /\ (is_array (conditions_of payload) = false
          \/ exists elems,
               conditions_of payload = Array elems
               /\ (stops_at_null WeatherLink.is_outdoor elems
                   \/ stops_at_null (WeatherLink.has_type 4) elems
                   \/ stops_at_null (WeatherLink.has_type 3) elems)).
Proof.
  intros Cts Cdid Cel.
  destruct (ToBoolean (ts_of payload)) eqn:Hts;
    [destruct (ToBoolean (conditions_of payload)) eqn:Hc|].
  2:{ rewrite (proj2 (weatherlink_invalid_iff payload)) by (right; exact Hc).
      split; [intros [e H]; discriminate | intros (_ & H & _); discriminate]. }
  2:{ rewrite (proj2 (weatherlink_invalid_iff payload)) by (left; exact Hts).
      split; [intros [e H]; discriminate | intros (H & _); discriminate]. }
  rewrite weatherlink_main_valid by assumption.
  destruct (ToNumber_returns _ Cts) as [x ->]. cbn [bind].
  destruct (conditions_of payload) as [| |b|y|s|elems|props] eqn:Ec;
    try solve [cbn [Array_find bind is_array];
               split; [intros _; auto | intros _; eauto]].
  specialize (Cel elems eq_refl).
  cbn [Array_find is_array].
  pose proof (find_first_raises _ elems is_outdoor_reads) as Ro.
  pose proof (find_first_raises _ elems (has_type_reads 4)) as Ri.
  pose proof (find_first_raises _ elems (has_type_reads 3)) as Rb.
  destruct (find_first_decide _ elems is_outdoor_reads)
    as [So|(ob & Eo & Ho)].
  { destruct (proj2 Ro So) as [e ->]. cbn [bind].
    split; [intros _|eauto]. repeat split. right. exists elems. auto. }
  destruct (find_first_decide _ elems (has_type_reads 4))
    as [Si|(ib & Ei & Hi)].
  { rewrite Eo. destruct (proj2 Ri Si) as [e ->]. cbn [bind].
    split; [intros _|eauto]. repeat split. right. exists elems. auto. }
  destruct (find_first_decide _ elems (has_type_reads 3))
    as [Sb|(bb & Eb & Hb)].
  { rewrite Eo, Ei. destruct (proj2 Rb Sb) as [e ->]. cbn [bind].
    split; [intros _|eauto]. repeat split. right. exists elems. auto. }
  rewrite Eo, Ei, Eb. cbn [bind].
  destruct (outdoor_tags_return (get payload "data") Cdid) as [to Hto].
  destruct indoor_tags_return as [ti Hti].
  destruct barometer_tags_return as [tb Htb].
  destruct (emit_returns ob WeatherLink.OUTDOOR_SCHEMA "outdoor_conditions"
              (WeatherLink.outdoor_tags (get payload "data"))
              (x * 1000000000)%float [] to OUTDOOR_SCHEMA_known
              (find_first_convertible _ _ _ Cel Eo) Hto) as [l1 ->].
  cbn [bind].
  destruct (emit_returns ib WeatherLink.INDOOR_SCHEMA "indoor_conditions"
              (WeatherLink.tags (WeatherLink.indoor WeatherLink.CONFIG))
              (x * 1000000000)%float l1 ti INDOOR_SCHEMA_known
              (find_first_convertible _ _ _ Cel Ei) Hti) as [l2 ->].
  cbn [bind].
  destruct (emit_returns bb WeatherLink.BAROMETER_SCHEMA "barometer"
              (WeatherLink.tags (WeatherLink.barometer WeatherLink.CONFIG))
              (x * 1000000000)%float l2 tb BAROMETER_SCHEMA_known
              (find_first_convertible _ _ _ Cel Eb) Htb) as [l3 ->].
  cbn [bind]. split.
  - intros [e H]. destruct (JSString.len l3 =? 0); discriminate.
  - intros (_ & _ & [H|(elems' & [= <-] & [S|[S|S]])]); [discriminate| | |].
    + apply Ro in S as [e He]. congruence.
    + apply Ri in S as [e He]. congruence.
    + apply Rb in S as [e He]. congruence.
Qed.

Lemma weatherlink_raises_past_check (payload : value) (e : error) :
  WeatherLink.main payload = Throw e ->
  ToBoolean (ts_of payload) = true
  /\ ToBoolean (conditions_of payload) = true.
Proof.
  intros H.
  destruct (ToBoolean (ts_of payload)) eqn:Hts;
    [destruct (ToBoolean (conditions_of payload)) eqn:Hc|]; [auto | |].
  - rewrite (proj2 (weatherlink_invalid_iff payload)) in H
      by (right; exact Hc). discriminate.
  - rewrite (proj2 (weatherlink_invalid_iff payload)) in H
      by (left; exact Hts). discriminate.
Qed.

(** X9. When the WeatherLink script raises.  It raises only past its
    check, with data.ts and data.conditions truthy.  There it raises the
    TypeError of the conversion when data.ts does not convert to a
    primitive.  When data.ts, data.did and the properties of the elements
    of conditions convert, it raises exactly when conditions is no
    array or one of its three searches meets a null or undefined element
    before an element that matches; so it returns when conditions is an
    array without null elements and all these values convert. *)
Theorem weatherlink_raises_exactly (payload : value) :
  (forall e,
      WeatherLink.main payload = Throw e ->
      ToBoolean (ts_of payload) = true
      /\ ToBoolean (conditions_of payload) = true)
  /\ (ToBoolean (conditions_of payload) = true ->
      convertible (ts_of payload) = false ->
      WeatherLink.main payload = Throw cannot_convert)
  /\ (convertible (ts_of payload) = true ->
      convertible (get (get payload "data") "did") = true ->
      (forall elems,
          conditions_of payload = Array elems ->
          Forall (fun c => convertible_properties c = true) elems) ->
      ((exists e, WeatherLink.main payload = Throw e)
       <-> ToBoolean (ts_of payload) = true
           /\ ToBoolean (conditions_of payload) = true
           /\ (is_array (conditions_of payload) = false
               \/ exists elems,
                    conditions_of payload = Array elems
                    /\ (stops_at_null WeatherLink.is_outdoor elems
                        \/ stops_at_null (WeatherLink.has_type 4) elems
                        \/ stops_at_null (WeatherLink.has_type 3) elems))))
  /\ (forall elems,
         conditions_of payload = Array elems ->
         Forall (fun c => is_nullish c = false
                          /\ convertible_properties c = true) elems ->
         convertible (ts_of payload) = true ->
         convertible (get (get payload "data") "did") = true ->
         exists o, WeatherLink.main payload = Normal o).
Proof.
  split; [exact (weatherlink_raises_past_check payload)|].
  split.
  { intros Hc Cts.
    assert (Hts : ToBoolean (ts_of payload) = true).
    { destruct (ts_of payload); try discriminate Cts; reflexivity. }
    rewrite weatherlink_main_valid by assumption.
    now rewrite (ToNumber_raises _ Cts). }
  split; [apply weatherlink_raises_iff|].
  intros elems Ec Hall Cts Cdid.
  assert (Cel : forall elems',
             conditions_of payload = Array elems' ->
             Forall (fun c => convertible_properties c = true) elems').
  { intros elems' Ec'. rewrite Ec in Ec'. injection Ec' as <-.
    eapply Forall_impl; [|exact Hall]. now intros c [_ H]. }
  destruct (WeatherLink.main payload) as [o|e] eqn:Hm; [eauto|].
  exfalso.
  destruct (proj1 (weatherlink_raises_iff payload Cts Cdid Cel)
              (ex_intro _ e Hm))
    as (_ & _ & [H|(elems' & Ec' & Hs)]).
  - rewrite Ec in H. discriminate.
  - rewrite Ec in Ec'. injection Ec' as <-.
    assert (Hno : forall pred, ~ stops_at_null pred elems).
    { intros pred (l1 & c & l2 & -> & Hc & _).
      apply Forall_app in Hall as [_ Hall]. inversion Hall as [|? ? [Hn _] _].
      congruence. }
    destruct Hs as [S|[S|S]]; exact (Hno _ S).
Qed.

(** X9 at a reading whose conditions hold a null before any indoor
    sub-report. *)
Lemma weatherlink_raises_exactly_witness :
  stops_at_null (WeatherLink.has_type 4)
    [Object [("data_structure_type", Number 1); ("txid", Number 1)]; Null]
  /\ exists e,
       WeatherLink.main
         (Object [("data",
                   Object [("ts", Number 1700000000);
                           ("conditions",
                            Array [Object [("data_structure_type", Number 1);
                                           ("txid", Number 1)];
                                   Null])])])
       = Throw e.
Proof.
  assert (S : stops_at_null (WeatherLink.has_type 4)
                [Object [("data_structure_type", Number 1);
                         ("txid", Number 1)]; Null]).
  { exists [Object [("data_structure_type", Number 1); ("txid", Number 1)]],
      Null, []. repeat split. repeat constructor. }
  split; [exact S|].
  apply (proj1 (proj2 (proj2 (weatherlink_raises_exactly _))));
    [reflexivity | reflexivity | |].
  - intros elems [= <-]. repeat constructor.
  - split; [reflexivity|]. split; [reflexivity|].
    right. eexists. split; [reflexivity|]. right. left. exact S.
Defined.

(** *** The lines of a WeatherLink run *)

Lemma emit_written (block : value) (sch : schema) (m : string)
  (tg : list (string * value)) (ts : float) (lines lines' : list string) :
  WeatherLink.emit block sch m tg ts lines = Normal lines' ->
  exists l,
    lines' = (lines ++ l)%list /\ written (Normal block) sch m tg ts l.
Proof.
  intros H. unfold written.
  destruct (emit_Normal _ _ _ _ _ _ _ H)
    as [[_ ->]|(Hb & fields & t & f & Hf & Ht & Hfs & [[_ ->]|[Hne ->]])].
  - exists []. rewrite app_nil_r. auto.
  - exists []. rewrite app_nil_r. auto.
  - eexists. split; [reflexivity|]. right.
    exists block, fields. eexists.
    split; [reflexivity|]. split; [exact Hb|].
    split; [exact Hf|]. split; [exact Hne|]. split; [|reflexivity].
    unfold line_of. rewrite Ht, Hfs. reflexivity.
Qed.

Lemma written_length (found : completion value) (sch : schema) (m : string)
  (tg : list (string * value)) (ts : float) (l : list string) :
  written found sch m tg ts l -> (List.length l <= 1)%nat.
Proof.
  intros [->|(b & f & line & _ & _ & _ & _ & _ & ->)]; simpl; lia.
Qed.

(** X10. A WeatherLink run that returns a message returns between one and
    three lines joined by newlines: at most one per category, in the order
    outdoor, indoor, barometer, each the line of the block its search
    found, all with the timestamp data.ts * 1000000000; the status reports
    their number. *)
Theorem weatherlink_lines (payload : value) (o : outcome) (p : value) :
  WeatherLink.main payload = Normal o ->
  returned o = Some p ->
  exists x lo li lb,
    ToNumber (ts_of payload) = Normal x
    /\ written (Array_find (conditions_of payload) WeatherLink.is_outdoor)
         WeatherLink.OUTDOOR_SCHEMA "outdoor_conditions"
         (WeatherLink.outdoor_tags (get payload "data"))
         (x * 1000000000)%float lo
    /\ written (Array_find (conditions_of payload) (WeatherLink.has_type 4))
         WeatherLink.INDOOR_SCHEMA "indoor_conditions"
         (WeatherLink.tags (WeatherLink.indoor WeatherLink.CONFIG))
         (x * 1000000000)%float li
    /\ written (Array_find (conditions_of payload) (WeatherLink.has_type 3))
         WeatherLink.BAROMETER_SCHEMA "barometer"
         (WeatherLink.tags (WeatherLink.barometer WeatherLink.CONFIG))
         (x * 1000000000)%float lb
    /\ p = Str (JSString.join newline (lo ++ li ++ lb))
    /\ (1 <= List.length (lo ++ li ++ lb) <= 3)%nat
    /\ events o
       = [Status "green" "dot"
            (JSNumber.toString
               (JSNumber.of_Z (JSString.len (lo ++ li ++ lb)%list))
             ++ " points")].
Proof.
  intros Hm Hr.
  destruct (ToBoolean (ts_of payload)) eqn:Hts;
    [destruct (ToBoolean (conditions_of payload)) eqn:Hc|].
  2:{ rewrite (proj2 (weatherlink_invalid_iff payload)) in Hm
        by (right; exact Hc).
      injection Hm as <-. discriminate Hr. }
  2:{ rewrite (proj2 (weatherlink_invalid_iff payload)) in Hm
        by (left; exact Hts).
      injection Hm as <-. discriminate Hr. }
  rewrite weatherlink_main_valid in Hm by assumption.
  destruct (ToNumber (ts_of payload)) as [x|]; cbn [bind] in Hm;
    [|discriminate].
  destruct (Array_find _ WeatherLink.is_outdoor) as [ob|]; cbn [bind] in Hm;
    [|discriminate].
  destruct (Array_find _ (WeatherLink.has_type 4)) as [ib|];
    cbn [bind] in Hm; [|discriminate].
  destruct (Array_find _ (WeatherLink.has_type 3)) as [bb|];
    cbn [bind] in Hm; [|discriminate].
  destruct (WeatherLink.emit ob _ _ _ _ _) as [l1|] eqn:E1;
    cbn [bind] in Hm; [|discriminate].
  destruct (WeatherLink.emit ib _ _ _ _ _) as [l2|] eqn:E2;
    cbn [bind] in Hm; [|discriminate].
  destruct (WeatherLink.emit bb _ _ _ _ _) as [l3|] eqn:E3;
    cbn [bind] in Hm; [|discriminate].
  apply emit_written in E1 as (lo & -> & Wo).
  apply emit_written in E2 as (li & -> & Wi).
  apply emit_written in E3 as (lb & -> & Wb).
  cbn [app] in *. rewrite <- app_assoc in Hm.
  exists x, lo, li, lb. split; [reflexivity|].
  split; [exact Wo|]. split; [exact Wi|]. split; [exact Wb|].
  pose proof (written_length _ _ _ _ _ _ Wo).
  pose proof (written_length _ _ _ _ _ _ Wi).
  pose proof (written_length _ _ _ _ _ _ Wb).
  unfold weatherlink_ok in Hm.
  destruct (JSString.len (lo ++ li ++ lb)%list =? 0) eqn:E.
  - injection Hm as <-. discriminate Hr.
  - injection Hm as <-. cbn [returned events] in *. injection Hr as <-.
    split; [reflexivity|]. split; [|reflexivity].
    apply Z.eqb_neq in E. unfold JSString.len in E.
    rewrite !length_app in *. lia.
Qed.

(** X10 at the README's reading. *)
Lemma weatherlink_lines_witness :
  exists o p,
    WeatherLink.main readme_payload = Normal o
    /\ returned o = Some p
    /\ exists lo li lb,
         p = Str (JSString.join newline (lo ++ li ++ lb))
         /\ (1 <= List.length (lo ++ li ++ lb) <= 3)%nat.
Proof.
  destruct (WeatherLink.main readme_payload) as [o|e] eqn:Hm;
    [|vm_compute in Hm; discriminate Hm].
  destruct (returned o) as [p|] eqn:Hr;
    [|vm_compute in Hm; injection Hm as <-; discriminate Hr].
  exists o, p. split; [reflexivity|]. split; [exact Hr|].
  destruct (weatherlink_lines readme_payload o p Hm Hr)
    as (x & lo & li & lb & _ & _ & _ & _ & Hp & Hlen & _).
  exists lo, li, lb. split; assumption.
Defined.

(** *** The scripts as a whole *)

(** X11. The AirLink script as a whole.  A string payload JSON.parse
    rejects gives the error "JSON parsing error: " with the parser's
    message and null, a string it accepts is converted as the value it
    parses to, and any other payload is converted as it is.  The
    conversion returns, without an exception, for every payload whose
    data.ts, data.did and the properties of the first element of
    data.conditions convert to primitives; it raises the TypeError
    of the conversion when a payload that passes the check has a data.ts
    that does not convert. *)
Theorem airlink_script_outcomes (JSON_parse : string -> completion value) :
  (forall payload,
      convertible (ts_of payload) = true ->
      convertible (get (get payload "data") "did") = true ->
      convertible_properties (first_condition payload) = true ->
      exists o, AirLink.main payload = Normal o)
  /\ (forall payload,
         ToBoolean (first_condition payload) = true ->
         strict_eq_number
           (get (first_condition payload) "data_structure_type") 6 = true ->
         convertible (ts_of payload) = false ->
         AirLink.main payload = Throw cannot_convert)
  /\ (forall text e,
         JSON_parse text = Throw e ->
         AirLink.script JSON_parse (Str text) = Normal (parse_failure e))
  /\ (forall text parsed,
         JSON_parse text = Normal parsed ->
         AirLink.script JSON_parse (Str text) = AirLink.main parsed)
  /\ (forall msg_payload,
         (forall text, msg_payload <> Str text) ->
         AirLink.script JSON_parse msg_payload = AirLink.main msg_payload).
Proof.
  split; [exact airlink_returns|].
  split.
  { intros payload Hc0 H6 Cts.
    assert (Hts : ToBoolean (ts_of payload) = true).
    { destruct (ts_of payload); try discriminate Cts; reflexivity. }
    rewrite airlink_main_valid by assumption.
    now rewrite (ToNumber_raises _ Cts). }
  split; [|split].
  - intros text e H. unfold AirLink.script. rewrite H.
    destruct e; reflexivity.
  - intros text parsed H. unfold AirLink.script. now rewrite H.
  - intros msg_payload H. unfold AirLink.script.
    destruct msg_payload; try reflexivity. now destruct (H s).
Qed.

(** X11 with a parser that rejects every text, and at a reading whose
    values are numbers and strings. *)
Lemma airlink_script_outcomes_witness :
  AirLink.script (fun _ => Throw (SyntaxError "Unexpected token b"))
    (Str "{bad json")
  = Normal (parse_failure (SyntaxError "Unexpected token b"))
  /\ convertible (ts_of airlink_two) = true
  /\ convertible (get (get airlink_two "data") "did") = true
  /\ convertible_properties (first_condition airlink_two) = true
  /\ exists o, AirLink.main airlink_two = Normal o.
Proof.
  split.
  { apply (proj1 (proj2 (proj2 (airlink_script_outcomes _)))). reflexivity. }
  split; [reflexivity|]. split; [reflexivity|]. split; [reflexivity|].
  apply (proj1 (airlink_script_outcomes (fun _ => Normal Null)));
    reflexivity.
Defined.

(** X12. The WeatherLink script on a string payload: a string JSON.parse
    rejects gives the error "JSON parsing error: " with the parser's
    message and null, without raising; a string it accepts is converted as
    the value it parses to. *)
Theorem weatherlink_parse_step (JSON_parse : string -> completion value) :
  (forall text e,
      JSON_parse text = Throw e ->
      WeatherLink.script JSON_parse (Str text) = Normal (parse_failure e))
  /\ (forall text parsed,
         JSON_parse text = Normal parsed ->
         WeatherLink.script JSON_parse (Str text) = WeatherLink.main parsed)
  /\ (forall msg_payload,
         (forall text, msg_payload <> Str text) ->
         WeatherLink.script JSON_parse msg_payload
         = WeatherLink.main msg_payload)
  /\ (forall text parsed,
         JSON_parse text = Normal (Str parsed) ->
         WeatherLink.script JSON_parse (Str text) = Normal invalid_payload).
Proof.
  split; [|split; [|split]].
  - intros text e H. unfold WeatherLink.script. rewrite H.
    destruct e; reflexivity.
  - intros text parsed H. unfold WeatherLink.script. now rewrite H.
  - intros msg_payload H. unfold WeatherLink.script.
    destruct msg_payload; try reflexivity. now destruct (H s).
  - intros text parsed H. unfold WeatherLink.script. rewrite H.
    apply weatherlink_invalid_iff. left. unfold falsy, ts_of.
    reflexivity.
Qed.

(** X12 with a parser that rejects every text. *)
Lemma weatherlink_parse_step_witness :
  WeatherLink.script (fun _ => Throw (SyntaxError "Unexpected token b"))
    (Str "{bad json")
  = Normal (parse_failure (SyntaxError "Unexpected token b")).
Proof.
  apply (proj1 (weatherlink_parse_step _)). reflexivity.
Defined.

Lemma build_tags_did (d1 d2 : value) :
  get d1 "did" = get d2 "did" -> AirLink.build_tags d1 = AirLink.build_tags d2.
Proof.
  intros H. unfold AirLink.build_tags. now rewrite H.
Qed.

(** X13. The AirLink script reads three things of its payload: data.ts,
    data.did and the first element of data.conditions. Two payloads that
    agree on these give the same outcome; further sub-reports are never
    read. *)
Theorem airlink_reads_first_only (p1 p2 : value) :
  ts_of p1 = ts_of p2 ->
  first_condition p1 = first_condition p2 ->
  get (get p1 "data") "did" = get (get p2 "data") "did" ->
  AirLink.main p1 = AirLink.main p2.
Proof.
  intros Hts Hc Hd.
  destruct (ToBoolean (ts_of p1)) eqn:B1;
    [destruct (ToBoolean (first_condition p1)) eqn:B2;
     [destruct (strict_eq_number
                  (get (first_condition p1) "data_structure_type") 6)
        eqn:B3|]|].
  - rewrite (airlink_main_valid p1) by assumption.
    rewrite (airlink_main_valid p2) by (rewrite <- ?Hts, <- ?Hc; assumption).
    now rewrite Hts, Hc, (build_tags_did _ _ Hd).
  - rewrite (airlink_invalid_if p1) by auto.
    rewrite (airlink_invalid_if p2) by (rewrite <- Hc; auto).
    reflexivity.
  - rewrite (airlink_invalid_if p1) by (unfold falsy; auto).
    rewrite (airlink_invalid_if p2) by (unfold falsy; rewrite <- Hc; auto).
    reflexivity.
  - rewrite (airlink_invalid_if p1) by (unfold falsy; auto).
    rewrite (airlink_invalid_if p2) by (unfold falsy; rewrite <- Hts; auto).
    reflexivity.
Qed.

(** X13 at two readings that differ in their second sub-report. *)
Lemma airlink_reads_first_only_witness :
  first_condition airlink_one = first_condition airlink_two
  /\ AirLink.main airlink_one = AirLink.main airlink_two.
Proof.
  split; [reflexivity|].
  apply airlink_reads_first_only; reflexivity.
Defined.

(** X14. A run that returns reports what it returns: the WeatherLink
    script ends in one of three ways, the structure warning with null, the
    no-data warning with null, or the green status with a payload that is
    not empty; the AirLink script likewise, its no-data warning followed
    by the red status. No warning comes with a message, and no message
    without the green status. *)
Theorem outcomes_are_classified :
  (forall payload o,
      WeatherLink.main payload = Normal o ->
      o = invalid_payload \/ o = no_valid_data_points
      \/ exists s text,
           s <> ""
           /\ o = {| events := [Status "green" "dot" text];
                     returned := Some (Str s) |})
  /\ (forall payload o,
         AirLink.main payload = Normal o ->
         o = invalid_airlink \/ o = no_valid_data_to_write
         \/ exists s,
              s <> ""
              /\ o = {| events := [Status "green" "dot" "AirLink OK"];
                        returned := Some (Str s) |}).
Proof.
  split.
  - intros payload o Hm.
    destruct (ToBoolean (ts_of payload)) eqn:Hts;
      [destruct (ToBoolean (conditions_of payload)) eqn:Hc|].
    + destruct (weatherlink_outcomes payload o Hts Hc Hm)
        as [->|(l & lines & Hall & ->)]; [auto|].
      right. right. eexists. eexists. split; [|reflexivity].
      apply join_nonempty. now inversion Hall.
    + rewrite (proj2 (weatherlink_invalid_iff payload)) in Hm
        by (right; exact Hc).
      injection Hm as <-. auto.
    + rewrite (proj2 (weatherlink_invalid_iff payload)) in Hm
        by (left; exact Hts).
      injection Hm as <-. auto.
  - intros payload o Hm.
    destruct (airlink_outcomes payload o Hm)
      as [[-> _]|(_ & _ & _ & x & fields & _ & _
                  & [[_ ->]|(_ & t & f & _ & _ & ->)])]; [auto | auto |].
    right. right. eexists. split; [|reflexivity]. discriminate.
Qed.

(** X14 at the README's reading. *)
Lemma outcomes_are_classified_witness :
  exists o,
    WeatherLink.main readme_payload = Normal o
    /\ (o = invalid_payload \/ o = no_valid_data_points
        \/ exists s text,
             s <> ""
             /\ o = {| events := [Status "green" "dot" text];
                       returned := Some (Str s) |}).
Proof.
  destruct (WeatherLink.main readme_payload) as [o|e] eqn:Hm;
    [|vm_compute in Hm; discriminate Hm].
  exists o. split; [reflexivity|].
  exact (proj1 outcomes_are_classified readme_payload o Hm).
Defined.

End ScriptsMore.
